(** * token-intelligence: the ERC20 transfer collector ([src/collect.js])

    A shallow embedding of the chain-selecting prologue and of the ingestion
    loop of [src/collect.js], together with the properties of the
    natural-language specification that concern it.

    The script talks to three collaborators: the Hypersync stream, the
    ClickHouse client and the console.  Every call to one of them is recorded
    as an [Event] of a trace; what a collaborator answers is an input of the
    model (the [Stream] and the [Env] oracles).  JavaScript exceptions are
    results [Throw]; numbers that the script only uses as integers are [Z],
    BigInt values are [Z] as well. *)

From Stdlib Require Import ZArith List String Ascii Bool Lia.
From Stdlib Require Import Decimal DecimalString DecimalZ.
Import ListNotations.

Local Open Scope string_scope.
Local Open Scope Z_scope.

(* ================================================================== *)
(** ** JavaScript primitives used by the script *)

Module JS.

(** [n.toString()] for an integral Number or a BigInt: decimal digits, a
    leading minus sign for negatives. *)
Definition toString (n : Z) : string :=
  NilZero.string_of_int (Z.to_int n).

(** The inverse reading of a decimal literal, used to state that a value
    survives the string representation. *)
Definition parseDecimal (s : string) : option Z :=
  option_map Z.of_int (NilZero.int_of_string s).

(** [x || d] on strings: the empty string and [undefined] are falsy. *)
Definition orString (x : option string) (d : string) : string :=
  match x with
  | Some s => if String.eqb s "" then d else s
  | None => d
  end.

(** [x || d] on integers: [0] and [undefined] are falsy. *)
Definition orNumber (x : option Z) (d : Z) : Z :=
  match x with
  | Some n => if Z.eqb n 0 then d else n
  | None => d
  end.

(** White space skipped by [parseInt] (the ASCII part of StrWhiteSpaceChar). *)
Definition isWhite (c : ascii) : bool :=
  let n := nat_of_ascii c in
  (Nat.eqb n 9 || Nat.eqb n 10 || Nat.eqb n 11 || Nat.eqb n 12
   || Nat.eqb n 13 || Nat.eqb n 32)%bool.

Fixpoint trimStart (s : string) : string :=
  match s with
  | String c r => if isWhite c then trimStart r else s
  | EmptyString => s
  end.

(** Value of a character as a digit in base [radix]. *)
Definition digitOf (radix : Z) (c : ascii) : option Z :=
  let n := Z.of_nat (nat_of_ascii c) in
  let v :=
    if (48 <=? n) && (n <=? 57) then Some (n - 48)
    else if (97 <=? n) && (n <=? 122) then Some (n - 87)
    else if (65 <=? n) && (n <=? 90) then Some (n - 55)
    else None in
  match v with
  | Some d => if d <? radix then Some d else None
  | None => None
  end.

(** The longest prefix of digits, read in base [radix]; [acc] is [None]
    until a digit has been read. *)
Fixpoint readDigits (radix : Z) (s : string) (acc : option Z) : option Z :=
  match s with
  | String c r =>
      match digitOf radix c with
      | Some d =>
          readDigits radix r
            (Some (match acc with Some a => a * radix + d | None => d end))
      | None => acc
      end
  | EmptyString => acc
  end.

(** [parseInt(s)] with no radix argument; [None] is NaN.  The result is the
    exact integer: a literal beyond 2^53 is rounded by JavaScript to a
    double, which changes its digits but not its being a key of no table
    below. *)
Definition parseIntString (s : string) : option Z :=
  let s := trimStart s in
  let '(neg, s) :=
    match s with
    | String "-" r => (true, r)
    | String "+" r => (false, r)
    | _ => (false, s)
    end in
  let '(radix, s) :=
    match s with
    | String "0" (String "x" r) => (16, r)
    | String "0" (String "X" r) => (16, r)
    | _ => (10, s)
    end in
  match readDigits radix s None with
  | Some v => Some (if neg then - v else v)
  | None => None
  end.

(** [parseInt(x)] where [x] may be [undefined]: the argument is first
    converted to the string "undefined". *)
Definition parseInt (x : option string) : option Z :=
  parseIntString (match x with Some s => s | None => "undefined" end).

(** *** [Date.prototype.toISOString] *)

(** Largest time value of a valid Date, in milliseconds. *)
Definition maxTime : Z := 8640000000000000.

(** Year, month and day of a count of days since 1970-01-01 (proleptic
    Gregorian calendar). *)
Definition civil (days : Z) : Z * Z * Z :=
  let z := days + 719468 in
  let era := z / 146097 in
  let doe := z - era * 146097 in
  let yoe := (doe - doe / 1460 + doe / 36524 - doe / 146096) / 365 in
  let doy := doe - (365 * yoe + yoe / 4 - yoe / 100) in
  let mp := (5 * doy + 2) / 153 in
  let d := doy - (153 * mp + 2) / 5 + 1 in
  let m := if mp <? 10 then mp + 3 else mp - 9 in
  let y := yoe + era * 400 + (if m <=? 2 then 1 else 0) in
  (y, m, d).

(** Decimal digits of a natural number, padded with zeros to [width]. *)
Definition pad (width : nat) (n : Z) : string :=
  let s := toString n in
  String.concat "" (repeat "0" (width - String.length s)) ++ s.

Definition isoYear (y : Z) : string :=
  if (0 <=? y) && (y <=? 9999) then pad 4 y
  else (if y <? 0 then "-" else "+") ++ pad 6 (Z.abs y).

(** [new Date(ms).toISOString()]; [None] is the RangeError of an invalid
    time value. *)
Definition toISOString (ms : Z) : option string :=
  if (Z.abs ms <=? maxTime) then
    let days := ms / 86400000 in
    let rest := ms mod 86400000 in
    let '(y, m, d) := civil days in
    Some (isoYear y ++ "-" ++ pad 2 m ++ "-" ++ pad 2 d ++ "T"
          ++ pad 2 (rest / 3600000) ++ ":"
          ++ pad 2 ((rest / 60000) mod 60) ++ ":"
          ++ pad 2 ((rest / 1000) mod 60) ++ "."
          ++ pad 3 (rest mod 1000) ++ "Z")
  else None.

(** [s.slice(0, n)]. *)
Definition slice0 (n : nat) (s : string) : string := substring 0 n s.

(** [s.replace("T", " ")]: only the first occurrence is replaced. *)
Fixpoint replaceT (s : string) : string :=
  match s with
  | String c r => if Ascii.eqb c "T" then String " " r else String c (replaceT r)
  | EmptyString => EmptyString
  end.

(** [a.join(sep)]. *)
Definition join (sep : string) (l : list string) : string :=
  String.concat sep l.

End JS.

(* ================================================================== *)
(** ** Chain selection (lines 14-48) *)

Record ChainInfo := { name : string; hypersyncUrl : string }.

(** The object literal [CHAIN_CONFIG], in the order of the source. *)
Definition CHAIN_CONFIG : list (Z * ChainInfo) :=
  [ (1, {| name := "Ethereum"; hypersyncUrl := "http://1.hypersync.xyz" |});
    (10, {| name := "Optimism"; hypersyncUrl := "http://10.hypersync.xyz" |});
    (56, {| name := "BSC"; hypersyncUrl := "http://56.hypersync.xyz" |});
    (130, {| name := "Unichain"; hypersyncUrl := "http://130.hypersync.xyz" |});
    (137, {| name := "Polygon"; hypersyncUrl := "http://137.hypersync.xyz" |});
    (480, {| name := "World Chain"; hypersyncUrl := "http://480.hypersync.xyz" |});
    (1868, {| name := "Lightlink"; hypersyncUrl := "http://1868.hypersync.xyz" |});
    (7777777, {| name := "Zora"; hypersyncUrl := "http://7777777.hypersync.xyz" |});
    (8453, {| name := "Base"; hypersyncUrl := "http://8453.hypersync.xyz" |});
    (42161, {| name := "Arbitrum"; hypersyncUrl := "http://42161.hypersync.xyz" |});
    (43114, {| name := "Avalanche"; hypersyncUrl := "http://43114.hypersync.xyz" |});
    (81457, {| name := "Blast"; hypersyncUrl := "http://81457.hypersync.xyz" |}) ].

(** [CHAIN_CONFIG[id]]: property lookup by an integer key. *)
Fixpoint lookupChain (cfg : list (Z * ChainInfo)) (id : Z) : option ChainInfo :=
  match cfg with
  | (k, info) :: rest => if Z.eqb k id then Some info else lookupChain rest id
  | [] => None
  end.

(** [Object.keys] lists integer keys in ascending numeric order, whatever
    the order of the literal. *)
Fixpoint insertKey (k : Z) (l : list Z) : list Z :=
  match l with
  | x :: r => if k <=? x then k :: l else x :: insertKey k r
  | [] => [k]
  end.

Definition Object_keys (cfg : list (Z * ChainInfo)) : list Z :=
  fold_right insertKey [] (map fst cfg).

(** The whitelist as printed after "Available chains:". *)
Definition availableChains : string :=
  JS.join ", "
    (map (fun id =>
            JS.toString id ++ " (" ++
            match lookupChain CHAIN_CONFIG id with
            | Some info => name info
            | None => "undefined"
            end ++ ")")
         (Object_keys CHAIN_CONFIG)).

(** [const CHAIN_ID = parseInt(process.argv[2]) || 130]: NaN and 0 are
    falsy. *)
Definition CHAIN_ID (argv2 : option string) : Z :=
  JS.orNumber (JS.parseInt argv2) 130.

(* ================================================================== *)
(** ** Data model *)

(** The row handed to ClickHouse (lines 225-234). *)
Record TransferRecord := {
  block_number : Z;
  block_timestamp : string;
  log_index : Z;
  transaction_hash : string;
  contract_address : string;
  from_address : string;
  to_address : string;
  value : string
}.

(** What [Decoder.decodeLogs] yields for a log that matches
    [Transfer(address indexed from, address indexed to, uint256 value)]:
    the [val] of each indexed parameter (an address string) and of each body
    parameter (a BigInt).  With these types no statement of the [try] block
    (lines 208-250) can raise, so its [catch] is unreachable and has no
    counterpart below. *)
Record DecodedEvent := {
  indexed : list string;
  body : list Z
}.

(** A raw log of a page.  [address], [logIndex] and [transactionHash] are
    the selected fields the script reads.  [decoded] stands for the topics
    and data of the log through what [decoder.decodeLogs] makes of them at
    the same index ([None] is [null]: the log does not match the signature).
    [inBlock] is the number of the block that contains the log
    (LogField.BlockNumber); the query does not select it and the script
    never reads it. *)
Record Log := {
  address : option string;
  logIndex : option Z;
  transactionHash : option string;
  decoded : option DecodedEvent;
  inBlock : Z
}.

Record Block := {
  number : option Z;
  timestamp : option Z
}.

Record ResponseData := {
  logs : option (list Log);
  blocks : option (list Block)
}.

(** A page: the value [stream.recv()] resolves to when it is not [null]. *)
Record Response := {
  data : option ResponseData;
  nextBlock : Z
}.

(** The results of the successive calls of [stream.recv()]: pages, then
    either [null] ([Tip]) or a rejection ([Broken]).  Each page comes with the
    reading [new Date()] would give while it is processed (milliseconds). *)
Inductive Stream :=
| Tip
| Broken
| Page (res : Response) (now : Z) (rest : Stream).

(** A stream of the given pages that ends at the tip of the chain. *)
Fixpoint streamOf (pages : list (Response * Z)) : Stream :=
  match pages with
  | (res, now) :: rest => Page res now (streamOf rest)
  | [] => Tip
  end.

Local Open Scope list_scope.

(** *** Trace of the calls to the collaborators *)

Inductive Statement :=
| CreateDatabase
| DropTable (table : string)
| CreateTable (table : string).

Inductive Message :=
| MsgUnsupported (id : Z)
| MsgAvailable (chains : string)
| MsgCollecting (chain : string) (id : Z)
| MsgStarting
| MsgSettingUp (table : string)
| MsgReady (table : string)
| MsgTip
| MsgSample (r : TransferRecord)
| MsgInserted (n : nat)
| MsgInsertError
| MsgProgress (next : Z) (totalEvents : nat) (pending : nat)
| MsgInsertedFinal (n : nat)
| MsgFinalInsertError
| MsgScanComplete (totalEvents : nat)
| MsgTotalValue (total : string)
| MsgSaved (table : string)
| MsgFatal.

Inductive Event :=
| Console (m : Message)
| Command (q : Statement) (ok : bool)
| OpenStream (fromBlock : Z) (ok : bool)
| Recv
| Insert (table : string) (values : list TransferRecord) (ok : bool)
| Close (ok : bool)
| Exit (code : Z).

Definition Trace := list Event.

(** What the collaborators answer: whether the k-th [clickhouse.command]
    and the k-th [clickhouse.insert] resolve, and whether [client.stream]
    and [clickhouse.close] do. *)
Record Env := {
  commandOk : nat -> bool;
  streamOk : bool;
  insertOk : nat -> bool;
  closeOk : bool
}.

Definition isInsert (e : Event) : bool :=
  match e with Insert _ _ _ => true | _ => false end.

Definition isCommand (e : Event) : bool :=
  match e with Command _ _ => true | _ => false end.

Definition isRecv (e : Event) : bool :=
  match e with Recv => true | _ => false end.

(** The batches handed to [clickhouse.insert], in call order. *)
Fixpoint inserts (t : Trace) : list (list TransferRecord) :=
  match t with
  | Insert _ vs _ :: r => vs :: inserts r
  | _ :: r => inserts r
  | [] => []
  end.

(** The batches of the insert calls that resolved. *)
Fixpoint accepted (t : Trace) : list (list TransferRecord) :=
  match t with
  | Insert _ vs true :: r => vs :: accepted r
  | _ :: r => accepted r
  | [] => []
  end.

Definition countOf (p : Event -> bool) (t : Trace) : nat :=
  List.length (filter p t).

(** *** Computations: a trace is extended, a value is returned or an
    exception is thrown *)

Inductive Result (A : Type) :=
| Ok (a : A)
| Throw.
Arguments Ok {A} a.
Arguments Throw {A}.

Definition M (A : Type) : Type := Trace -> Result A * Trace.

Definition ret {A} (a : A) : M A := fun t => (Ok a, t).

Definition bind {A B} (m : M A) (k : A -> M B) : M B :=
  fun t => match m t with
           | (Ok a, t') => k a t'
           | (Throw, t') => (Throw, t')
           end.

Definition throw {A} : M A := fun t => (Throw, t).

Definition emit (e : Event) : M unit := fun t => (Ok tt, t ++ [e]).

(** [try { m } catch (error) { h }]. *)
Definition tryCatch {A} (m : M A) (h : M A) : M A :=
  fun t => match m t with
           | (Ok a, t') => (Ok a, t')
           | (Throw, t') => h t'
           end.

Declare Scope js_scope.
Delimit Scope js_scope with js.
Notation "x <- m ;; k" := (bind m (fun x => k))
  (at level 61, m at next level, right associativity) : js_scope.
Notation "m ;; k" := (bind m (fun _ => k))
  (at level 61, right associativity) : js_scope.

Local Open Scope js_scope.

(** A JavaScript expression that raises when it has no value. *)
Definition orThrow {A} (x : option A) : M A :=
  match x with
  | Some a => ret a
  | None => throw
  end.

(* ================================================================== *)
(** ** The collector *)

(** The variables of [main] that the loop updates (lines 159-161), and
    [query.fromBlock] (line 108), the cursor. *)
Record Locals := {
  totalEvents : nat;
  totalTransferValue : Z;
  transferBatch : list TransferRecord;
  fromBlock : Z
}.

Definition initialLocals : Locals :=
  {| totalEvents := 0; totalTransferValue := 0; transferBatch := [];
     fromBlock := 0 |}.

(** [const BATCH_SIZE = 1000] (line 162). *)
Definition BATCH_SIZE : nat := 1000.

Section Collector.

Variable env : Env.

(** [clickhouse.command({ query })]. *)
Definition command (q : Statement) : M unit :=
  fun t =>
    let ok := commandOk env (countOf isCommand t) in
    (if ok then Ok tt else Throw, t ++ [Command q ok]).

(** [initializeDatabase] (lines 67-104). *)
Definition initializeDatabase (chainId : Z) : M string :=
  let tableName := ("erc20_transfers_" ++ JS.toString chainId)%string in
  emit (Console (MsgSettingUp tableName));;
  command CreateDatabase;;
  command (DropTable tableName);;
  command (CreateTable tableName);;
  emit (Console (MsgReady tableName));;
  ret tableName.

(** [insertTransferBatch] (lines 138-146): no call for an empty array. *)
Definition insertTransferBatch (transfers : list TransferRecord)
    (tableName : string) : M unit :=
  if Nat.eqb (List.length transfers) 0 then ret tt
  else
    fun t =>
      let ok := insertOk env (countOf isInsert t) in
      (if ok then Ok tt else Throw,
       t ++ [Insert ("token_intelligence." ++ tableName)%string transfers ok]).

(** [new Date(ms).toISOString().slice(0, 19).replace("T", " ")]. *)
Definition sqlDateTime (ms : Z) : option string :=
  option_map (fun s => JS.replaceT (JS.slice0 19 s)) (JS.toISOString ms).

(** [res.data.blocks?.[0] || {}] (line 185). *)
Definition blockDataOf (d : ResponseData) : Block :=
  match blocks d with
  | Some (b :: _) => b
  | _ => {| number := None; timestamp := None |}
  end.

(** [blockData.number || 0] (line 186). *)
Definition blockNumberOf (d : ResponseData) : Z :=
  JS.orNumber (number (blockDataOf d)) 0.

(** The time value whose date becomes [blockTimestamp] (lines 187-192):
    the timestamp of the block in seconds when it is truthy, the current
    time otherwise. *)
Definition timeOf (d : ResponseData) (now : Z) : Z :=
  match timestamp (blockDataOf d) with
  | Some ts => if Z.eqb ts 0 then now else ts * 1000
  | None => now
  end.

(** [log.body[0]?.val || BigInt(0)] (line 214). *)
Definition valueOf (log : DecodedEvent) : Z :=
  JS.orNumber (nth_error (body log) 0) 0.

(** The object pushed for a decoded log (lines 209-234). *)
Definition recordOf (blockNumber : Z) (blockTimestamp : string)
    (log : DecodedEvent) (originalLog : Log) : TransferRecord :=
  let from := JS.orString (nth_error (indexed log) 0) "0x0" in
  let to := JS.orString (nth_error (indexed log) 1) "0x0" in
  let value := valueOf log in
  let contractAddress := JS.orString (address originalLog) "0x0" in
  let logIndex := JS.orNumber (logIndex originalLog) 0 in
  let transactionHash := JS.orString (transactionHash originalLog) "0x0" in
  {| block_number := blockNumber;
     block_timestamp := blockTimestamp;
     log_index := logIndex;
     transaction_hash := transactionHash;
     contract_address := contractAddress;
     from_address := from;
     to_address := to;
     value := JS.toString value |}.

(** What the [for] loop over a page updates: [totalTransferValue],
    [transferBatch], and the record printed as the sample of the page
    ([printedEventThisBatch] is true once there is one). *)
Record Scan := {
  scanValue : Z;
  scanBatch : list TransferRecord;
  scanSample : option TransferRecord
}.

(** One iteration of the [for] loop (lines 199-253). *)
Definition processLog (blockNumber : Z) (blockTimestamp : string)
    (sc : Scan) (originalLog : Log) : Scan :=
  match decoded originalLog with
  | None => sc
  | Some log =>
      let r := recordOf blockNumber blockTimestamp log originalLog in
      {| scanValue := scanValue sc + valueOf log;
         scanBatch := scanBatch sc ++ [r];
         scanSample :=
           match scanSample sc with
           | Some s => Some s
           | None => Some r
           end |}
  end.

(** The [for] loop (lines 198-254). *)
Definition processLogs (blockNumber : Z) (blockTimestamp : string)
    (ls : list Log) (sc : Scan) : Scan :=
  fold_left (processLog blockNumber blockTimestamp) ls sc.

(** The flush after a page (lines 257-267); the result is the new
    [transferBatch]. *)
Definition flushIfFull (cap : nat) (tableName : string)
    (batch : list TransferRecord) : M (list TransferRecord) :=
  if Nat.leb cap (List.length batch) then
    tryCatch
      (insertTransferBatch batch tableName;;
       emit (Console (MsgInserted (List.length batch)));;
       ret [])
      (emit (Console MsgInsertError);;
       ret batch)
  else ret batch.

(** The body of [if (res.data && res.data.logs)] (lines 178-268).  The
    sample of the page is printed inside the [for] loop, which calls no
    other collaborator: its place in the trace is the same here. *)
Definition processData (cap : nat) (tableName : string) (res : Response)
    (now : Z) (st : Locals) : M Locals :=
  match data res with
  | Some d =>
      match logs d with
      | Some ls =>
          let total := (totalEvents st + List.length ls)%nat in
          let blockNumber := blockNumberOf d in
          blockTimestamp <- orThrow (sqlDateTime (timeOf d now));;
          let sc := processLogs blockNumber blockTimestamp ls
                      {| scanValue := totalTransferValue st;
                         scanBatch := transferBatch st;
                         scanSample := None |} in
          match scanSample sc with
          | Some r => emit (Console (MsgSample r))
          | None => ret tt
          end;;
          batch <- flushIfFull cap tableName (scanBatch sc);;
          ret {| totalEvents := total;
                 totalTransferValue := scanValue sc;
                 transferBatch := batch;
                 fromBlock := fromBlock st |}
      | None => ret st
      end
  | None => ret st
  end.

(** [if (res.nextBlock) query.fromBlock = res.nextBlock] (lines 271-273). *)
Definition advance (res : Response) (st : Locals) : Locals :=
  {| totalEvents := totalEvents st;
     totalTransferValue := totalTransferValue st;
     transferBatch := transferBatch st;
     fromBlock := if Z.eqb (nextBlock res) 0 then fromBlock st
                  else nextBlock res |}.

(** One turn of the [while] loop on a page (lines 177-284). *)
Definition onPage (cap : nat) (tableName : string) (res : Response)
    (now : Z) (st : Locals) : M Locals :=
  st1 <- processData cap tableName res now st;;
  let st2 := advance res st1 in
  emit (Console (MsgProgress (nextBlock res) (totalEvents st2)
                   (List.length (transferBatch st2))));;
  ret st2.

(** The [while (true)] loop (lines 168-285). *)
Fixpoint streamLoop (cap : nat) (tableName : string) (s : Stream)
    (st : Locals) : M Locals :=
  emit Recv;;
  match s with
  | Tip => emit (Console MsgTip);; ret st
  | Broken => throw
  | Page res now rest =>
      st' <- onPage cap tableName res now st;;
      streamLoop cap tableName rest st'
  end.

(** The flush after the loop (lines 288-297). *)
Definition finalFlush (tableName : string) (st : Locals) : M unit :=
  if Nat.ltb 0 (List.length (transferBatch st)) then
    tryCatch
      (insertTransferBatch (transferBatch st) tableName;;
       emit (Console (MsgInsertedFinal (List.length (transferBatch st)))))
      (emit (Console MsgFinalInsertError))
  else ret tt.

(** [client.stream(query, {})] (line 166). *)
Definition openStream (from : Z) : M unit :=
  fun t => (if streamOk env then Ok tt else Throw,
            t ++ [OpenStream from (streamOk env)]).

(** [clickhouse.close()] (line 312). *)
Definition close : M unit :=
  fun t => (if closeOk env then Ok tt else Throw, t ++ [Close (closeOk env)]).

(** The loop and the final flush (lines 168-297). *)
Definition ingest (cap : nat) (tableName : string) (s : Stream)
    (st : Locals) : M Locals :=
  st' <- streamLoop cap tableName s st;;
  finalFlush tableName st';;
  ret st'.

(** [main] (lines 148-313), for a batch size [cap]. *)
Definition mainWith (cap : nat) (chainId : Z) (s : Stream) : M unit :=
  emit (Console MsgStarting);;
  tableName <- initializeDatabase chainId;;
  openStream (fromBlock initialLocals);;
  st <- ingest cap tableName s initialLocals;;
  emit (Console (MsgScanComplete (totalEvents st)));;
  emit (Console (MsgTotalValue (JS.toString (totalTransferValue st))));;
  emit (Console (MsgSaved tableName));;
  close.

Definition main : Z -> Stream -> M unit := mainWith BATCH_SIZE.

(** The whole script: chain validation (lines 31-48), then
    [main().catch(...)] (lines 315-318). *)
Definition program (argv2 : option string) (s : Stream) : Trace :=
  let id := CHAIN_ID argv2 in
  match lookupChain CHAIN_CONFIG id with
  | None =>
      [ Console (MsgUnsupported id);
        Console (MsgAvailable availableChains);
        Exit 1 ]
  | Some chainInfo =>
      match (emit (Console (MsgCollecting (name chainInfo) id));;
             main id s) [] with
      | (Ok _, t) => t
      | (Throw, t) => t ++ [Console MsgFatal; Exit 1]
      end
  end.

End Collector.

(** The exit code of a run: that of [process.exit] when it was called, 0
    when the script ran to its end. *)
Definition exitCode (t : Trace) : Z :=
  match last t Recv with
  | Exit c => c
  | _ => 0
  end.

(* ================================================================== *)
(** ** The scanner without a sink ([collect.js] at the root)

    The first version of the script: the same stream and the same decoder,
    no database.  It counts the logs, adds up the values and prints a sample
    per page.  The stream is opened on Unichain, whatever the command line. *)

Module Legacy.

Inductive Message :=
| MsgStarting
| MsgTip
| MsgSample (next : Z) (from to value : string)
| MsgProgress (next : Z) (totalEvents : nat)
| MsgScanComplete (totalEvents : nat)
| MsgTotalValue (total : string)
| MsgFatal.

Inductive Event :=
| Console (m : Message)
| OpenStream (fromBlock : Z) (ok : bool)
| Recv
| Exit (code : Z).

(** [totalEvents], [totalTransferValue] (lines 64-65) and
    [query.fromBlock]. *)
Record Locals := {
  totalEvents : nat;
  totalTransferValue : Z;
  fromBlock : Z
}.

Definition initialLocals : Locals :=
  {| totalEvents := 0; totalTransferValue := 0; fromBlock := 0 |}.

(** What the [for] loop over a page updates: the total and whether the
    sample of the page was printed, with the lines printed so far. *)
Record Scan := {
  scanValue : Z;
  scanPrinted : bool;
  scanOutput : list Event
}.

(** One iteration of the [for] loop (lines 91-124). *)
Definition processLog (next : Z) (sc : Scan) (log : option DecodedEvent)
    : Scan :=
  match log with
  | None => sc
  | Some log =>
      let from := JS.orString (nth_error (indexed log) 0) "unknown" in
      let to := JS.orString (nth_error (indexed log) 1) "unknown" in
      let value := JS.orNumber (nth_error (body log) 0) 0 in
      {| scanValue := scanValue sc + value;
         scanPrinted := true;
         scanOutput :=
           if scanPrinted sc then scanOutput sc
           else scanOutput sc
                ++ [Console (MsgSample next from to (JS.toString value))] |}
  end.

(** One turn of the [while] loop on a page (lines 80-139). *)
Definition onPage (res : Response) (st : Locals) : Locals * list Event :=
  let '(events, value, out) :=
    match data res with
    | Some d =>
        match logs d with
        | Some ls =>
            let sc := fold_left (processLog (nextBlock res))
                        (map decoded ls)
                        {| scanValue := totalTransferValue st;
                           scanPrinted := false;
                           scanOutput := [] |} in
            ((totalEvents st + List.length ls)%nat, scanValue sc,
             scanOutput sc)
        | None => (totalEvents st, totalTransferValue st, [])
        end
    | None => (totalEvents st, totalTransferValue st, [])
    end in
  ({| totalEvents := events;
      totalTransferValue := value;
      fromBlock := if Z.eqb (nextBlock res) 0 then fromBlock st
                   else nextBlock res |},
   out ++ [Console (MsgProgress (nextBlock res) events)]).

(** The [while (true)] loop (lines 71-140): the locals at the end, or
    [None] when [stream.recv()] rejects, and the events emitted. *)
Fixpoint streamLoop (s : Stream) (st : Locals) : option Locals * list Event :=
  match s with
  | Tip => (Some st, [Recv; Console MsgTip])
  | Broken => (None, [Recv])
  | Page res _ rest =>
      let '(st', out) := onPage res st in
      let '(r, out') := streamLoop rest st' in
      (r, Recv :: out ++ out')
  end.

(** The whole script (lines 56-155). *)
Definition program (streamOk : bool) (s : Stream) : list Event :=
  [Console MsgStarting; OpenStream 0 streamOk]
  ++ (if streamOk then
        match streamLoop s initialLocals with
        | (Some st, out) =>
            out ++ [Console (MsgScanComplete (totalEvents st));
                    Console (MsgTotalValue
                               (JS.toString (totalTransferValue st)))]
        | (None, out) => out ++ [Console MsgFatal; Exit 1]
        end
      else [Console MsgFatal; Exit 1]).

End Legacy.

(* ================================================================== *)
(** ** The token metadata loader ([populate_token_cache.js])

    [extractChainId], [initializeChainTokenTable], [insertTokenBatch] and
    [processMetadataFile].  A file is given by what [readFile], [JSON.parse]
    and [Object.entries] make of it: the list of its entries, or nothing when
    one of the three raises.  JSON numbers are values of a type [Num] with a
    test for zero, the only number that is falsy; [toLowerCase] is the
    method of JavaScript strings. *)

Module Tokens.

(** *** [extractChainId] (lines 58-61) *)

(** [s] without the prefix [p], when it starts with it. *)
Fixpoint stripPrefix (p s : string) : option string :=
  match p, s with
  | EmptyString, _ => Some s
  | String a p', String b s' =>
      if Ascii.eqb a b then stripPrefix p' s' else None
  | String _ _, EmptyString => None
  end.

(** [\d]: an ASCII digit. *)
Definition isDigit (c : ascii) : bool :=
  let n := nat_of_ascii c in (Nat.leb 48 n && Nat.leb n 57)%bool.

(** The longest prefix of digits of a string, and what follows it. *)
Fixpoint spanDigits (s : string) : string * string :=
  match s with
  | String c r =>
      if isDigit c then let '(ds, rest) := spanDigits r in (String c ds, rest)
      else (EmptyString, s)
  | EmptyString => (EmptyString, EmptyString)
  end.

(** A match of [/tokenMetadata_(\d+)\.json$/] that starts at the start of
    [s]: the digits captured.  The digits are followed by the end of the
    pattern only after the last of them, so the greedy match is the only
    one. *)
Definition matchHere (s : string) : option string :=
  match stripPrefix "tokenMetadata_" s with
  | Some r =>
      let '(ds, rest) := spanDigits r in
      if (negb (String.eqb ds "") && String.eqb rest ".json")%bool
      then Some ds else None
  | None => None
  end.

(** [filename.match(...)]: the leftmost match. *)
Fixpoint search (s : string) : option string :=
  match matchHere s with
  | Some ds => Some ds
  | None =>
      match s with
      | String _ r => search r
      | EmptyString => None
      end
  end.

(** [extractChainId]; [None] is [null].  The capture is a non-empty string
    of digits, which [parseInt] reads in base 10. *)
Definition extractChainId (filename : string) : option Z :=
  match search filename with
  | Some ds => JS.parseIntString ds
  | None => None
  end.

(** [s.startsWith(p)] and [s.endsWith(p)]. *)
Definition startsWith (p s : string) : bool :=
  match stripPrefix p s with Some _ => true | None => false end.

Definition endsWith (p s : string) : bool :=
  let n := String.length s in
  let m := String.length p in
  (Nat.leb m n && String.eqb (substring (n - m) m s) p)%bool.

(** The files [main] keeps of those of the directory (lines 144-146). *)
Definition metadataFiles (files : list string) : list string :=
  filter (fun file => (startsWith "tokenMetadata_" file
                       && endsWith ".json" file)%bool) files.

Section Loader.

Variable Num : Type.
Variable numIsZero : Num -> bool.
Variable toLowerCase : string -> string.

#[local] Unset Elimination Schemes.

(** A value [JSON.parse] returns. *)
Inductive Json :=
| JNull
| JBool (b : bool)
| JNum (n : Num)
| JStr (s : string)
| JArr (items : list Json)
| JObj (fields : list (string * Json)).

#[local] Set Elimination Schemes.

(** The row handed to ClickHouse (lines 97-102). *)
Record TokenRow := {
  contract_address : string;
  name : Json;
  symbol : Json;
  decimals : Num
}.

Inductive Message :=
| MsgProcessing (filePath : string) (chainId : Z)
| MsgSettingUp (table : string)
| MsgReady (table : string)
| MsgSkipping (address : string) (tokenData : Json)
| MsgInsertedBatch (n : nat) (total : nat)
| MsgInsertedFinal (n : nat)
| MsgCompleted (filePath : string) (total : nat)
| MsgError (filePath : string)
| MsgNoChainId (filename : string)
| MsgBlank.

Inductive Event :=
| Console (m : Message)
| Command (q : Statement) (ok : bool)
| LoadEntries (filePath : string) (ok : bool)
| Insert (table : string) (values : list TokenRow) (ok : bool).

(** The value [processMetadataFile] returns. *)
Record FileResult := {
  chainId : Z;
  tokenCount : nat;
  tableName : option string
}.

(** Computations over the trace of this script. *)
Definition P (A : Type) : Type := list Event -> Result A * list Event.

Definition ret {A} (a : A) : P A := fun t => (Ok a, t).

Definition bind {A B} (m : P A) (k : A -> P B) : P B :=
  fun t => match m t with
           | (Ok a, t') => k a t'
           | (Throw, t') => (Throw, t')
           end.

Definition throw {A} : P A := fun t => (Throw, t).

Definition emit (e : Event) : P unit := fun t => (Ok tt, t ++ [e]).

Definition tryCatch {A} (m : P A) (h : P A) : P A :=
  fun t => match m t with
           | (Ok a, t') => (Ok a, t')
           | (Throw, t') => h t'
           end.

Definition isInsert (e : Event) : bool :=
  match e with Insert _ _ _ => true | _ => false end.

Definition isCommand (e : Event) : bool :=
  match e with Command _ _ => true | _ => false end.

Definition countOf (p : Event -> bool) (t : list Event) : nat :=
  List.length (filter p t).

(** The batches handed to [clickhouse.insert], and those of the calls that
    resolved. *)
Fixpoint inserts (t : list Event) : list (list TokenRow) :=
  match t with
  | Insert _ vs _ :: r => vs :: inserts r
  | _ :: r => inserts r
  | [] => []
  end.

Fixpoint accepted (t : list Event) : list (list TokenRow) :=
  match t with
  | Insert _ vs true :: r => vs :: accepted r
  | _ :: r => accepted r
  | [] => []
  end.

Variable env : Env.

(** [clickhouse.command({ query })]. *)
Definition command (q : Statement) : P unit :=
  fun t =>
    let ok := commandOk env (countOf isCommand t) in
    (if ok then Ok tt else Throw, t ++ [Command q ok]).

(** [initializeChainTokenTable] (lines 11-44). *)
Definition initializeChainTokenTable (chain : Z) : P string :=
  let tableName := ("token_metadata_" ++ JS.toString chain)%string in
  bind (emit (Console (MsgSettingUp tableName))) (fun _ =>
  bind (command CreateDatabase) (fun _ =>
  bind (command (DropTable tableName)) (fun _ =>
  bind (command (CreateTable tableName)) (fun _ =>
  bind (emit (Console (MsgReady tableName))) (fun _ =>
  ret tableName))))).

(** [insertTokenBatch] (lines 47-55). *)
Definition insertTokenBatch (tokens : list TokenRow) (table : string)
    : P unit :=
  if Nat.eqb (List.length tokens) 0 then ret tt
  else
    fun t =>
      let ok := insertOk env (countOf isInsert t) in
      (if ok then Ok tt else Throw,
       t ++ [Insert ("token_intelligence." ++ table)%string tokens ok]).

(** [tokenData.key] on a value that is not [null]: own properties of an
    object, [undefined] ([None]) on anything else. *)
Definition get (tokenData : Json) (key : string) : option Json :=
  match tokenData with
  | JObj fields =>
      option_map snd (find (fun p => String.eqb (fst p) key) fields)
  | _ => None
  end.

(** Truthiness of a property value. *)
Definition truthy (v : option Json) : bool :=
  match v with
  | None => false
  | Some JNull => false
  | Some (JBool b) => b
  | Some (JNum n) => negb (numIsZero n)
  | Some (JStr s) => negb (String.eqb s "")
  | Some (JArr _) => true
  | Some (JObj _) => true
  end.

(** The row pushed for an entry that passes the validation (lines 82-102);
    [None] when the entry is skipped. *)
Definition rowOf (checksummedAddress : string) (tokenData : Json)
    : option TokenRow :=
  let lowercaseAddress := toLowerCase checksummedAddress in
  if (negb (truthy (get tokenData "name"))
      || negb (truthy (get tokenData "symbol")))%bool then None
  else
    match get tokenData "name", get tokenData "symbol",
          get tokenData "decimals" with
    | Some nm, Some sy, Some (JNum dec) =>
        Some {| contract_address := lowercaseAddress;
                name := nm; symbol := sy; decimals := dec |}
    | _, _, _ => None
    end.

(** The [for] loop over the entries (lines 80-114), for a batch size
    [cap]: the batch and the count at the end. *)
Fixpoint tokenLoop (cap : nat) (table : string)
    (entries : list (string * Json)) (tokenBatch : list TokenRow)
    (processedCount : nat) : P (list TokenRow * nat) :=
  match entries with
  | [] => ret (tokenBatch, processedCount)
  | (checksummedAddress, tokenData) :: rest =>
      match tokenData with
      | JNull => throw
      | _ =>
          match rowOf checksummedAddress tokenData with
          | None =>
              bind (emit (Console (MsgSkipping checksummedAddress tokenData)))
                (fun _ => tokenLoop cap table rest tokenBatch processedCount)
          | Some row =>
              let batch := tokenBatch ++ [row] in
              let count := S processedCount in
              if Nat.leb cap (List.length batch) then
                bind (insertTokenBatch batch table) (fun _ =>
                bind (emit (Console (MsgInsertedBatch (List.length batch)
                                       count))) (fun _ =>
                tokenLoop cap table rest [] count))
              else tokenLoop cap table rest batch count
          end
      end
  end.

(** [readFile], [JSON.parse] and [Object.entries] (lines 73-80). *)
Definition loadEntries (filePath : string)
    (content : option (list (string * Json))) : P (list (string * Json)) :=
  fun t =>
    match content with
    | Some entries => (Ok entries, t ++ [LoadEntries filePath true])
    | None => (Throw, t ++ [LoadEntries filePath false])
    end.

(** The [try] block of [processMetadataFile] (lines 70-127), for a batch
    size [cap]. *)
Definition fileBody (cap : nat) (filePath : string) (chain : Z)
    (content : option (list (string * Json))) : P FileResult :=
  bind (initializeChainTokenTable chain) (fun table =>
  bind (loadEntries filePath content) (fun entries =>
  bind (tokenLoop cap table entries [] 0) (fun '(tokenBatch, count) =>
  bind (if Nat.ltb 0 (List.length tokenBatch) then
          bind (insertTokenBatch tokenBatch table) (fun _ =>
          emit (Console (MsgInsertedFinal (List.length tokenBatch))))
        else ret tt) (fun _ =>
  bind (emit (Console (MsgCompleted filePath count))) (fun _ =>
  ret {| chainId := chain; tokenCount := count;
         tableName := Some table |}))))).

(** [processMetadataFile] (lines 64-135), for a batch size [cap]. *)
Definition processFileWith (cap : nat) (filePath : string) (chain : Z)
    (content : option (list (string * Json))) : P FileResult :=
  bind (emit (Console (MsgProcessing filePath chain))) (fun _ =>
  tryCatch
    (fileBody cap filePath chain content)
    (bind (emit (Console (MsgError filePath))) (fun _ =>
     ret {| chainId := chain; tokenCount := 0; tableName := None |}))).

Definition processMetadataFile : string -> Z ->
    option (list (string * Json)) -> P FileResult :=
  processFileWith 1000.

(** The rows of the entries that pass the validation, in order. *)
Definition validRows (entries : list (string * Json)) : list TokenRow :=
  flat_map (fun e => match rowOf (fst e) (snd e) with
                     | Some row => [row]
                     | None => []
                     end) entries.

(** No entry of the file is [null]. *)
Definition noNull (entries : list (string * Json)) : bool :=
  forallb (fun e => match snd e with JNull => false | _ => true end) entries.

(** *** The loop of [main] over the files (lines 152-177) *)

(** What [readFile], [JSON.parse] and [Object.entries] give for the file at
    a path; [None] when one of them throws. *)
Variable contents : string -> option (list (string * Json)).

(** The variables the loop updates. *)
Record Totals := {
  totalTokens : nat;
  processedFiles : nat;
  createdTables : list FileResult
}.

Definition initialTotals : Totals :=
  {| totalTokens := 0; processedFiles := 0; createdTables := [] |}.

(** [result.tableName] is truthy. *)
Definition hasTable (result : FileResult) : bool :=
  match tableName result with
  | Some s => negb (String.eqb s "")
  | None => false
  end.

(** One processed file (lines 165-176); [path.join(cacheDir, filename)] puts
    the name of the file after that of the directory and a separator. *)
Definition loadFile (filename : string) (chainId : Z) (st : Totals)
    : P Totals :=
  let filePath := (".cache/" ++ filename)%string in
  bind (processMetadataFile filePath chainId (contents filePath))
    (fun result =>
  let st' :=
    {| totalTokens := totalTokens st + tokenCount result;
       processedFiles := S (processedFiles st);
       createdTables :=
         if hasTable result then createdTables st ++ [result]
         else createdTables st |} in
  bind (emit (Console MsgBlank)) (fun _ => ret st')).

(** The [for] loop over the metadata files (lines 157-177); [!chainId]
    holds of [null] and of 0. *)
Fixpoint fileLoop (files : list string) (st : Totals) : P Totals :=
  match files with
  | [] => ret st
  | filename :: rest =>
      match extractChainId filename with
      | Some chainId =>
          if Z.eqb chainId 0 then
            bind (emit (Console (MsgNoChainId filename)))
              (fun _ => fileLoop rest st)
          else bind (loadFile filename chainId st) (fileLoop rest)
      | None =>
          bind (emit (Console (MsgNoChainId filename)))
            (fun _ => fileLoop rest st)
      end
  end.

(** The calls of [processMetadataFile] a trace records: the path and the
    chain identifier of each. *)
Fixpoint processed (t : list Event) : list (string * Z) :=
  match t with
  | Console (MsgProcessing filePath chain) :: r =>
      (filePath, chain) :: processed r
  | _ :: r => processed r
  | [] => []
  end.

(** The tokens the entries of [createdTables] report. *)
Definition tokensOf (tables : list FileResult) : nat :=
  list_sum (map tokenCount tables).

End Loader.

End Tokens.

(* ================================================================== *)
(** ** Notions used to state the properties *)

(** [Number.MAX_SAFE_INTEGER]: up to it every integer is a JavaScript
    number, so that [parseInt] and the conversion to a string are exact. *)
Definition MAX_SAFE_INTEGER : Z := 2 ^ 53 - 1.

(** A call of the loop, as the statements below describe it: the name of a
    file that satisfies [Q], its path in the cache directory and the positive
    chain identifier read from its name. *)
Definition fileCall (Q : string -> Prop) (pc : string * Z) : Prop :=
  exists filename,
    Q filename
    /\ fst pc = (".cache/" ++ filename)%string
    /\ Tokens.extractChainId filename = Some (snd pc)
    /\ 0 < snd pc.

(** An entry of [createdTables]: a positive chain identifier and the table
    of that chain. *)
Definition tableEntry (r : Tokens.FileResult) : Prop :=
  0 < Tokens.chainId r
  /\ Tokens.tableName r
     = Some ("token_metadata_" ++ JS.toString (Tokens.chainId r))%string.

(** The records a page contributes: one for each log that decodes, in the
    order of the page. *)
Definition pageRecords (blockNumber : Z) (blockTimestamp : string)
    (ls : list Log) : list TransferRecord :=
  flat_map (fun l => match decoded l with
                     | Some ev => [recordOf blockNumber blockTimestamp ev l]
                     | None => []
                     end) ls.

(** A log is well formed when it decodes, malformed when the decoder
    answers [null]. *)
Definition wellFormed (l : Log) : bool :=
  match decoded l with Some _ => true | None => false end.

Definition malformed (l : Log) : bool := negb (wellFormed l).

(** The sample printed for a page, if any. *)
Definition sampleTrace (sc : Scan) : Trace :=
  match scanSample sc with
  | Some r => [Console (MsgSample r)]
  | None => []
  end.

(** The scan of the logs of a page, started from the locals. *)
Definition scanOf (d : ResponseData) (bt : string) (ls : list Log)
    (st : Locals) : Scan :=
  processLogs (blockNumberOf d) bt ls
    {| scanValue := totalTransferValue st;
       scanBatch := transferBatch st;
       scanSample := None |}.

(** The logs of a page that the loop looks at: those of [res.data.logs] when
    both [res.data] and [res.data.logs] are there. *)
Definition logsOf (res : Response) : list Log :=
  match data res with
  | Some d => match logs d with Some ls => ls | None => [] end
  | None => []
  end.

(** The date of the page can be formatted: [toISOString] does not raise.
    A page without a log list formats no date. *)
Definition datable (res : Response) (now : Z) : bool :=
  match data res with
  | Some d =>
      match logs d with
      | Some _ =>
          match sqlDateTime (timeOf d now) with
          | Some _ => true
          | None => false
          end
      | None => true
      end
  | None => true
  end.

(** The records a page contributes to the buffer. *)
Definition recordsOf (res : Response) (now : Z) : list TransferRecord :=
  match data res with
  | Some d =>
      match logs d, sqlDateTime (timeOf d now) with
      | Some ls, Some bt => pageRecords (blockNumberOf d) bt ls
      | _, _ => []
      end
  | None => []
  end.

(** The records and the logs of a finite list of pages. *)
Definition streamRecords (pages : list (Response * Z)) : list TransferRecord :=
  flat_map (fun p => recordsOf (fst p) (snd p)) pages.

Definition allLogs (pages : list (Response * Z)) : list Log :=
  flat_map (fun p => logsOf (fst p)) pages.

Definition allDatable (pages : list (Response * Z)) : bool :=
  forallb (fun p => datable (fst p) (snd p)) pages.


(** A computation that only adds events at the end of the trace. *)
Definition appends {A} (m : M A) : Prop :=
  forall t, exists u, snd (m t) = t ++ u.

(** The chain identifiers of [CHAIN_CONFIG]. *)
Definition whitelist : list Z :=
  [1; 10; 56; 130; 137; 480; 1868; 7777777; 8453; 42161; 43114; 81457].

(** The sum of the values of the logs that decode. *)
Definition sumValues (ls : list Log) : Z :=
  fold_right (fun l a => match decoded l with
                         | Some ev => valueOf ev + a
                         | None => a
                         end) 0 ls.

(** The cursor after a list of pages, from the cursor [c]. *)
Definition cursorAfter (pages : list (Response * Z)) (c : Z) : Z :=
  fold_left (fun c p => if Z.eqb (nextBlock (fst p)) 0 then c
                        else nextBlock (fst p)) pages c.

(** The stream that delivers the given pages and then goes on as [s]. *)
Fixpoint prepend (pages : list (Response * Z)) (s : Stream) : Stream :=
  match pages with
  | (res, now) :: rest => Page res now (prepend rest s)
  | [] => s
  end.

(** A stream of the given pages after which [stream.recv()] rejects. *)
Definition brokenAfter (pages : list (Response * Z)) : Stream :=
  prepend pages Broken.

(** The three statements of the table setup and the opening of the stream
    all resolve (in a run, they are the commands 0, 1 and 2). *)
Definition setupOk (env : Env) : bool :=
  commandOk env 0 && commandOk env 1 && commandOk env 2 && streamOk env.

(** The name of the table of a chain, as [insertTransferBatch] passes it to
    the sink. *)
Definition sinkTable (chainId : Z) : string :=
  ("token_intelligence." ++ ("erc20_transfers_" ++ JS.toString chainId))%string.

(** An event that, if it is an insert, goes to the table [tbl] and carries
    at least one row. *)
Definition goodInsert (tbl : string) (e : Event) : Prop :=
  match e with
  | Insert tb vs _ => tb = tbl /\ vs <> []
  | _ => True
  end.

(** An event of the loop and of the final flush: a console message, a
    request for a page, or an insert of at least one row into [tbl]. *)
Definition loopEvent (tbl : string) (e : Event) : Prop :=
  match e with
  | Console _ => True
  | Recv => True
  | Insert tb vs _ => tb = tbl /\ vs <> []
  | _ => False
  end.

(** A computation that only adds events satisfying [good] at the end of the
    trace. *)
Definition emitsOnly {A} (good : Event -> Prop) (m : M A) : Prop :=
  forall t, exists u, snd (m t) = t ++ u /\ Forall good u.

(** The trace of a run up to the opening of the stream, when the table
    setup and the opening resolve. *)
Definition setupTrace (info : ChainInfo) (chainId : Z) : Trace :=
  let tb := ("erc20_transfers_" ++ JS.toString chainId)%string in
  [ Console (MsgCollecting (name info) chainId);
    Console MsgStarting;
    Console (MsgSettingUp tb);
    Command CreateDatabase true;
    Command (DropTable tb) true;
    Command (CreateTable tb) true;
    Console (MsgReady tb);
    OpenStream 0 true ].

(** The trace of a run in which a statement of the table setup, or the
    opening of the stream, is rejected. *)
Definition failedSetupTrace (env : Env) (info : ChainInfo) (chainId : Z)
    : Trace :=
  let tb := ("erc20_transfers_" ++ JS.toString chainId)%string in
  [ Console (MsgCollecting (name info) chainId);
    Console MsgStarting;
    Console (MsgSettingUp tb);
    Command CreateDatabase (commandOk env 0) ]
  ++ (if commandOk env 0 then
        Command (DropTable tb) (commandOk env 1)
        :: (if commandOk env 1 then
              Command (CreateTable tb) (commandOk env 2)
              :: (if commandOk env 2 then
                    [Console (MsgReady tb); OpenStream 0 false]
                  else [])
            else [])
      else [])
  ++ [Console MsgFatal; Exit 1].

(** The integer written by the decimal digits [d] after the digits that
    gave [a]. *)
Fixpoint valU (d : uint) (a : Z) : Z :=
  match d with
  | Nil => a
  | D0 l => valU l (a * 10 + 0)
  | D1 l => valU l (a * 10 + 1)
  | D2 l => valU l (a * 10 + 2)
  | D3 l => valU l (a * 10 + 3)
  | D4 l => valU l (a * 10 + 4)
  | D5 l => valU l (a * 10 + 5)
  | D6 l => valU l (a * 10 + 6)
  | D7 l => valU l (a * 10 + 7)
  | D8 l => valU l (a * 10 + 8)
  | D9 l => valU l (a * 10 + 9)
  end.

(** The number of calls of [stream.recv()] in the output of the scanner
    without a sink. *)
Definition legacyRecvs (out : list Legacy.Event) : nat :=
  List.length (filter (fun e => match e with
                                | Legacy.Recv => true
                                | _ => false
                                end) out).

(* ================================================================== *)
(** ** Sample inputs *)

(** Collaborators that never fail. *)
Definition quietEnv : Env :=
  {| commandOk := fun _ => true; streamOk := true;
     insertOk := fun _ => true; closeOk := true |}.

(** [String.prototype.toLowerCase] on the strings of ASCII characters. *)
Definition lowerAscii (c : ascii) : ascii :=
  let n := nat_of_ascii c in
  if (Nat.leb 65 n && Nat.leb n 90)%bool then ascii_of_nat (n + 32) else c.

Fixpoint toLowerAscii (s : string) : string :=
  match s with
  | String c r => String (lowerAscii c) (toLowerAscii r)
  | EmptyString => EmptyString
  end.

(** The entry of a token in a metadata file, under a checksummed address. *)
Definition tokenEntry (i : nat) : string * Tokens.Json Z :=
  (("0xAbC" ++ JS.toString (Z.of_nat i))%string,
   Tokens.JObj Z [("name", Tokens.JStr Z "Wrapped Ether");
                  ("symbol", Tokens.JStr Z "WETH");
                  ("decimals", Tokens.JNum Z 18)]).

(** The entries of a metadata file: an entry without a symbol, an entry
    whose decimals are a string, and 1001 tokens. *)
Definition sampleEntries : list (string * Tokens.Json Z) :=
  [("0xDeF1", Tokens.JObj Z [("name", Tokens.JStr Z "Nameless")]);
   ("0xDeF2", Tokens.JObj Z [("name", Tokens.JStr Z "Dai");
                             ("symbol", Tokens.JStr Z "DAI");
                             ("decimals", Tokens.JStr Z "18")])]
  ++ map tokenEntry (seq 0 1001).

(** A sink that rejects its first insert call and accepts the others. *)
Definition flakyEnv : Env :=
  {| commandOk := fun _ => true; streamOk := true;
     insertOk := fun k => negb (Nat.eqb k 0); closeOk := true |}.

(** A sink that rejects every insert. *)
Definition deafEnv : Env :=
  {| commandOk := fun _ => true; streamOk := true;
     insertOk := fun _ => false; closeOk := true |}.

(** A transfer of 5 units, with log index [idx], in block [blk]. *)
Definition transferLog (idx blk : Z) : Log :=
  {| address := Some "0xc0ffee"; logIndex := Some idx;
     transactionHash := Some "0xabc";
     decoded := Some {| indexed := ["0xa11ce"; "0xb0b"]; body := [5] |};
     inBlock := blk |}.

(** A log that does not decode. *)
Definition malformedLog : Log :=
  {| address := Some "0xc0ffee"; logIndex := Some 1000;
     transactionHash := Some "0xabc"; decoded := None; inBlock := 100 |}.

(** A decoded event with no slot at all, on a raw log with no field. *)
Definition bareLog : Log :=
  {| address := None; logIndex := None; transactionHash := None;
     decoded := Some {| indexed := []; body := [] |}; inBlock := 7 |}.

(** The value of the specification's example, [2^255 + 12345]. *)
Definition bigValueLog : Log :=
  {| address := Some "0xc0ffee"; logIndex := Some 3;
     transactionHash := Some "0xabc";
     decoded := Some {| indexed := ["0xa11ce"; "0xb0b"];
                        body := [2 ^ 255 + 12345] |};
     inBlock := 100 |}.

(** A page of block 100 with a transfer of 5 units and the transfer of
    [2^255 + 12345]. *)
Definition bigValuePage : Response :=
  {| data := Some
       {| logs := Some [transferLog 0 100; bigValueLog];
          blocks := Some [ {| number := Some 100;
                              timestamp := Some 1700000000 |} ] |};
     nextBlock := 101 |}.

(** A page of block 7 with a malformed log, the log without any field and a
    transfer. *)
Definition barePage : Response :=
  {| data := Some
       {| logs := Some [malformedLog; bareLog; transferLog 2 7];
          blocks := Some [ {| number := Some 7; timestamp := Some 7 |} ] |};
     nextBlock := 8 |}.


(** A page without data that reports [next] as the next block. *)
Definition emptyPage (next : Z) : Response :=
  {| data := None; nextBlock := next |}.

(** A source that reports 100, then 50, then 60. *)
Definition backwardStream : Stream :=
  Page (emptyPage 100) 0 (Page (emptyPage 50) 0 (Page (emptyPage 60) 0 Tip)).

(** A page of [n] transfers of block 100. *)
Definition transfersPage (n : nat) : Response :=
  {| data := Some
       {| logs := Some (map (fun i => transferLog (Z.of_nat i) 100) (seq 0 n));
          blocks := Some [ {| number := Some 100;
                              timestamp := Some 1700000000 |} ] |};
     nextBlock := 101 |}.

(** A page of 1000 transfers followed by one malformed log. *)
Definition mixedPage : Response :=
  {| data := Some
       {| logs := Some (map (fun i => transferLog (Z.of_nat i) 100) (seq 0 1000)
                        ++ [malformedLog]);
          blocks := Some [ {| number := Some 100;
                              timestamp := Some 1700000000 |} ] |};
     nextBlock := 101 |}.

(** The end-to-end scenario of the specification, at batch size 2: a page
    with two transfers and a malformed log, a page with one transfer. *)
Definition scenario : list (Response * Z) :=
  [ ({| data := Some
          {| logs := Some [transferLog 0 100; transferLog 1 100; malformedLog];
             blocks := Some [ {| number := Some 100;
                                 timestamp := Some 1700000000 |} ] |};
        nextBlock := 101 |}, 0);
    ({| data := Some
          {| logs := Some [transferLog 0 101];
             blocks := Some [ {| number := Some 101;
                                 timestamp := Some 1700000012 |} ] |};
        nextBlock := 102 |}, 0) ].

(* ================================================================== *)
(** ** Basic facts *)

(** *** Decimal strings *)

Lemma parseDecimal_toString (v : Z) : JS.parseDecimal (JS.toString v) = Some v.
Proof.
  unfold JS.parseDecimal, JS.toString.
  rewrite NilZero.isi.
  - simpl. now rewrite DecimalZ.of_to.
  - destruct v; simpl; try discriminate.
    intros [= H]. now apply DecimalPos.Unsigned.to_uint_nonnil in H.
  - destruct v; simpl; try discriminate.
    intros [= H]. now apply DecimalPos.Unsigned.to_uint_nonnil in H.
Qed.

Lemma toString_inj (v w : Z) : JS.toString v = JS.toString w -> v = w.
Proof.
  intros H.
  assert (E : Some v = Some w)
    by (rewrite <- (parseDecimal_toString v), <- (parseDecimal_toString w);
        now rewrite H).
  now injection E.
Qed.

(** *** Traces *)

Lemma inserts_app (t u : Trace) : inserts (t ++ u) = inserts t ++ inserts u.
Proof.
  induction t as [|e t IH]; simpl; [reflexivity|].
  destruct e; simpl; now rewrite IH.
Qed.

Lemma accepted_app (t u : Trace) : accepted (t ++ u) = accepted t ++ accepted u.
Proof.
  induction t as [|e t IH]; simpl; [reflexivity|].
  destruct e as [| | | |tb vs [|]| |]; simpl; now rewrite IH.
Qed.

Lemma countOf_app (p : Event -> bool) (t u : Trace) :
  countOf p (t ++ u) = (countOf p t + countOf p u)%nat.
Proof. unfold countOf. now rewrite filter_app, length_app. Qed.

(** *** The [for] loop over the logs of a page *)

Lemma processLogs_batch bn bt ls sc :
  scanBatch (processLogs bn bt ls sc) = scanBatch sc ++ pageRecords bn bt ls.
Proof.
  unfold processLogs. revert sc.
  induction ls as [|l ls IH]; intros sc; simpl.
  - now rewrite app_nil_r.
  - rewrite IH. unfold processLog.
    destruct (decoded l); simpl; [now rewrite <- app_assoc | reflexivity].
Qed.

Lemma pageRecords_length bn bt ls :
  List.length (pageRecords bn bt ls) = List.length (filter wellFormed ls).
Proof.
  induction ls as [|l ls IH]; simpl; [reflexivity|].
  unfold wellFormed at 1. destruct (decoded l); simpl; now rewrite IH.
Qed.

Lemma wellFormed_malformed_length (ls : list Log) :
  (List.length (filter wellFormed ls) + List.length (filter malformed ls))%nat
  = List.length ls.
Proof.
  induction ls as [|l ls IH]; simpl; [reflexivity|].
  unfold malformed at 1. destruct (wellFormed l); simpl; lia.
Qed.


(** *** The flush after a page *)

Section Steps.

Variable env : Env.
Variable cap : nat.
Variable tableName : string.

Let table : string := ("token_intelligence." ++ tableName)%string.

Lemma flushIfFull_below batch t :
  (List.length batch < cap)%nat ->
  flushIfFull env cap tableName batch t = (Ok batch, t).
Proof.
  intros H. unfold flushIfFull.
  destruct (Nat.leb_spec cap (List.length batch)); [lia | reflexivity].
Qed.

Lemma flushIfFull_resolved batch t :
  (cap <= List.length batch)%nat -> batch <> [] ->
  insertOk env (countOf isInsert t) = true ->
  flushIfFull env cap tableName batch t
  = (Ok [], t ++ [Insert table batch true;
                  Console (MsgInserted (List.length batch))]).
Proof.
  intros Hc Hn Hok. unfold flushIfFull.
  destruct (Nat.leb_spec cap (List.length batch)); [|lia].
  unfold tryCatch, bind, insertTransferBatch.
  destruct batch as [|r batch]; [congruence|].
  cbn [List.length Nat.eqb]. rewrite Hok. unfold emit, ret.
  now rewrite <- app_assoc.
Qed.

Lemma flushIfFull_rejected batch t :
  (cap <= List.length batch)%nat -> batch <> [] ->
  insertOk env (countOf isInsert t) = false ->
  flushIfFull env cap tableName batch t
  = (Ok batch, t ++ [Insert table batch false; Console MsgInsertError]).
Proof.
  intros Hc Hn Hok. unfold flushIfFull.
  destruct (Nat.leb_spec cap (List.length batch)); [|lia].
  unfold tryCatch, bind, insertTransferBatch.
  destruct batch as [|r batch]; [congruence|].
  cbn [List.length Nat.eqb]. rewrite Hok. unfold emit, ret.
  now rewrite <- app_assoc.
Qed.

(** The flush never raises: a rejected insert is caught. *)
Lemma flushIfFull_total batch t :
  exists batch' t', flushIfFull env cap tableName batch t = (Ok batch', t').
Proof.
  unfold flushIfFull.
  destruct (Nat.leb cap (List.length batch));
    [|unfold ret; eexists _, _; reflexivity].
  unfold tryCatch, bind, insertTransferBatch.
  destruct (Nat.eqb (List.length batch) 0); unfold ret, emit.
  - eexists _, _; reflexivity.
  - destruct (insertOk env (countOf isInsert t)); eexists _, _; reflexivity.
Qed.

(** *** One page *)

Lemma inserts_sampleTrace sc : inserts (sampleTrace sc) = [].
Proof. unfold sampleTrace. now destruct (scanSample sc). Qed.

Lemma accepted_sampleTrace sc : accepted (sampleTrace sc) = [].
Proof. unfold sampleTrace. now destruct (scanSample sc). Qed.


Lemma processData_logs res now st t d ls bt :
  data res = Some d -> logs d = Some ls ->
  sqlDateTime (timeOf d now) = Some bt ->
  processData env cap tableName res now st t
  = match flushIfFull env cap tableName (scanBatch (scanOf d bt ls st))
            (t ++ sampleTrace (scanOf d bt ls st)) with
    | (Ok batch, t') =>
        (Ok {| totalEvents := (totalEvents st + List.length ls)%nat;
               totalTransferValue := scanValue (scanOf d bt ls st);
               transferBatch := batch;
               fromBlock := fromBlock st |}, t')
    | (Throw, t') => (Throw, t')
    end.
Proof.
  intros Hd Hl Hbt. unfold processData. rewrite Hd, Hl, Hbt.
  unfold bind at 1. unfold orThrow, ret.
  fold (scanOf d bt ls st). unfold sampleTrace.
  destruct (scanSample (scanOf d bt ls st)); unfold bind, emit, ret;
    rewrite ?app_nil_r; reflexivity.
Qed.

Lemma processData_invalidDate res now st t d ls :
  data res = Some d -> logs d = Some ls ->
  sqlDateTime (timeOf d now) = None ->
  processData env cap tableName res now st t = (Throw, t).
Proof.
  intros Hd Hl Hbt. unfold processData. now rewrite Hd, Hl, Hbt.
Qed.

Lemma processData_noLogs res now st t :
  match data res with Some d => logs d | None => None end = None ->
  processData env cap tableName res now st t = (Ok st, t).
Proof.
  unfold processData. destruct (data res) as [d|]; [|reflexivity].
  now intros ->.
Qed.

(** The loop: unfolding on each kind of answer of [stream.recv()]. *)
Lemma streamLoop_Tip st t :
  streamLoop env cap tableName Tip st t = (Ok st, t ++ [Recv; Console MsgTip]).
Proof. cbn. unfold bind, emit, ret. now rewrite <- app_assoc. Qed.

Lemma streamLoop_Broken st t :
  streamLoop env cap tableName Broken st t = (Throw, t ++ [Recv]).
Proof. reflexivity. Qed.

Lemma streamLoop_Page res now rest st t :
  streamLoop env cap tableName (Page res now rest) st t
  = match onPage env cap tableName res now st (t ++ [Recv]) with
    | (Ok st', t') => streamLoop env cap tableName rest st' t'
    | (Throw, t') => (Throw, t')
    end.
Proof. reflexivity. Qed.

Lemma onPage_unfold res now st t :
  onPage env cap tableName res now st t
  = match processData env cap tableName res now st t with
    | (Ok st1, t1) =>
        (Ok (advance res st1),
         t1 ++ [Console (MsgProgress (nextBlock res) (totalEvents st1)
                           (List.length (transferBatch st1)))])
    | (Throw, t1) => (Throw, t1)
    end.
Proof.
  unfold onPage, bind. destruct (processData env cap tableName res now st t) as [[st1|] t1];
    reflexivity.
Qed.

End Steps.

(** *** Computations only extend the trace *)

Lemma appends_ret {A} (a : A) : appends (ret a).
Proof. intros t. exists []. simpl. now rewrite app_nil_r. Qed.

Lemma appends_throw {A} : appends (@throw A).
Proof. intros t. exists []. simpl. now rewrite app_nil_r. Qed.

Lemma appends_emit e : appends (emit e).
Proof. intros t. now exists [e]. Qed.

Lemma appends_bind {A B} (m : M A) (k : A -> M B) :
  appends m -> (forall a, appends (k a)) -> appends (bind m k).
Proof.
  intros Hm Hk t. unfold bind. destruct (Hm t) as [u Hu].
  destruct (m t) as [[a|] t1]; simpl in Hu; subst t1.
  - destruct (Hk a (t ++ u)) as [v Hv]. exists (u ++ v).
    now rewrite Hv, app_assoc.
  - now exists u.
Qed.

Lemma appends_tryCatch {A} (m h : M A) :
  appends m -> appends h -> appends (tryCatch m h).
Proof.
  intros Hm Hh t. unfold tryCatch. destruct (Hm t) as [u Hu].
  destruct (m t) as [[a|] t1]; simpl in Hu; subst t1.
  - now exists u.
  - destruct (Hh (t ++ u)) as [v Hv]. exists (u ++ v).
    now rewrite Hv, app_assoc.
Qed.

Lemma appends_orThrow {A} (x : option A) : appends (orThrow x).
Proof. destruct x; [apply appends_ret | apply appends_throw]. Qed.

Create HintDb appends.
#[local] Hint Resolve appends_ret appends_throw appends_emit appends_orThrow : appends.
#[local] Hint Extern 1 (appends (bind _ _)) =>
  apply appends_bind; [|intros ?] : appends.
#[local] Hint Extern 1 (appends (tryCatch _ _)) => apply appends_tryCatch : appends.

Lemma appends_command env q : appends (command env q).
Proof. intros t. now eexists [_]. Qed.

Lemma appends_openStream env from : appends (openStream env from).
Proof. intros t. now eexists [_]. Qed.

Lemma appends_close env : appends (close env).
Proof. intros t. now eexists [_]. Qed.

Lemma appends_insertTransferBatch env b tb : appends (insertTransferBatch env b tb).
Proof.
  unfold insertTransferBatch. destruct (Nat.eqb (List.length b) 0).
  - apply appends_ret.
  - intros t. now eexists [_].
Qed.

#[local] Hint Resolve appends_command appends_openStream appends_close
  appends_insertTransferBatch : appends.

Lemma appends_flushIfFull env cap tb b : appends (flushIfFull env cap tb b).
Proof.
  unfold flushIfFull. destruct (Nat.leb cap (List.length b)); auto 8 with appends.
Qed.

#[local] Hint Resolve appends_flushIfFull : appends.

Lemma appends_processData env cap tb res now st :
  appends (processData env cap tb res now st).
Proof.
  unfold processData.
  destruct (data res) as [d|]; [|auto with appends].
  destruct (logs d) as [ls|]; [|auto with appends].
  apply appends_bind; [auto with appends|intros bt].
  apply appends_bind; [|auto with appends].
  destruct (scanSample _); auto with appends.
Qed.

#[local] Hint Resolve appends_processData : appends.

Lemma appends_onPage env cap tb res now st :
  appends (onPage env cap tb res now st).
Proof. unfold onPage. auto 8 with appends. Qed.

#[local] Hint Resolve appends_onPage : appends.

Lemma appends_streamLoop env cap tb s :
  forall st, appends (streamLoop env cap tb s st).
Proof.
  induction s as [| |res now rest IH]; intros st; cbn [streamLoop];
    auto 8 with appends.
Qed.

#[local] Hint Resolve appends_streamLoop : appends.

Lemma appends_finalFlush env tb st : appends (finalFlush env tb st).
Proof.
  unfold finalFlush. destruct (Nat.ltb 0 _); auto 8 with appends.
Qed.

#[local] Hint Resolve appends_finalFlush : appends.

Lemma appends_ingest env cap tb s st : appends (ingest env cap tb s st).
Proof. unfold ingest. auto 8 with appends. Qed.

#[local] Hint Resolve appends_ingest : appends.

(** *** The start of [main] *)

Lemma mainWith_starts env cap id s t :
  exists u,
    snd (mainWith env cap id s t)
    = t ++ [Console MsgStarting;
            Console (MsgSettingUp ("erc20_transfers_" ++ JS.toString id)%string);
            Command CreateDatabase
              (commandOk env (countOf isCommand (t ++ [Console MsgStarting;
                 Console (MsgSettingUp
                            ("erc20_transfers_" ++ JS.toString id)%string)])))]
        ++ u.
Proof.
  unfold mainWith, initializeDatabase.
  set (tb := ("erc20_transfers_" ++ JS.toString id)%string).
  unfold bind at 1. unfold emit at 1.
  unfold bind at 1. unfold bind at 1. unfold emit at 1.
  unfold bind at 1. unfold command at 1.
  set (t2 := (t ++ [Console MsgStarting]) ++ [Console (MsgSettingUp tb)]).
  replace (t ++ [Console MsgStarting; Console (MsgSettingUp tb)]) with t2
    by (unfold t2; now rewrite <- app_assoc).
  destruct (commandOk env (countOf isCommand t2)) eqn:Hc.
  - match goal with
    | |- exists u, snd (match ?k ?w with _ => _ end) = _ =>
        assert (Hk : exists v, snd (k w) = w ++ v)
    end.
    { match goal with |- exists v, snd (?k ?w) = _ =>
        assert (Ha : appends k) by auto 12 with appends; apply Ha end. }
    destruct Hk as [v Hv].
    match type of Hv with snd ?x = _ => destruct x as [[tb'|] t3] end;
      simpl in Hv; subst t3.
    + match goal with
      | |- exists u, snd (?k ?w) = _ =>
          assert (Ha : appends k) by auto 12 with appends;
          destruct (Ha w) as [u Hu]
      end.
      exists (v ++ u). rewrite Hu. unfold t2.
      now rewrite <- !app_assoc.
    + exists v. simpl. unfold t2. now rewrite <- !app_assoc.
  - exists []. simpl. unfold t2. now rewrite <- !app_assoc.
Qed.

(* ================================================================== *)
(** ** Chain selection *)

Lemma whitelist_keys : map fst CHAIN_CONFIG = whitelist.
Proof. reflexivity. Qed.

Lemma lookupChain_None cfg id :
  lookupChain cfg id = None <-> ~ In id (map fst cfg).
Proof.
  induction cfg as [|[k info] cfg IH]; simpl.
  - tauto.
  - destruct (Z.eqb_spec k id).
    + split; [discriminate | intros H; exfalso; apply H; now left].
    + rewrite IH. tauto.
Qed.

Example availableChains_printed :
  availableChains
  = "1 (Ethereum), 10 (Optimism), 56 (BSC), 130 (Unichain), 137 (Polygon), 480 (World Chain), 1868 (Lightlink), 8453 (Base), 42161 (Arbitrum), 43114 (Avalanche), 81457 (Blast), 7777777 (Zora)"%string.
Proof. reflexivity. Qed.

Example CHAIN_ID_examples :
  map CHAIN_ID [None; Some "8453"; Some "0"; Some "abc"; Some "999";
                Some " 42161"; Some "1abc"; Some "-0"; Some ""]%string
  = [130; 8453; 130; 130; 999; 42161; 1; 130; 130].
Proof. reflexivity. Qed.

(** The trace of a run that passed the validation starts with the banner
    and the first steps of [main]: the table setup is under way. *)
Lemma program_proceeds env argv2 s info :
  lookupChain CHAIN_CONFIG (CHAIN_ID argv2) = Some info ->
  exists u,
    program env argv2 s
    = [Console (MsgCollecting (name info) (CHAIN_ID argv2));
       Console MsgStarting;
       Console (MsgSettingUp
                  ("erc20_transfers_" ++ JS.toString (CHAIN_ID argv2))%string);
       Command CreateDatabase (commandOk env 0)] ++ u.
Proof.
  intros Hl. unfold program. rewrite Hl.
  unfold bind, emit, main. cbn [app].
  destruct (mainWith_starts env BATCH_SIZE (CHAIN_ID argv2) s
              [Console (MsgCollecting (name info) (CHAIN_ID argv2))])
    as [u Hu].
  cbn [app countOf filter isCommand List.length] in Hu.
  destruct (mainWith env BATCH_SIZE (CHAIN_ID argv2) s _) as [[[]|] t];
    simpl in Hu; subst t.
  - now exists u.
  - exists (u ++ [Console MsgFatal; Exit 1]). cbn [app].
    now rewrite <- !app_comm_cons, <- ?app_assoc.
Qed.

(** C8, counterexample.  The arguments [0], [abc], the empty string, [1abc],
    [0x82] and [137.9] are not identifiers of the whitelist, yet with each of
    them the script passes the validation, sends its three setup statements,
    asks the stream for a page and ends with exit code 0: it has settled on
    the chains 130, 130, 130, 1, 130 and 137. *)
Lemma unlisted_arguments_proceed :
  map (fun a =>
         (existsb (String.eqb a) (map JS.toString whitelist),
          CHAIN_ID (Some a),
          exitCode (program quietEnv (Some a) Tip),
          countOf isCommand (program quietEnv (Some a) Tip),
          countOf isRecv (program quietEnv (Some a) Tip)))
      ["0"; "abc"; ""; "1abc"; "0x82"; "137.9"]%string
  = [(false, 130, 0, 3%nat, 1%nat); (false, 130, 0, 3%nat, 1%nat);
     (false, 130, 0, 3%nat, 1%nat); (false, 1, 0, 3%nat, 1%nat);
     (false, 130, 0, 3%nat, 1%nat); (false, 137, 0, 3%nat, 1%nat)].
Proof. vm_compute. reflexivity. Qed.

(** C8, as amended.  The validation is made on the chain identifier the
    script derives from the command line, [parseInt(argv[2]) || 130], not on
    the argument itself.  Whatever the command line, when that identifier is
    not a key of the whitelist the run consists of the error message, the
    printed whitelist and [process.exit(1)]: no table setup, no stream; when
    it is a key, the run goes on with the banner and the table setup of
    [main]. *)
Theorem chain_validation (env : Env) (argv2 : option string) (s : Stream) :
  match lookupChain CHAIN_CONFIG (CHAIN_ID argv2) with
  | None =>
      program env argv2 s
      = [Console (MsgUnsupported (CHAIN_ID argv2));
         Console (MsgAvailable availableChains);
         Exit 1]
      /\ exitCode (program env argv2 s) = 1
      /\ countOf isCommand (program env argv2 s) = 0%nat
      /\ countOf isRecv (program env argv2 s) = 0%nat
      /\ ~ In (CHAIN_ID argv2) whitelist
  | Some info =>
      In (CHAIN_ID argv2) whitelist
      /\ exists u,
           program env argv2 s
           = [Console (MsgCollecting (name info) (CHAIN_ID argv2));
              Console MsgStarting;
              Console (MsgSettingUp
                         ("erc20_transfers_"
                          ++ JS.toString (CHAIN_ID argv2))%string);
              Command CreateDatabase (commandOk env 0)] ++ u
  end.
Proof.
  destruct (lookupChain CHAIN_CONFIG (CHAIN_ID argv2)) as [info|] eqn:Hl.
  - split.
    + rewrite <- whitelist_keys.
      destruct (in_dec Z.eq_dec (CHAIN_ID argv2) (map fst CHAIN_CONFIG)) as [H|H];
        [exact H|].
      apply lookupChain_None in H. congruence.
    + now apply program_proceeds.
  - unfold program. rewrite Hl. repeat split.
    rewrite <- whitelist_keys. now apply lookupChain_None.
Qed.

(** C9. With no argument, or an argument that [parseInt] reads as NaN or as
    0, the chain identifier is 130 and the script runs as it does for the
    argument "130": it does not stop at the validation but goes on with
    Unichain. *)
Theorem default_chain (env : Env) (argv2 : option string) (s : Stream) :
  argv2 = None \/ JS.parseInt argv2 = None \/ JS.parseInt argv2 = Some 0 ->
  CHAIN_ID argv2 = 130
  /\ program env argv2 s = program env (Some "130"%string) s
  /\ exists u,
       program env argv2 s
       = [Console (MsgCollecting "Unichain" 130);
          Console MsgStarting;
          Console (MsgSettingUp "erc20_transfers_130");
          Command CreateDatabase (commandOk env 0)] ++ u.
Proof.
  intros H.
  assert (Hid : CHAIN_ID argv2 = 130).
  { unfold CHAIN_ID. destruct H as [->|[->| ->]]; reflexivity. }
  split; [exact Hid|].
  assert (Hp : program env argv2 s = program env (Some "130"%string) s).
  { unfold program. rewrite Hid. reflexivity. }
  split; [exact Hp|].
  rewrite Hp.
  destruct (program_proceeds env (Some "130"%string) s
              {| name := "Unichain"; hypersyncUrl := "http://130.hypersync.xyz" |}
              eq_refl) as [u Hu].
  exists u. exact Hu.
Qed.

Lemma default_chain_witness :
  CHAIN_ID (Some "0"%string) = 130
  /\ program quietEnv (Some "0"%string) Tip
     = program quietEnv (Some "130"%string) Tip
  /\ exists u,
       program quietEnv (Some "0"%string) Tip
       = [Console (MsgCollecting "Unichain" 130);
          Console MsgStarting;
          Console (MsgSettingUp "erc20_transfers_130");
          Command CreateDatabase (commandOk quietEnv 0)] ++ u.
Proof.
  apply (default_chain quietEnv (Some "0"%string) Tip).
  right. right. reflexivity.
Defined.

(* ================================================================== *)
(** ** What the flushes hand to the sink *)


Lemma finalFlush_trace env tb st t :
  finalFlush env tb st t
  = (Ok tt,
     t ++ match transferBatch st with
          | [] => []
          | _ :: _ =>
              let ok := insertOk env (countOf isInsert t) in
              [Insert ("token_intelligence." ++ tb)%string (transferBatch st) ok;
               Console (if ok
                        then MsgInsertedFinal (List.length (transferBatch st))
                        else MsgFinalInsertError)]
          end).
Proof.
  unfold finalFlush. destruct (transferBatch st) as [|r b] eqn:Hb.
  - cbn. unfold ret. now rewrite app_nil_r.
  - cbn [List.length Nat.ltb Nat.leb].
    unfold tryCatch, bind, insertTransferBatch. cbn [List.length Nat.eqb].
    destruct (insertOk env (countOf isInsert t)); unfold emit; cbn;
      now rewrite <- app_assoc.
Qed.

Lemma ingest_Page env cap tb res now rest st t :
  ingest env cap tb (Page res now rest) st t
  = match onPage env cap tb res now st (t ++ [Recv]) with
    | (Ok st', t') => ingest env cap tb rest st' t'
    | (Throw, t') => (Throw, t')
    end.
Proof.
  unfold ingest, bind at 1 3. rewrite streamLoop_Page.
  destruct (onPage env cap tb res now st (t ++ [Recv])) as [[st'|] t'];
    reflexivity.
Qed.

Lemma ingest_Tip env cap tb st t :
  ingest env cap tb Tip st t
  = (Ok st,
     (t ++ [Recv; Console MsgTip])
     ++ match transferBatch st with
        | [] => []
        | _ :: _ =>
            let ok := insertOk env (countOf isInsert (t ++ [Recv; Console MsgTip])) in
            [Insert ("token_intelligence." ++ tb)%string (transferBatch st) ok;
             Console (if ok
                      then MsgInsertedFinal (List.length (transferBatch st))
                      else MsgFinalInsertError)]
        end).
Proof.
  unfold ingest, bind. rewrite streamLoop_Tip, finalFlush_trace. reflexivity.
Qed.


(** C6. When [stream.recv()] answers [null] the loop ends without a further
    request; a non-empty buffer is then handed to the sink in exactly one
    insert call, whole, and an empty buffer causes no call. *)
Theorem graceful_drain (env : Env) (cap : nat) (tb : string) (st : Locals)
    (t : Trace) :
  fst (ingest env cap tb Tip st t) = Ok st
  /\ countOf isRecv (snd (ingest env cap tb Tip st t))
     = S (countOf isRecv t)
  /\ match transferBatch st with
     | [] => snd (ingest env cap tb Tip st t) = t ++ [Recv; Console MsgTip]
     | _ :: _ =>
         inserts (snd (ingest env cap tb Tip st t))
         = inserts t ++ [transferBatch st]
         /\ exists ok,
              snd (ingest env cap tb Tip st t)
              = t ++ [Recv; Console MsgTip;
                      Insert ("token_intelligence." ++ tb)%string
                        (transferBatch st) ok;
                      Console (if ok
                               then MsgInsertedFinal
                                      (List.length (transferBatch st))
                               else MsgFinalInsertError)]
     end.
Proof.
  rewrite ingest_Tip. cbn [fst snd].
  split; [reflexivity|].
  destruct (transferBatch st) as [|r b].
  - rewrite app_nil_r. split; [|reflexivity].
    rewrite countOf_app. cbn. lia.
  - split; [|split].
    + rewrite !countOf_app. cbn. lia.
    + rewrite !inserts_app. cbn. now rewrite app_nil_r.
    + eexists. rewrite <- app_assoc. reflexivity.
Qed.

(* ================================================================== *)
(** ** One turn of the loop *)

Lemma recordsOf_length res now :
  datable res now = true ->
  List.length (recordsOf res now) = List.length (filter wellFormed (logsOf res)).
Proof.
  unfold datable, recordsOf, logsOf.
  destruct (data res) as [d|]; [|reflexivity].
  destruct (logs d) as [ls|]; [|reflexivity].
  destruct (sqlDateTime (timeOf d now)); [|discriminate].
  intros _. apply pageRecords_length.
Qed.

(** A page turn on a page with a log list. *)
Lemma onPage_logs env cap tb res now st t d ls bt :
  data res = Some d -> logs d = Some ls ->
  sqlDateTime (timeOf d now) = Some bt ->
  onPage env cap tb res now st t
  = match flushIfFull env cap tb
            (transferBatch st ++ pageRecords (blockNumberOf d) bt ls)
            (t ++ sampleTrace (scanOf d bt ls st)) with
    | (Ok batch, t') =>
        (Ok (advance res
               {| totalEvents := (totalEvents st + List.length ls)%nat;
                  totalTransferValue := scanValue (scanOf d bt ls st);
                  transferBatch := batch;
                  fromBlock := fromBlock st |}),
         t' ++ [Console (MsgProgress (nextBlock res)
                           (totalEvents st + List.length ls)
                           (List.length batch))])
    | (Throw, t') => (Throw, t')
    end.
Proof.
  intros Hd Hl Hbt. rewrite onPage_unfold.
  rewrite (processData_logs env cap tb res now st t d ls bt Hd Hl Hbt).
  unfold scanOf at 1. rewrite processLogs_batch. cbn [scanBatch].
  destruct (flushIfFull env cap tb _ _) as [[batch|] t']; reflexivity.
Qed.

(** A page turn on a page without a log list. *)
Lemma onPage_noLogs env cap tb res now st t :
  match data res with Some d => logs d | None => None end = None ->
  onPage env cap tb res now st t
  = (Ok (advance res st),
     t ++ [Console (MsgProgress (nextBlock res) (totalEvents st)
                      (List.length (transferBatch st)))]).
Proof.
  intros H. rewrite onPage_unfold.
  now rewrite (processData_noLogs env cap tb res now st t H).
Qed.

(** A page whose date cannot be formatted ends the run. *)
Lemma onPage_invalidDate env cap tb res now st t :
  datable res now = false ->
  onPage env cap tb res now st t = (Throw, t).
Proof.
  unfold datable. intros H. rewrite onPage_unfold.
  destruct (data res) as [d|] eqn:Hd; [|discriminate].
  destruct (logs d) as [ls|] eqn:Hl; [|discriminate].
  destruct (sqlDateTime (timeOf d now)) eqn:Hbt; [discriminate|].
  now rewrite (processData_invalidDate env cap tb res now st t d ls Hd Hl Hbt).
Qed.

(** The three shapes of a page. *)
Lemma page_cases res now :
  datable res now = true ->
  (match data res with Some d => logs d | None => None end = None
   /\ recordsOf res now = [] /\ logsOf res = [])
  \/ (exists d ls bt,
        data res = Some d /\ logs d = Some ls
        /\ sqlDateTime (timeOf d now) = Some bt
        /\ recordsOf res now = pageRecords (blockNumberOf d) bt ls
        /\ logsOf res = ls).
Proof.
  unfold datable, recordsOf, logsOf.
  destruct (data res) as [d|]; [|left; repeat split].
  destruct (logs d) as [ls|] eqn:Hl; [|left; repeat split].
  destruct (sqlDateTime (timeOf d now)) as [bt|] eqn:Hbt; [|discriminate].
  intros _. right. exists d, ls, bt. repeat split; assumption.
Qed.

(** The loop asks for a page before anything else. *)
Lemma streamLoop_requests env cap tb s st t :
  exists u, snd (streamLoop env cap tb s st t) = t ++ Recv :: u.
Proof.
  destruct s as [| |res now rest].
  - rewrite streamLoop_Tip. now eexists.
  - rewrite streamLoop_Broken. now eexists.
  - rewrite streamLoop_Page.
    destruct (appends_onPage env cap tb res now st (t ++ [Recv])) as [u Hu].
    destruct (onPage env cap tb res now st (t ++ [Recv])) as [[st'|] t'];
      simpl in Hu; subst t'.
    + destruct (appends_streamLoop env cap tb rest st' ((t ++ [Recv]) ++ u))
        as [v Hv].
      exists (u ++ v). rewrite Hv. now rewrite <- !app_assoc.
    + exists u. simpl. now rewrite <- app_assoc.
Qed.

(* ================================================================== *)
(** ** Block attribution *)




(* ================================================================== *)
(** ** The cursor *)

(** C2, counterexample.  After the page that reports 100 the cursor is 100;
    the next page reports 50 and the cursor becomes 50.  Nothing is raised:
    the third page is requested and processed, the cursor ends at 60 and the
    script exits with code 0 after four calls of [recv]. *)
Lemma cursor_moves_backwards :
  exists st1 t1 st2 t2 st3 t3,
    onPage quietEnv BATCH_SIZE "erc20_transfers_130" (emptyPage 100) 0
      initialLocals [Recv] = (Ok st1, t1)
    /\ fromBlock st1 = 100
    /\ onPage quietEnv BATCH_SIZE "erc20_transfers_130" (emptyPage 50) 0
         st1 (t1 ++ [Recv]) = (Ok st2, t2)
    /\ fromBlock st2 = 50
    /\ fromBlock st2 < fromBlock st1
    /\ streamLoop quietEnv BATCH_SIZE "erc20_transfers_130" backwardStream
         initialLocals [] = (Ok st3, t3)
    /\ fromBlock st3 = 60
    /\ countOf isRecv t3 = 4%nat
    /\ countOf isRecv (program quietEnv None backwardStream) = 4%nat
    /\ exitCode (program quietEnv None backwardStream) = 0.
Proof.
  do 6 eexists. vm_compute. repeat split; reflexivity.
Qed.

(** C2, as amended.  After a page the cursor is the position the page
    reports when that is not 0, and is unchanged when it is 0; no comparison
    with the previous value is made.  So the cursor does not decrease when
    the reported position is 0 or at least the cursor, it decreases when the
    source reports a lower non-zero position, and in either case the loop
    goes on to request the next page. *)
Theorem cursor_follows_source (env : Env) (cap : nat) (tb : string)
    (res : Response) (now : Z) (rest : Stream) (st : Locals) (t : Trace) :
  datable res now = true ->
  exists st' t',
    onPage env cap tb res now st (t ++ [Recv]) = (Ok st', t')
    /\ fromBlock st'
       = (if Z.eqb (nextBlock res) 0 then fromBlock st else nextBlock res)
    /\ (nextBlock res = 0 \/ fromBlock st <= nextBlock res ->
        fromBlock st <= fromBlock st')
    /\ (nextBlock res <> 0 -> nextBlock res < fromBlock st ->
        fromBlock st' < fromBlock st)
    /\ streamLoop env cap tb (Page res now rest) st t
       = streamLoop env cap tb rest st' t'
    /\ exists u, snd (streamLoop env cap tb (Page res now rest) st t)
                 = t' ++ Recv :: u.
Proof.
  intros Hdate.
  assert (H : exists st' t',
             onPage env cap tb res now st (t ++ [Recv]) = (Ok st', t')
             /\ fromBlock st'
                = (if Z.eqb (nextBlock res) 0 then fromBlock st
                   else nextBlock res)).
  { destruct (page_cases res now Hdate)
      as [(Hn & _) | (d & ls & bt & Hd & Hl & Hbt & _)].
    - rewrite (onPage_noLogs env cap tb res now st _ Hn).
      eexists _, _. split; reflexivity.
    - rewrite (onPage_logs env cap tb res now st _ d ls bt Hd Hl Hbt).
      destruct (flushIfFull_total env cap tb
                  (transferBatch st ++ pageRecords (blockNumberOf d) bt ls)
                  ((t ++ [Recv]) ++ sampleTrace (scanOf d bt ls st)))
        as (b & t1 & ->).
      eexists _, _. split; reflexivity. }
  destruct H as (st' & t' & Hp & Hc).
  exists st', t'. split; [exact Hp|]. split; [exact Hc|].
  split; [|split; [|split]].
  - rewrite Hc. destruct (Z.eqb_spec (nextBlock res) 0); lia.
  - rewrite Hc. destruct (Z.eqb_spec (nextBlock res) 0); lia.
  - rewrite streamLoop_Page, Hp. reflexivity.
  - rewrite streamLoop_Page, Hp. apply streamLoop_requests.
Qed.

Lemma cursor_follows_source_witness :
  exists st' t',
    onPage quietEnv BATCH_SIZE "erc20_transfers_130" (emptyPage 50) 0
      {| totalEvents := 0; totalTransferValue := 0; transferBatch := [];
         fromBlock := 100 |} ([] ++ [Recv]) = (Ok st', t')
    /\ fromBlock st' = 50.
Proof.
  destruct (cursor_follows_source quietEnv BATCH_SIZE "erc20_transfers_130"
              (emptyPage 50) 0 Tip
              {| totalEvents := 0; totalTransferValue := 0;
                 transferBatch := []; fromBlock := 100 |} [] eq_refl)
    as (st' & t' & H1 & H2 & _).
  exists st', t'. split; [exact H1 | exact H2].
Defined.

(* ================================================================== *)
(** ** A rejected insert *)





(* ================================================================== *)
(** ** Runs against a sink that accepts every insert *)

Lemma flushIfFull_empty env tb t :
  flushIfFull env 0 tb [] t = (Ok [], t ++ [Console (MsgInserted 0)]).
Proof. reflexivity. Qed.

Section Resolved.

Variable env : Env.
Variable cap : nat.
Variable tb : string.
Hypothesis sink_accepts : forall k, insertOk env k = true.

(** One page turn: the flush, if any, empties the buffer into the sink. *)
Lemma onPage_resolved res now st t :
  datable res now = true ->
  exists st1 t1 fl,
    onPage env cap tb res now st t = (Ok st1, t1)
    /\ inserts t1 = inserts t ++ fl
    /\ accepted t1 = accepted t ++ fl
    /\ Forall (fun b => (cap <= List.length b)%nat) fl
    /\ List.concat fl ++ transferBatch st1 = transferBatch st ++ recordsOf res now
    /\ totalEvents st1 = (totalEvents st + List.length (logsOf res))%nat
    /\ ((0 < cap)%nat -> (List.length (transferBatch st) < cap)%nat ->
        (List.length (transferBatch st1) < cap)%nat).
Proof.
  intros Hdate.
  destruct (page_cases res now Hdate)
    as [(Hn & Hr & Hlogs) | (d & ls & bt & Hd & Hl & Hbt & Hr & Hlogs)].
  - rewrite (onPage_noLogs env cap tb res now st t Hn).
    eexists _, _, []. split; [reflexivity|].
    rewrite inserts_app, accepted_app, Hr, Hlogs. cbn.
    rewrite !app_nil_r, Nat.add_0_r. repeat split; auto.
  - rewrite (onPage_logs env cap tb res now st t d ls bt Hd Hl Hbt).
    rewrite Hr, Hlogs.
    set (B := transferBatch st ++ pageRecords (blockNumberOf d) bt ls).
    destruct (Nat.le_gt_cases cap (List.length B)) as [Hfull|Hbelow].
    + destruct B as [|r B'] eqn:HB.
      * assert (cap = 0%nat) by (cbn in Hfull; lia). subst cap.
        rewrite flushIfFull_empty.
        eexists _, _, []. split; [reflexivity|].
        rewrite !inserts_app, !accepted_app, inserts_sampleTrace,
          accepted_sampleTrace.
        cbn. rewrite !app_nil_r. repeat split; auto.
      * rewrite <- HB in *.
        rewrite (flushIfFull_resolved env cap tb B _ Hfull)
          by (rewrite ?HB; auto; discriminate).
        eexists _, _, [B]. split; [reflexivity|].
        rewrite !inserts_app, !accepted_app, inserts_sampleTrace,
          accepted_sampleTrace.
        cbn. rewrite !app_nil_r. repeat split; auto.
    + rewrite (flushIfFull_below env cap tb B _ Hbelow).
      eexists _, _, []. split; [reflexivity|].
      rewrite !inserts_app, !accepted_app, inserts_sampleTrace,
        accepted_sampleTrace.
      cbn. rewrite !app_nil_r. repeat split; auto.
Qed.

(** The loop over a finite list of pages. *)
Lemma streamLoop_resolved pages :
  allDatable pages = true ->
  forall st t,
  exists st' t' mid,
    streamLoop env cap tb (streamOf pages) st t = (Ok st', t')
    /\ inserts t' = inserts t ++ mid
    /\ accepted t' = accepted t ++ mid
    /\ Forall (fun b => (cap <= List.length b)%nat) mid
    /\ List.concat mid ++ transferBatch st' = transferBatch st ++ streamRecords pages
    /\ totalEvents st' = (totalEvents st + List.length (allLogs pages))%nat
    /\ ((0 < cap)%nat -> (List.length (transferBatch st) < cap)%nat ->
        (List.length (transferBatch st') < cap)%nat).
Proof.
  induction pages as [|[res now] pages IH]; intros Hd st t.
  - cbn [streamOf]. rewrite streamLoop_Tip.
    exists st, (t ++ [Recv; Console MsgTip]), [].
    rewrite inserts_app, accepted_app. cbn.
    rewrite !app_nil_r, Nat.add_0_r. repeat split; auto.
  - cbn [allDatable forallb fst snd] in Hd.
    apply andb_true_iff in Hd. destruct Hd as [Hd1 Hd2].
    cbn [streamOf]. rewrite streamLoop_Page.
    destruct (onPage_resolved res now st (t ++ [Recv]) Hd1)
      as (st1 & t1 & fl & Hp & Hi & Ha & Hf & Hc & He & Hb).
    rewrite Hp.
    destruct (IH Hd2 st1 t1)
      as (st' & t' & mid & Hl & Hi' & Ha' & Hf' & Hc' & He' & Hb').
    exists st', t', (fl ++ mid). split; [exact Hl|].
    rewrite inserts_app in Hi. rewrite accepted_app in Ha.
    cbn in Hi, Ha. rewrite app_nil_r in Hi, Ha.
    split; [rewrite Hi', Hi; now rewrite <- app_assoc|].
    split; [rewrite Ha', Ha; now rewrite <- app_assoc|].
    split; [now apply Forall_app|].
    split.
    { rewrite concat_app, <- app_assoc, Hc'.
      unfold streamRecords. cbn [flat_map fst snd].
      rewrite !app_assoc. f_equal. exact Hc. }
    split.
    { rewrite He', He. unfold allLogs. cbn [flat_map fst].
      rewrite length_app. lia. }
    auto.
Qed.

(** The loop followed by the final flush. *)
Lemma ingest_resolved pages :
  allDatable pages = true ->
  forall st t,
  exists st' t' mid,
    ingest env cap tb (streamOf pages) st t = (Ok st', t')
    /\ inserts t' = inserts t ++ mid
                    ++ match transferBatch st' with
                       | [] => []
                       | _ :: _ => [transferBatch st']
                       end
    /\ accepted t' = accepted t ++ mid
                     ++ match transferBatch st' with
                        | [] => []
                        | _ :: _ => [transferBatch st']
                        end
    /\ Forall (fun b => (cap <= List.length b)%nat) mid
    /\ List.concat mid ++ transferBatch st' = transferBatch st ++ streamRecords pages
    /\ totalEvents st' = (totalEvents st + List.length (allLogs pages))%nat
    /\ ((0 < cap)%nat -> (List.length (transferBatch st) < cap)%nat ->
        (List.length (transferBatch st') < cap)%nat).
Proof.
  intros Hd st t.
  destruct (streamLoop_resolved pages Hd st t)
    as (st' & t' & mid & Hl & Hi & Ha & Hf & Hc & He & Hb).
  unfold ingest, bind. rewrite Hl, finalFlush_trace. unfold ret.
  eexists st', _, mid. split; [reflexivity|].
  rewrite inserts_app, accepted_app, Hi, Ha, <- !app_assoc.
  rewrite sink_accepts.
  destruct (transferBatch st') as [|r b]; cbn; repeat split; auto.
Qed.

End Resolved.

(* ================================================================== *)
(** ** Completeness *)

(** C3, counterexample.  A stream of N = 1000 well-formed logs and M = 1
    malformed log, against a sink that rejects its inserts: the sink is
    handed 2000 rows in two calls and accepts none, so it does not receive
    exactly N rows; and the only counter of logs the loop keeps,
    [totalEvents], ends at N + M = 1001, not at M. *)
Lemma rows_and_counter_differ :
  List.length (filter wellFormed (logsOf mixedPage)) = 1000%nat
  /\ List.length (filter malformed (logsOf mixedPage)) = 1%nat
  /\ match ingest deafEnv BATCH_SIZE "erc20_transfers_130"
             (Page mixedPage 0 Tip) initialLocals [] with
     | (Ok st', t') =>
         map (@List.length TransferRecord) (inserts t') = [1000%nat; 1000%nat]
         /\ accepted t' = []
         /\ totalEvents st' = 1001%nat
     | (Throw, _) => False
     end
  /\ existsb (fun e => match e with
                       | Console (MsgScanComplete 1001) => true
                       | _ => false
                       end)
       (program deafEnv None (Page mixedPage 0 Tip)) = true.
Proof.
  vm_compute. repeat split.
Qed.

(** The run against an accepting sink, from the initial locals. *)
Lemma accepting_sink_run (env : Env) (cap : nat) (tb : string)
    (pages : list (Response * Z)) :
  (forall k, insertOk env k = true) ->
  allDatable pages = true ->
  exists st' t' mid,
    ingest env cap tb (streamOf pages) initialLocals [] = (Ok st', t')
    /\ inserts t' = mid ++ match transferBatch st' with
                           | [] => []
                           | _ :: _ => [transferBatch st']
                           end
    /\ Forall (fun b => (cap <= List.length b)%nat) mid
    /\ ((0 < cap)%nat -> (List.length (transferBatch st') < cap)%nat)
    /\ List.length (List.concat (inserts t'))
       = List.length (filter wellFormed (allLogs pages)).
Proof.
  intros Hok Hd.
  destruct (ingest_resolved env cap tb Hok pages Hd initialLocals [])
    as (st' & t' & mid & Hl & Hi & _ & Hf & Hc & _ & Hb).
  simpl in Hi, Hc.
  exists st', t', mid. split; [exact Hl|]. split; [exact Hi|].
  split; [exact Hf|]. split; [intros H; apply Hb; [exact H | cbn; lia]|].
  assert (Hrows : List.concat (inserts t') = streamRecords pages).
  { rewrite Hi, concat_app, <- Hc. f_equal.
    destruct (transferBatch st'); cbn; now rewrite ?app_nil_r. }
  rewrite Hrows. clear - Hd. unfold streamRecords, allLogs.
  induction pages as [|[res now] pages IH]; [reflexivity|].
  cbn [allDatable forallb fst snd] in Hd.
  apply andb_true_iff in Hd. destruct Hd as [Hd1 Hd2].
  cbn [flat_map fst snd].
  rewrite filter_app, !length_app, (IH Hd2), (recordsOf_length _ _ Hd1).
  reflexivity.
Qed.

(** C3, as amended.  For a stream of pages whose dates can be formatted,
    with N well-formed and M malformed logs, against a sink that accepts
    every insert: the run reaches its end, the sink receives exactly the
    records of the well-formed logs, in stream order, N rows in total;
    malformed logs are passed over; the loop keeps no skip counter, its
    counter [totalEvents] ends at N + M. *)
Theorem completeness_modulo_skips (env : Env) (cap : nat) (tb : string)
    (pages : list (Response * Z)) :
  (forall k, insertOk env k = true) ->
  allDatable pages = true ->
  exists st' t',
    ingest env cap tb (streamOf pages) initialLocals [] = (Ok st', t')
    /\ List.concat (inserts t') = streamRecords pages
    /\ accepted t' = inserts t'
    /\ List.length (List.concat (inserts t'))
       = List.length (filter wellFormed (allLogs pages))
    /\ totalEvents st'
       = (List.length (filter wellFormed (allLogs pages))
          + List.length (filter malformed (allLogs pages)))%nat.
Proof.
  intros Hok Hd.
  destruct (ingest_resolved env cap tb Hok pages Hd initialLocals [])
    as (st' & t' & mid & Hl & Hi & Ha & _ & Hc & He & _).
  simpl in Hi, Ha, Hc, He.
  assert (Hrows : List.concat (inserts t') = streamRecords pages).
  { rewrite Hi, concat_app, <- Hc. f_equal.
    destruct (transferBatch st'); cbn; now rewrite ?app_nil_r. }
  assert (Hlen : List.length (streamRecords pages)
                 = List.length (filter wellFormed (allLogs pages))).
  { clear - Hd. unfold streamRecords, allLogs.
    induction pages as [|[res now] pages IH]; [reflexivity|].
    cbn [allDatable forallb fst snd] in Hd.
    apply andb_true_iff in Hd. destruct Hd as [Hd1 Hd2].
    cbn [flat_map fst snd].
    rewrite filter_app, !length_app, (IH Hd2), (recordsOf_length _ _ Hd1).
    reflexivity. }
  exists st', t'. split; [exact Hl|].
  split; [exact Hrows|].
  split; [now rewrite Ha, Hi|].
  split; [now rewrite Hrows|].
  rewrite He, wellFormed_malformed_length. reflexivity.
Qed.

Lemma completeness_modulo_skips_witness :
  exists st' t',
    ingest quietEnv 2 "erc20_transfers_130" (streamOf scenario)
      initialLocals [] = (Ok st', t')
    /\ List.length (List.concat (inserts t')) = 3%nat
    /\ totalEvents st' = 4%nat.
Proof.
  destruct (completeness_modulo_skips quietEnv 2 "erc20_transfers_130"
              scenario (fun _ => eq_refl) eq_refl)
    as (st' & t' & H1 & _ & _ & H4 & H5).
  exists st', t'. split; [exact H1|]. split; [exact H4 | exact H5].
Defined.

Example scenario_run :
  match ingest quietEnv 2 "erc20_transfers_130" (streamOf scenario)
          initialLocals [] with
  | (Ok st', t') =>
      map (@List.length TransferRecord) (inserts t') = [2%nat; 1%nat]
      /\ fromBlock st' = 102
      /\ totalEvents st' = 4%nat
  | (Throw, _) => False
  end.
Proof. vm_compute. repeat split. Qed.

(* ================================================================== *)
(** ** Batch sizes *)

(** C4, counterexample.  With the batch size 1000 of the script, a page of
    1500 well-formed logs is handed to the sink in one insert call of 1500
    rows, where two calls of 1000 and 500 rows are claimed; the buffer held
    1500 records before that flush. *)
Lemma one_call_for_a_large_page :
  BATCH_SIZE = 1000%nat
  /\ List.length (filter wellFormed (logsOf (transfersPage 1500))) = 1500%nat
  /\ ((1500 + BATCH_SIZE - 1) / BATCH_SIZE)%nat = 2%nat
  /\ map (@List.length TransferRecord)
       (inserts (program quietEnv None (Page (transfersPage 1500) 0 Tip)))
     = [1500%nat]
  /\ List.length
       (scanBatch
          (processLogs 100 "2023-11-14 22:13:20" (logsOf (transfersPage 1500))
             {| scanValue := 0; scanBatch := []; scanSample := None |}))
     = 1500%nat.
Proof.
  vm_compute. repeat split.
Qed.

Lemma concat_length_lower (cap : nat) (mid : list (list TransferRecord)) :
  Forall (fun b => (cap <= List.length b)%nat) mid ->
  (List.length mid * cap <= List.length (List.concat mid))%nat.
Proof.
  induction 1 as [|b mid Hb _ IH]; cbn; [lia|].
  rewrite length_app. lia.
Qed.

(** C4, as amended.  With batch capacity C > 0, a stream of pages with K
    well-formed logs and a sink that accepts every insert: the buffer is
    checked once per page, after the page's records are appended, and is
    handed over whole.  So every insert call made inside the loop has at
    least C rows, the final call (made only when rows remain) has fewer than
    C, the sizes add up to K, and there are at most ceil(K/C) calls.  After each
    page turn the buffer holds fewer than C records; during a page it may
    hold more. *)
Theorem batch_sizing (env : Env) (cap : nat) (tb : string)
    (pages : list (Response * Z)) :
  (0 < cap)%nat ->
  (forall k, insertOk env k = true) ->
  allDatable pages = true ->
  (exists st' t' mid,
     ingest env cap tb (streamOf pages) initialLocals [] = (Ok st', t')
     /\ inserts t' = mid ++ match transferBatch st' with
                            | [] => []
                            | _ :: _ => [transferBatch st']
                            end
     /\ Forall (fun b => (cap <= List.length b)%nat) mid
     /\ (List.length (transferBatch st') < cap)%nat
     /\ List.length (List.concat (inserts t'))
        = List.length (filter wellFormed (allLogs pages))
     /\ (List.length (inserts t')
         <= (List.length (filter wellFormed (allLogs pages)) + cap - 1) / cap)%nat)
  /\ (forall res now st t,
        datable res now = true ->
        (List.length (transferBatch st) < cap)%nat ->
        exists st1 t1,
          onPage env cap tb res now st t = (Ok st1, t1)
          /\ (List.length (transferBatch st1) < cap)%nat).
Proof.
  intros Hcap Hok Hd. split.
  - destruct (accepting_sink_run env cap tb pages Hok Hd)
      as (st' & t' & mid & Hl & Hi & Hf & Hb & Hk).
    exists st', t', mid. split; [exact Hl|]. split; [exact Hi|].
    split; [exact Hf|]. split; [apply Hb; exact Hcap|]. split; [exact Hk|].
    pose proof (concat_length_lower cap mid Hf) as Hm.
    rewrite Hi, concat_app, length_app in Hk.
    rewrite Hi, length_app.
    apply Nat.div_le_lower_bound; [lia|].
    specialize (Hb Hcap).
    destruct (transferBatch st') as [|r b]; cbn [List.length List.concat app] in *.
    + nia.
    + rewrite app_nil_r in Hk. cbn [List.length] in Hk. nia.
  - intros res now st t Hdate Hlt.
    destruct (onPage_resolved env cap tb Hok res now st t Hdate)
      as (st1 & t1 & fl & Hp & _ & _ & _ & _ & _ & Hb).
    exists st1, t1. split; [exact Hp | auto].
Qed.

Lemma batch_sizing_witness :
  exists st' t' mid,
    ingest quietEnv 2 "erc20_transfers_130" (streamOf scenario)
      initialLocals [] = (Ok st', t')
    /\ inserts t' = mid ++ match transferBatch st' with
                           | [] => []
                           | _ :: _ => [transferBatch st']
                           end
    /\ Forall (fun b => (2 <= List.length b)%nat) mid
    /\ (List.length (inserts t') <= 2)%nat.
Proof.
  destruct (batch_sizing quietEnv 2 "erc20_transfers_130" scenario
              ltac:(lia) (fun _ => eq_refl) eq_refl)
    as ((st' & t' & mid & H1 & H2 & H3 & _ & _ & H6) & _).
  exists st', t', mid. split; [exact H1|]. split; [exact H2|].
  split; [exact H3 | exact H6].
Defined.

(* ================================================================== *)
(** ** Runs against any sink *)

Lemma processLogs_value bn bt ls sc :
  scanValue (processLogs bn bt ls sc) = scanValue sc + sumValues ls.
Proof.
  unfold processLogs. revert sc.
  induction ls as [|l ls IH]; intros sc; simpl; [lia|].
  rewrite IH. unfold processLog.
  destruct (decoded l); cbn [scanValue]; lia.
Qed.

Lemma countOf_isRecv_sampleTrace sc : countOf isRecv (sampleTrace sc) = 0%nat.
Proof. unfold sampleTrace. now destruct (scanSample sc). Qed.

Lemma list_eq_dec_nil {A} (l : list A) : {l = []} + {l <> []}.
Proof. destruct l; [now left | now right]. Qed.

(** One page turn, whatever the sink answers. *)
Lemma onPage_any env cap tb res now st t :
  datable res now = true ->
  exists st1 t1,
    onPage env cap tb res now st t = (Ok st1, t1)
    /\ List.concat (accepted t1) ++ transferBatch st1
       = List.concat (accepted t) ++ transferBatch st ++ recordsOf res now
    /\ totalEvents st1 = (totalEvents st + List.length (logsOf res))%nat
    /\ totalTransferValue st1 = totalTransferValue st + sumValues (logsOf res)
    /\ fromBlock st1 = (if Z.eqb (nextBlock res) 0 then fromBlock st
                        else nextBlock res)
    /\ countOf isRecv t1 = countOf isRecv t
    /\ (List.length (transferBatch st1)
        <= List.length (transferBatch st) + List.length (recordsOf res now))%nat
    /\ (exists fl, inserts t1 = inserts t ++ fl
                   /\ (List.length fl <= 1)%nat
                   /\ Forall (fun b => (cap <= List.length b)%nat
                                       /\ b = transferBatch st
                                               ++ recordsOf res now) fl).
Proof.
  intros Hdate.
  destruct (page_cases res now Hdate)
    as [(Hn & Hr & Hlogs) | (d & ls & bt & Hd & Hl & Hbt & Hr & Hlogs)].
  - rewrite (onPage_noLogs env cap tb res now st t Hn).
    eexists _, _. split; [reflexivity|].
    rewrite inserts_app, accepted_app, countOf_app, Hr, Hlogs. cbn.
    rewrite !app_nil_r, Nat.add_0_r, Z.add_0_r.
    repeat match goal with |- _ /\ _ => split end; auto; try lia.
    exists []. rewrite app_nil_r. auto.
  - rewrite (onPage_logs env cap tb res now st t d ls bt Hd Hl Hbt).
    rewrite Hr, Hlogs.
    assert (Hv : scanValue (scanOf d bt ls st)
                 = totalTransferValue st + sumValues ls)
      by (unfold scanOf; now rewrite processLogs_value).
    assert (HB : List.length (transferBatch st
                              ++ pageRecords (blockNumberOf d) bt ls)
                 = (List.length (transferBatch st)
                    + List.length (pageRecords (blockNumberOf d) bt ls))%nat)
      by apply length_app.
    set (B := transferBatch st ++ pageRecords (blockNumberOf d) bt ls) in *.
    assert (Hflush :
              exists b' u fl,
                flushIfFull env cap tb B (t ++ sampleTrace (scanOf d bt ls st))
                = (Ok b', (t ++ sampleTrace (scanOf d bt ls st)) ++ u)
                /\ inserts u = fl /\ countOf isRecv u = 0%nat
                /\ List.concat (accepted u) ++ b' = B
                /\ (List.length b' <= List.length B)%nat
                /\ (List.length fl <= 1)%nat
                /\ Forall (fun b => (cap <= List.length b)%nat /\ b = B) fl).
    { destruct (Nat.le_gt_cases cap (List.length B)) as [Hfull|Hbelow].
      - destruct (list_eq_dec_nil B) as [HBe|HBne].
        + rewrite HBe in *. assert (cap = 0%nat) by (cbn in Hfull; lia).
          subst cap. rewrite flushIfFull_empty.
          eexists _, _, []. split; [reflexivity|]. cbn.
          repeat split; auto.
        + destruct (insertOk env
                      (countOf isInsert
                         (t ++ sampleTrace (scanOf d bt ls st)))) eqn:Hok.
          * rewrite (flushIfFull_resolved env cap tb B _ Hfull HBne Hok).
            eexists _, _, [B]. split; [reflexivity|]. cbn.
            rewrite !app_nil_r. repeat split; auto; lia.
          * rewrite (flushIfFull_rejected env cap tb B _ Hfull HBne Hok).
            eexists _, _, [B]. split; [reflexivity|]. cbn.
            repeat split; auto.
      - rewrite (flushIfFull_below env cap tb B _ Hbelow).
        eexists _, [], []. rewrite app_nil_r. split; [reflexivity|]. cbn.
        repeat split; auto. }
    destruct Hflush as (b' & u & fl & -> & Hi & Hr' & Hc & Hlen & Hn1 & Hf).
    eexists _, _. split; [reflexivity|].
    cbn [transferBatch totalEvents totalTransferValue fromBlock advance].
    rewrite !inserts_app, !accepted_app, !countOf_app,
      countOf_isRecv_sampleTrace, inserts_sampleTrace, accepted_sampleTrace,
      Hr', Hi.
    cbn [inserts accepted countOf filter isRecv List.length app].
    rewrite !app_nil_r, !concat_app, <- app_assoc, Hc.
    repeat match goal with |- _ /\ _ => split end; auto; try lia.
    exists fl. auto.
Qed.

Lemma streamOf_prepend pages : streamOf pages = prepend pages Tip.
Proof.
  induction pages as [|[res now] pages IH]; cbn; [reflexivity|].
  now rewrite IH.
Qed.

Lemma sumValues_cons l a :
  sumValues (l :: a)
  = match decoded l with
    | Some ev => valueOf ev + sumValues a
    | None => sumValues a
    end.
Proof. reflexivity. Qed.

Lemma sumValues_app a b : sumValues (a ++ b) = sumValues a + sumValues b.
Proof.
  induction a as [|l a IH]; [reflexivity|].
  rewrite <- app_comm_cons, !sumValues_cons, IH.
  destruct (decoded l); lia.
Qed.

(** The loop over a list of pages, whatever follows them and whatever the
    sink answers. *)
Lemma streamLoop_prefix env cap tb pages s :
  allDatable pages = true ->
  forall st t,
  exists st1 t1 mid,
    streamLoop env cap tb (prepend pages s) st t = streamLoop env cap tb s st1 t1
    /\ List.concat (accepted t1) ++ transferBatch st1
       = List.concat (accepted t) ++ transferBatch st ++ streamRecords pages
    /\ totalEvents st1 = (totalEvents st + List.length (allLogs pages))%nat
    /\ totalTransferValue st1
       = totalTransferValue st + sumValues (allLogs pages)
    /\ fromBlock st1 = cursorAfter pages (fromBlock st)
    /\ countOf isRecv t1 = (countOf isRecv t + List.length pages)%nat
    /\ inserts t1 = inserts t ++ mid
    /\ (List.length mid <= List.length pages)%nat
    /\ Forall (fun b => (cap <= List.length b)%nat
                        /\ (List.length b
                            <= List.length (transferBatch st)
                               + List.length (streamRecords pages))%nat) mid
    /\ (List.length (transferBatch st1)
        <= List.length (transferBatch st)
           + List.length (streamRecords pages))%nat.
Proof.
  induction pages as [|[res now] pages IH]; intros Hd st t.
  - exists st, t, []. cbn. rewrite !app_nil_r, Nat.add_0_r, Z.add_0_r.
    repeat match goal with |- _ /\ _ => split end; auto; lia.
  - cbn [allDatable forallb fst snd] in Hd.
    apply andb_true_iff in Hd. destruct Hd as [Hd1 Hd2].
    cbn [prepend]. rewrite streamLoop_Page.
    destruct (onPage_any env cap tb res now st (t ++ [Recv]) Hd1)
      as (st1 & t1 & Hp & Ha & He & Hv & Hc & Hr & Hb & fl & Hi & Hn & Hf).
    rewrite Hp.
    destruct (IH Hd2 st1 t1)
      as (st2 & t2 & mid & Hl & Ha' & He' & Hv' & Hc' & Hr' & Hi' & Hn' & Hf'
          & Hb').
    exists st2, t2, (fl ++ mid). split; [exact Hl|].
    rewrite accepted_app in Ha. rewrite inserts_app in Hi.
    rewrite countOf_app in Hr.
    cbn in Ha, Hi, Hr. rewrite app_nil_r in Ha, Hi.
    assert (Hrec : List.length (streamRecords ((res, now) :: pages))
                   = (List.length (recordsOf res now)
                      + List.length (streamRecords pages))%nat).
    { unfold streamRecords. cbn [flat_map fst snd]. apply length_app. }
    split.
    { rewrite Ha', app_assoc, Ha. unfold streamRecords.
      cbn [flat_map fst snd]. now rewrite <- !app_assoc. }
    split.
    { rewrite He', He. unfold allLogs. cbn [flat_map fst].
      rewrite length_app. lia. }
    split.
    { rewrite Hv', Hv. unfold allLogs. cbn [flat_map fst].
      rewrite sumValues_app. lia. }
    split; [rewrite Hc', Hc; reflexivity|].
    split; [rewrite Hr', Hr; cbn [List.length]; lia|].
    split; [rewrite Hi', Hi; now rewrite <- app_assoc|].
    split; [rewrite length_app; cbn [List.length]; lia|].
    split; [|lia].
    apply Forall_app. split.
    + eapply Forall_impl; [|exact Hf]. cbv beta. intros b [Hb1 ->].
      split; [exact Hb1|]. rewrite length_app. lia.
    + eapply Forall_impl; [|exact Hf']. cbv beta. intros b [Hb1 Hb2].
      split; [exact Hb1 | lia].
Qed.

(* ================================================================== *)
(** ** From a log of the stream to the sink *)

Lemma accepted_in_inserts t r :
  In r (List.concat (accepted t)) -> In r (List.concat (inserts t)).
Proof.
  induction t as [|e t IH]; cbn; [tauto|].
  destruct e as [| | | |tb vs [|]| |]; cbn; auto;
    rewrite ?in_app_iff; tauto.
Qed.

Lemma pageRecords_In bn bt ls l ev :
  In l ls -> decoded l = Some ev -> In (recordOf bn bt ev l) (pageRecords bn bt ls).
Proof.
  intros Hin Hd. unfold pageRecords. apply in_flat_map.
  exists l. split; [exact Hin|]. rewrite Hd. now left.
Qed.

Lemma streamRecords_In pages res now d ls bt l ev :
  In (res, now) pages ->
  data res = Some d -> logs d = Some ls ->
  sqlDateTime (timeOf d now) = Some bt ->
  In l ls -> decoded l = Some ev ->
  In (recordOf (blockNumberOf d) bt ev l) (streamRecords pages).
Proof.
  intros Hp Hd Hl Hbt Hin Hdec. unfold streamRecords. apply in_flat_map.
  exists (res, now). split; [exact Hp|]. cbn [fst snd].
  unfold recordsOf. rewrite Hd, Hl, Hbt. now apply pageRecords_In.
Qed.

(** The [for] loop over the logs of a page appends the record of every log
    that decodes. *)
Lemma processLogs_appends bn bt ls sc l ev :
  In l ls -> decoded l = Some ev ->
  exists before after,
    scanBatch (processLogs bn bt ls sc)
    = scanBatch sc ++ before ++ recordOf bn bt ev l :: after.
Proof.
  intros Hin Hd. rewrite processLogs_batch.
  destruct (in_split _ _ (pageRecords_In bn bt ls l ev Hin Hd))
    as (before & after & ->).
  now exists before, after.
Qed.

(** A run over pages whose dates can be formatted, whatever the sink
    answers: it reaches its end, every record of the stream has been handed
    to the sink, and the counters are those of the pages. *)
Lemma run_hands_every_record env cap tb pages :
  allDatable pages = true ->
  exists st' t',
    ingest env cap tb (streamOf pages) initialLocals [] = (Ok st', t')
    /\ (forall r, In r (streamRecords pages) ->
                  In r (List.concat (inserts t')))
    /\ totalTransferValue st' = sumValues (allLogs pages)
    /\ totalEvents st' = List.length (allLogs pages).
Proof.
  intros Hd. unfold ingest, bind. rewrite streamOf_prepend.
  destruct (streamLoop_prefix env cap tb pages Tip Hd initialLocals [])
    as (st1 & t1 & mid & Hl & Ha & He & Hv & _).
  rewrite Hl, streamLoop_Tip, finalFlush_trace. unfold ret.
  cbn in Ha, He, Hv.
  eexists st1, _. split; [reflexivity|].
  split; [|split; [exact Hv | exact He]].
  intros r Hr. rewrite <- Ha in Hr. apply in_app_or in Hr.
  rewrite !inserts_app, !concat_app, !in_app_iff.
  destruct Hr as [Hr|Hr].
  - left. left. now apply accepted_in_inserts.
  - right. destruct (transferBatch st1) as [|r0 b]; [destruct Hr|].
    cbn [inserts List.concat]. rewrite app_nil_r. exact Hr.
Qed.

(* ================================================================== *)
(** ** Records built from a decoded log *)

(** C10. A log that decodes is never skipped, whatever fields it lacks: the
    [for] loop over the logs of its page appends its record to the buffer,
    and a run over pages whose dates can be formatted hands that record to
    the sink, whatever the sink answers.  Where the decoded event has no
    first or second indexed slot the addresses of the record are "0x0", where
    it has no body slot the value is "0" and the running total is left as it
    is, and a raw log without address, log index or transaction hash gives
    "0x0", 0 and "0x0". *)
Theorem missing_fields_default (env : Env) (cap : nat) (tb : string)
    (pages : list (Response * Z)) (res : Response) (now : Z)
    (d : ResponseData) (ls : list Log) (bt : string) (l : Log)
    (ev : DecodedEvent) :
  allDatable pages = true ->
  In (res, now) pages ->
  data res = Some d -> logs d = Some ls ->
  sqlDateTime (timeOf d now) = Some bt ->
  In l ls -> decoded l = Some ev ->
  (forall sc, exists before after,
      scanBatch (processLogs (blockNumberOf d) bt ls sc)
      = scanBatch sc ++ before ++ recordOf (blockNumberOf d) bt ev l :: after)
  /\ (exists st' t',
        ingest env cap tb (streamOf pages) initialLocals [] = (Ok st', t')
        /\ In (recordOf (blockNumberOf d) bt ev l) (List.concat (inserts t'))
        /\ totalEvents st' = List.length (allLogs pages))
  /\ (forall sc,
        scanBatch (processLog (blockNumberOf d) bt sc l)
        = scanBatch sc ++ [recordOf (blockNumberOf d) bt ev l])
  /\ (nth_error (indexed ev) 0 = None ->
      from_address (recordOf (blockNumberOf d) bt ev l) = "0x0"%string)
  /\ (nth_error (indexed ev) 1 = None ->
      to_address (recordOf (blockNumberOf d) bt ev l) = "0x0"%string)
  /\ (nth_error (body ev) 0 = None ->
      value (recordOf (blockNumberOf d) bt ev l) = "0"%string
      /\ forall sc, scanValue (processLog (blockNumberOf d) bt sc l)
                    = scanValue sc)
  /\ (address l = None ->
      contract_address (recordOf (blockNumberOf d) bt ev l) = "0x0"%string)
  /\ (logIndex l = None -> log_index (recordOf (blockNumberOf d) bt ev l) = 0)
  /\ (transactionHash l = None ->
      transaction_hash (recordOf (blockNumberOf d) bt ev l) = "0x0"%string).
Proof.
  intros Hall Hp Hd Hl Hbt Hin Hdec.
  split; [intros sc; now apply processLogs_appends|].
  split.
  { destruct (run_hands_every_record env cap tb pages Hall)
      as (st' & t' & Hrun & Hrec & _ & He).
    exists st', t'. split; [exact Hrun|]. split; [|exact He].
    apply Hrec. now apply (streamRecords_In pages res now d ls bt l ev). }
  split; [intros sc; unfold processLog; now rewrite Hdec|].
  unfold processLog, recordOf, valueOf. rewrite Hdec.
  cbn [from_address to_address value contract_address log_index
       transaction_hash scanValue].
  repeat match goal with |- _ /\ _ => split end;
    intros ->; cbn; try reflexivity.
  split; [reflexivity | intros sc; lia].
Qed.

Lemma missing_fields_default_witness :
  exists st' t',
    ingest deafEnv 2 "erc20_transfers_130" (streamOf [(barePage, 0)])
      initialLocals [] = (Ok st', t')
    /\ In {| block_number := 7; block_timestamp := "1970-01-01 00:00:07";
             log_index := 0; transaction_hash := "0x0";
             contract_address := "0x0"; from_address := "0x0";
             to_address := "0x0"; value := "0" |}
          (List.concat (inserts t'))
    /\ totalEvents st' = 3%nat.
Proof.
  destruct (missing_fields_default deafEnv 2 "erc20_transfers_130"
              [(barePage, 0)] barePage 0
              {| logs := Some [malformedLog; bareLog; transferLog 2 7];
                 blocks := Some [ {| number := Some 7;
                                     timestamp := Some 7 |} ] |}
              [malformedLog; bareLog; transferLog 2 7]
              "1970-01-01 00:00:07" bareLog {| indexed := []; body := [] |}
              eq_refl (or_introl eq_refl) eq_refl eq_refl eq_refl
              (or_intror (or_introl eq_refl)) eq_refl)
    as (_ & H & _).
  exact H.
Defined.

Example barePage_run :
  match ingest deafEnv 2 "erc20_transfers_130" (streamOf [(barePage, 0)])
          initialLocals [] with
  | (Ok st', t') =>
      map (map (fun r => (log_index r, from_address r, value r))) (inserts t')
      = [[(0, "0x0", "0"); (2, "0xa11ce", "5")];
         [(0, "0x0", "0"); (2, "0xa11ce", "5")]]%string
      /\ accepted t' = []
      /\ totalTransferValue st' = 5
  | (Throw, _) => False
  end.
Proof. vm_compute. repeat split. Qed.

(* ================================================================== *)
(** ** Precision of the transfer value *)

Lemma pageRecords_app bn bt a b :
  pageRecords bn bt (a ++ b) = pageRecords bn bt a ++ pageRecords bn bt b.
Proof. unfold pageRecords. apply flat_map_app. Qed.

Lemma pageRecords_cons bn bt l ls ev :
  decoded l = Some ev ->
  pageRecords bn bt (l :: ls) = recordOf bn bt ev l :: pageRecords bn bt ls.
Proof. intros H. unfold pageRecords. cbn [flat_map]. now rewrite H. Qed.

(** C7. The value of a decoded log is an integer of unbounded size from the
    decoder to the sink.  For a log of a page of the stream that carries the
    value [v]: its row has the exact decimal digits of [v] (reading them back
    gives [v]); the [for] loop over the logs of the page appends that row
    where the log stands in the page and adds [v] exactly to the running
    total; and a run over pages whose dates can be formatted, whatever the
    sink answers, hands that row to the sink and ends with the exact sum of
    the values of the stream as its total. *)
Theorem value_precision (env : Env) (cap : nat) (tb : string)
    (pages : list (Response * Z)) (res : Response) (now : Z)
    (d : ResponseData) (ls : list Log) (bt : string) (l : Log)
    (ev : DecodedEvent) (v : Z) :
  allDatable pages = true ->
  In (res, now) pages ->
  data res = Some d -> logs d = Some ls ->
  sqlDateTime (timeOf d now) = Some bt ->
  In l ls -> decoded l = Some ev ->
  nth_error (body ev) 0 = Some v ->
  0 <= v < 2 ^ 256 ->
  value (recordOf (blockNumberOf d) bt ev l) = JS.toString v
  /\ JS.parseDecimal (value (recordOf (blockNumberOf d) bt ev l)) = Some v
  /\ (forall sc,
        scanValue (processLog (blockNumberOf d) bt sc l) = scanValue sc + v
        /\ scanBatch (processLog (blockNumberOf d) bt sc l)
           = scanBatch sc ++ [recordOf (blockNumberOf d) bt ev l])
  /\ (exists l1 l2,
        ls = l1 ++ l :: l2
        /\ forall sc,
             scanValue (processLogs (blockNumberOf d) bt ls sc)
             = scanValue sc + sumValues l1 + v + sumValues l2
             /\ scanBatch (processLogs (blockNumberOf d) bt ls sc)
                = scanBatch sc
                  ++ pageRecords (blockNumberOf d) bt l1
                  ++ recordOf (blockNumberOf d) bt ev l
                     :: pageRecords (blockNumberOf d) bt l2)
  /\ (exists st' t',
        ingest env cap tb (streamOf pages) initialLocals [] = (Ok st', t')
        /\ In (recordOf (blockNumberOf d) bt ev l) (List.concat (inserts t'))
        /\ totalTransferValue st' = sumValues (allLogs pages)).
Proof.
  intros Hall Hp Hd Hl Hbt Hin Hdec Hv Hr.
  assert (Hval : valueOf ev = v).
  { unfold valueOf, JS.orNumber. rewrite Hv.
    destruct (Z.eqb_spec v 0); congruence. }
  assert (Hrec : value (recordOf (blockNumberOf d) bt ev l) = JS.toString v).
  { unfold recordOf. cbn [value]. now rewrite Hval. }
  split; [exact Hrec|].
  split; [rewrite Hrec; apply parseDecimal_toString|].
  split.
  { intros sc. unfold processLog. rewrite Hdec. cbn [scanValue scanBatch].
    now rewrite Hval. }
  split.
  { destruct (in_split _ _ Hin) as (l1 & l2 & ->).
    exists l1, l2. split; [reflexivity|]. intros sc.
    rewrite processLogs_value, processLogs_batch, sumValues_app,
      sumValues_cons, pageRecords_app,
      (pageRecords_cons (blockNumberOf d) bt l l2 ev Hdec), Hdec, Hval.
    split; [lia | reflexivity]. }
  destruct (run_hands_every_record env cap tb pages Hall)
    as (st' & t' & Hrun & Hrecs & Htot & _).
  exists st', t'. split; [exact Hrun|]. split; [|exact Htot].
  apply Hrecs. now apply (streamRecords_In pages res now d ls bt l ev).
Qed.

Lemma value_precision_witness :
  value (recordOf 100 "2023-11-14 22:13:20"
           {| indexed := ["0xa11ce"; "0xb0b"]; body := [2 ^ 255 + 12345] |}
           bigValueLog)
  = "57896044618658097711785492504343953926634992332820282019728792003956564832313"%string
  /\ exists st' t',
       ingest flakyEnv 2 "erc20_transfers_130" (streamOf [(bigValuePage, 0)])
         initialLocals [] = (Ok st', t')
       /\ In (recordOf 100 "2023-11-14 22:13:20"
                {| indexed := ["0xa11ce"; "0xb0b"];
                   body := [2 ^ 255 + 12345] |}
                bigValueLog)
             (List.concat (inserts t'))
       /\ totalTransferValue st' = sumValues (allLogs [(bigValuePage, 0)]).
Proof.
  destruct (value_precision flakyEnv 2 "erc20_transfers_130"
              [(bigValuePage, 0)] bigValuePage 0
              {| logs := Some [transferLog 0 100; bigValueLog];
                 blocks := Some [ {| number := Some 100;
                                     timestamp := Some 1700000000 |} ] |}
              [transferLog 0 100; bigValueLog]
              "2023-11-14 22:13:20" bigValueLog
              {| indexed := ["0xa11ce"; "0xb0b"]; body := [2 ^ 255 + 12345] |}
              (2 ^ 255 + 12345)
              eq_refl (or_introl eq_refl) eq_refl eq_refl eq_refl
              (or_intror (or_introl eq_refl)) eq_refl eq_refl
              ltac:(split; [discriminate | reflexivity]))
    as (H1 & _ & _ & _ & H5).
  split; [exact H1 | exact H5].
Defined.

Example bigValuePage_run :
  match ingest flakyEnv 2 "erc20_transfers_130" (streamOf [(bigValuePage, 0)])
          initialLocals [] with
  | (Ok st', t') =>
      map (map value) (inserts t')
      = [["5"; "57896044618658097711785492504343953926634992332820282019728792003956564832313"];
         ["5"; "57896044618658097711785492504343953926634992332820282019728792003956564832313"]]%string
      /\ map (map value) (accepted t')
         = [["5"; "57896044618658097711785492504343953926634992332820282019728792003956564832313"]]%string
      /\ totalTransferValue st' = 2 ^ 255 + 12350
  | (Throw, _) => False
  end.
Proof. vm_compute. repeat split. Qed.

(* ================================================================== *)
(** ** The whole script *)

(** A run whose table setup and stream opening resolve is the setup trace
    followed by the loop and the final flush, then the closing messages. *)
Lemma program_after_setup env argv2 s info :
  lookupChain CHAIN_CONFIG (CHAIN_ID argv2) = Some info ->
  setupOk env = true ->
  program env argv2 s
  = match ingest env BATCH_SIZE
            ("erc20_transfers_" ++ JS.toString (CHAIN_ID argv2))%string
            s initialLocals (setupTrace info (CHAIN_ID argv2)) with
    | (Ok st, t) =>
        t ++ [Console (MsgScanComplete (totalEvents st));
              Console (MsgTotalValue (JS.toString (totalTransferValue st)));
              Console (MsgSaved
                         ("erc20_transfers_"
                          ++ JS.toString (CHAIN_ID argv2))%string);
              Close (closeOk env)]
          ++ (if closeOk env then [] else [Console MsgFatal; Exit 1])
    | (Throw, t) => t ++ [Console MsgFatal; Exit 1]
    end.
Proof.
  intros Hl Hs. unfold setupOk in Hs.
  apply andb_true_iff in Hs. destruct Hs as [Hs H3].
  apply andb_true_iff in Hs. destruct Hs as [Hs H2].
  apply andb_true_iff in Hs. destruct Hs as [H0 H1].
  unfold program. rewrite Hl.
  unfold main, mainWith, initializeDatabase, bind, emit, command, openStream,
    close, ret.
  change (countOf isCommand
            ((([] ++ [Console (MsgCollecting (name info) (CHAIN_ID argv2))])
              ++ [Console MsgStarting])
             ++ [Console (MsgSettingUp
                            ("erc20_transfers_"
                             ++ JS.toString (CHAIN_ID argv2))%string)]))
    with 0%nat.
  rewrite H0.
  match goal with
  | |- context [commandOk env (countOf isCommand ?t)] =>
      change (countOf isCommand t) with 1%nat
  end.
  rewrite H1.
  match goal with
  | |- context [commandOk env (countOf isCommand ?t)] =>
      change (countOf isCommand t) with 2%nat
  end.
  rewrite H2, H3.
  unfold setupTrace. cbn [app initialLocals fromBlock].
  destruct (ingest env BATCH_SIZE _ s _ _) as [[st|] t]; [|reflexivity].
  destruct (closeOk env); rewrite <- !app_assoc; cbn [app];
    rewrite ?app_nil_r; reflexivity.
Qed.

Lemma program_setup_fails env argv2 s info :
  lookupChain CHAIN_CONFIG (CHAIN_ID argv2) = Some info ->
  setupOk env = false ->
  program env argv2 s = failedSetupTrace env info (CHAIN_ID argv2).
Proof.
  intros Hl Hs. unfold setupOk in Hs.
  unfold program. rewrite Hl.
  unfold main, mainWith, initializeDatabase, bind, emit, command, openStream,
    close, ret, failedSetupTrace.
  repeat match goal with
         | |- context [commandOk env (countOf isCommand ?t)] =>
             let n := eval lazy in (countOf isCommand t) in
             change (countOf isCommand t) with n
         end.
  destruct (commandOk env 0) eqn:H0; [|reflexivity].
  destruct (commandOk env 1) eqn:H1; [|reflexivity].
  destruct (commandOk env 2) eqn:H2; [|reflexivity].
  destruct (streamOk env) eqn:H3; [discriminate|reflexivity].
Qed.

(** X4. When one of the three statements of the table setup, or the
    opening of the stream, is rejected, the script stops there with exit
    code 1: no page is requested and nothing is inserted.  When it is the
    CREATE TABLE that is rejected, the table of the chain has already been
    dropped. *)
Theorem setup_failure_stops_run (env : Env) (argv2 : option string)
    (s : Stream) (info : ChainInfo) :
  lookupChain CHAIN_CONFIG (CHAIN_ID argv2) = Some info ->
  setupOk env = false ->
  exitCode (program env argv2 s) = 1
  /\ countOf isRecv (program env argv2 s) = 0%nat
  /\ inserts (program env argv2 s) = []
  /\ (commandOk env 0 = true -> commandOk env 1 = true ->
      commandOk env 2 = false ->
      program env argv2 s
      = [ Console (MsgCollecting (name info) (CHAIN_ID argv2));
          Console MsgStarting;
          Console (MsgSettingUp
                     ("erc20_transfers_" ++ JS.toString (CHAIN_ID argv2))%string);
          Command CreateDatabase true;
          Command (DropTable
                     ("erc20_transfers_" ++ JS.toString (CHAIN_ID argv2))%string)
            true;
          Command (CreateTable
                     ("erc20_transfers_" ++ JS.toString (CHAIN_ID argv2))%string)
            false;
          Console MsgFatal;
          Exit 1 ]).
Proof.
  intros Hl Hs. rewrite (program_setup_fails env argv2 s info Hl Hs).
  unfold failedSetupTrace.
  destruct (commandOk env 0), (commandOk env 1), (commandOk env 2);
    repeat split; intros; try reflexivity; discriminate.
Qed.

(** Collaborators whose CREATE TABLE is rejected. *)
Lemma setup_failure_stops_run_witness :
  exitCode (program {| commandOk := fun k => negb (Nat.eqb k 2);
                       streamOk := true; insertOk := fun _ => true;
                       closeOk := true |}
              (Some "8453"%string) (streamOf scenario)) = 1.
Proof.
  destruct (setup_failure_stops_run
              {| commandOk := fun k => negb (Nat.eqb k 2);
                 streamOk := true; insertOk := fun _ => true;
                 closeOk := true |}
              (Some "8453"%string) (streamOf scenario)
              {| name := "Base"; hypersyncUrl := "http://8453.hypersync.xyz" |}
              eq_refl eq_refl) as [H _].
  exact H.
Defined.

Lemma countOf_isInsert_inserts t : countOf isInsert t = List.length (inserts t).
Proof.
  unfold countOf. induction t as [|e t IH]; [reflexivity|].
  destruct e; cbn; auto.
Qed.

(** X1. Whatever the sink answers, the loop loses no row and accepts none
    twice: when the stream reaches its tip, the rows of the accepted insert
    calls followed by the rows still in the buffer are exactly the records of
    the pages, in stream order. *)
Theorem loop_keeps_every_record (env : Env) (cap : nat) (tb : string)
    (pages : list (Response * Z)) (st : Locals) (t : Trace) :
  allDatable pages = true ->
  exists st' t',
    streamLoop env cap tb (streamOf pages) st t = (Ok st', t')
    /\ List.concat (accepted t') ++ transferBatch st'
       = List.concat (accepted t) ++ transferBatch st ++ streamRecords pages.
Proof.
  intros Hd. rewrite streamOf_prepend.
  destruct (streamLoop_prefix env cap tb pages Tip Hd st t)
    as (st1 & t1 & mid & Hl & Ha & _).
  rewrite Hl, streamLoop_Tip.
  exists st1, (t1 ++ [Recv; Console MsgTip]). split; [reflexivity|].
  rewrite accepted_app. cbn. now rewrite app_nil_r.
Qed.

Lemma loop_keeps_every_record_witness :
  exists st' t',
    streamLoop flakyEnv 2 "erc20_transfers_130" (streamOf scenario)
      initialLocals [] = (Ok st', t')
    /\ List.concat (accepted t') ++ transferBatch st'
       = streamRecords scenario.
Proof.
  destruct (loop_keeps_every_record flakyEnv 2 "erc20_transfers_130"
              scenario initialLocals [] eq_refl) as (st' & t' & H1 & H2).
  exists st', t'. split; [exact H1 | exact H2].
Defined.

(** X2. Over a whole run, whatever the sink answers, the rows of the
    accepted insert calls are a prefix of the records of the stream, each
    once and in order.  The rows that are missing are those of the buffer at
    the end of the stream, and they are missing exactly when the final insert
    (the call after the ones of the loop) is rejected. *)
Theorem accepted_rows_are_a_prefix (env : Env) (cap : nat) (tb : string)
    (pages : list (Response * Z)) :
  allDatable pages = true ->
  exists st' t' mid,
    ingest env cap tb (streamOf pages) initialLocals [] = (Ok st', t')
    /\ inserts t' = mid ++ match transferBatch st' with
                           | [] => []
                           | _ :: _ => [transferBatch st']
                           end
    /\ List.concat (accepted t')
       ++ (if insertOk env (List.length mid) then [] else transferBatch st')
       = streamRecords pages.
Proof.
  intros Hd. unfold ingest, bind. rewrite streamOf_prepend.
  destruct (streamLoop_prefix env cap tb pages Tip Hd initialLocals [])
    as (st1 & t1 & mid & Hl & Ha & _ & _ & _ & _ & Hi & _).
  rewrite Hl, streamLoop_Tip, finalFlush_trace. unfold ret.
  cbn in Ha, Hi.
  eexists st1, _, mid. split; [reflexivity|].
  rewrite !inserts_app, !accepted_app, countOf_isInsert_inserts, inserts_app, Hi.
  cbn [inserts accepted app]. rewrite !app_nil_r, <- Ha.
  destruct (transferBatch st1) as [|r b]; cbn [inserts accepted app List.concat].
  - split; [reflexivity|]. destruct (insertOk env (List.length mid));
      now rewrite ?app_nil_r.
  - split; [reflexivity|].
    destruct (insertOk env (List.length mid)); cbn [accepted inserts];
      rewrite ?concat_app; cbn [List.concat]; now rewrite ?app_nil_r.
Qed.

Lemma accepted_rows_are_a_prefix_witness :
  exists st' t' (mid : list (list TransferRecord)),
    ingest deafEnv 2 "erc20_transfers_130" (streamOf scenario)
      initialLocals [] = (Ok st', t')
    /\ List.concat (accepted t')
       ++ (if insertOk deafEnv (List.length mid) then [] else transferBatch st')
       = streamRecords scenario.
Proof.
  destruct (accepted_rows_are_a_prefix deafEnv 2 "erc20_transfers_130"
              scenario eq_refl) as (st' & t' & mid & H1 & _ & H3).
  exists st', t', mid. split; [exact H1 | exact H3].
Defined.

(* ================================================================== *)
(** ** What the loop and the final flush emit *)

Lemma emitsOnly_ret {A} good (a : A) : emitsOnly good (ret a).
Proof. intros t. exists []. cbn. now rewrite app_nil_r. Qed.

Lemma emitsOnly_throw {A} good : emitsOnly good (@throw A).
Proof. intros t. exists []. cbn. now rewrite app_nil_r. Qed.

Lemma emitsOnly_emit (good : Event -> Prop) e : good e -> emitsOnly good (emit e).
Proof. intros H t. exists [e]. split; [reflexivity | now constructor]. Qed.

Lemma emitsOnly_bind {A B} good (m : M A) (k : A -> M B) :
  emitsOnly good m -> (forall a, emitsOnly good (k a)) -> emitsOnly good (bind m k).
Proof.
  intros Hm Hk t. unfold bind. destruct (Hm t) as (u & Hu & Fu).
  destruct (m t) as [[a|] t1]; cbn in Hu; subst t1.
  - destruct (Hk a (t ++ u)) as (v & Hv & Fv). exists (u ++ v).
    rewrite Hv, app_assoc. split; [reflexivity | now apply Forall_app].
  - now exists u.
Qed.

Lemma emitsOnly_tryCatch {A} good (m h : M A) :
  emitsOnly good m -> emitsOnly good h -> emitsOnly good (tryCatch m h).
Proof.
  intros Hm Hh t. unfold tryCatch. destruct (Hm t) as (u & Hu & Fu).
  destruct (m t) as [[a|] t1]; cbn in Hu; subst t1.
  - now exists u.
  - destruct (Hh (t ++ u)) as (v & Hv & Fv). exists (u ++ v).
    rewrite Hv, app_assoc. split; [reflexivity | now apply Forall_app].
Qed.

Section LoopEvents.

Variable env : Env.
Variable cap : nat.
Variable tb : string.

Let good : Event -> Prop := loopEvent ("token_intelligence." ++ tb)%string.

Lemma emitsOnly_console m : emitsOnly good (emit (Console m)).
Proof. apply emitsOnly_emit. exact I. Qed.

Lemma emitsOnly_insertTransferBatch b :
  emitsOnly good (insertTransferBatch env b tb).
Proof.
  unfold insertTransferBatch. destruct b as [|r b]; cbn [List.length Nat.eqb].
  - apply emitsOnly_ret.
  - intros t. eexists [_]. split; [reflexivity|].
    constructor; [|constructor]. split; [reflexivity | discriminate].
Qed.

Lemma emitsOnly_flushIfFull b : emitsOnly good (flushIfFull env cap tb b).
Proof.
  unfold flushIfFull. destruct (Nat.leb cap (List.length b));
    [|apply emitsOnly_ret].
  apply emitsOnly_tryCatch.
  - apply emitsOnly_bind; [apply emitsOnly_insertTransferBatch|intros _].
    apply emitsOnly_bind; [apply emitsOnly_console|intros _].
    apply emitsOnly_ret.
  - apply emitsOnly_bind; [apply emitsOnly_console|intros _].
    apply emitsOnly_ret.
Qed.

Lemma emitsOnly_processData res now st :
  emitsOnly good (processData env cap tb res now st).
Proof.
  unfold processData.
  destruct (data res) as [d|]; [|apply emitsOnly_ret].
  destruct (logs d) as [ls|]; [|apply emitsOnly_ret].
  apply emitsOnly_bind.
  { unfold orThrow. destruct (sqlDateTime _);
      [apply emitsOnly_ret | apply emitsOnly_throw]. }
  intros bt. apply emitsOnly_bind.
  { destruct (scanSample _); [apply emitsOnly_console | apply emitsOnly_ret]. }
  intros _. apply emitsOnly_bind; [apply emitsOnly_flushIfFull|intros b].
  apply emitsOnly_ret.
Qed.

Lemma emitsOnly_onPage res now st :
  emitsOnly good (onPage env cap tb res now st).
Proof.
  unfold onPage.
  apply emitsOnly_bind; [apply emitsOnly_processData|intros st1].
  apply emitsOnly_bind; [apply emitsOnly_console|intros _].
  apply emitsOnly_ret.
Qed.

Lemma emitsOnly_streamLoop s :
  forall st, emitsOnly good (streamLoop env cap tb s st).
Proof.
  induction s as [| |res now rest IH]; intros st; cbn [streamLoop];
    (apply emitsOnly_bind; [apply emitsOnly_emit; exact I|intros _]).
  - apply emitsOnly_bind; [apply emitsOnly_console|intros _].
    apply emitsOnly_ret.
  - apply emitsOnly_throw.
  - apply emitsOnly_bind; [apply emitsOnly_onPage|intros st'].
    apply IH.
Qed.

Lemma emitsOnly_finalFlush st : emitsOnly good (finalFlush env tb st).
Proof.
  unfold finalFlush. destruct (Nat.ltb 0 _); [|apply emitsOnly_ret].
  apply emitsOnly_tryCatch; [|apply emitsOnly_console].
  apply emitsOnly_bind; [apply emitsOnly_insertTransferBatch|intros _].
  apply emitsOnly_console.
Qed.

Lemma emitsOnly_ingest s st : emitsOnly good (ingest env cap tb s st).
Proof.
  unfold ingest.
  apply emitsOnly_bind; [apply emitsOnly_streamLoop|intros st'].
  apply emitsOnly_bind; [apply emitsOnly_finalFlush|intros _].
  apply emitsOnly_ret.
Qed.

End LoopEvents.

Lemma loopEvent_goodInsert tbl e : loopEvent tbl e -> goodInsert tbl e.
Proof. destruct e; cbn; auto. Qed.

Lemma inserts_nil_accepted t : inserts t = [] -> accepted t = [].
Proof.
  induction t as [|e t IH]; [reflexivity|].
  destruct e; cbn; intros H; try discriminate; auto.
Qed.

(** X3. Every insert call of a run, whatever the command line, the
    stream and the answers of the collaborators, goes to the table
    [token_intelligence.erc20_transfers_<CHAIN_ID>] of the selected chain and
    carries at least one row: the sink is never handed an empty batch nor a
    row for another chain's table. *)
Theorem inserts_target_the_chain_table (env : Env) (argv2 : option string)
    (s : Stream) :
  Forall (goodInsert (sinkTable (CHAIN_ID argv2))) (program env argv2 s).
Proof.
  destruct (lookupChain CHAIN_CONFIG (CHAIN_ID argv2)) as [info|] eqn:Hl.
  - destruct (setupOk env) eqn:Hs.
    + rewrite (program_after_setup env argv2 s info Hl Hs).
      destruct (emitsOnly_ingest env BATCH_SIZE
                  ("erc20_transfers_" ++ JS.toString (CHAIN_ID argv2))%string
                  s initialLocals (setupTrace info (CHAIN_ID argv2)))
        as (u & Hu & Fu).
      assert (Ft : Forall (goodInsert (sinkTable (CHAIN_ID argv2)))
                     (setupTrace info (CHAIN_ID argv2) ++ u)).
      { apply Forall_app. split.
        - unfold setupTrace. repeat constructor.
        - eapply Forall_impl; [|exact Fu]. apply loopEvent_goodInsert. }
      destruct (ingest env BATCH_SIZE _ s _ _) as [[st|] t]; cbn in Hu; subst t.
      * apply Forall_app. split; [exact Ft|].
        destruct (closeOk env); repeat constructor.
      * apply Forall_app. split; [exact Ft | repeat constructor].
    + rewrite (program_setup_fails env argv2 s info Hl Hs).
      unfold failedSetupTrace.
      destruct (commandOk env 0), (commandOk env 1), (commandOk env 2);
        repeat constructor.
  - unfold program. rewrite Hl. repeat constructor.
Qed.

Lemma last_app_cons (t : Trace) (e d : Event) (u : Trace) :
  last (t ++ e :: u) d = last (e :: u) d.
Proof.
  induction t as [|x t IH]; [reflexivity|].
  rewrite <- IH, <- app_comm_cons.
  destruct (t ++ e :: u) eqn:E; [now destruct t|reflexivity].
Qed.

Lemma Forall_bounds_nil (cap n : nat) (l : list (list TransferRecord)) :
  Forall (fun b => (cap <= List.length b)%nat /\ (List.length b <= n)%nat) l ->
  (n < cap)%nat -> l = [].
Proof.
  intros H Hn. destruct l as [|b l]; [reflexivity|].
  inversion H as [|? ? [H1 H2] _]. lia.
Qed.

(** X5. When [stream.recv()] rejects after some pages, the script ends
    with exit code 1 and makes no final flush: the insert calls of the run
    are those of the loop, each of at least BATCH_SIZE rows, and the rows
    accepted are a prefix of the records read.  In particular, when the
    source fails before BATCH_SIZE records were read, nothing at all reaches
    the sink. *)
Theorem source_fault_drops_buffer (env : Env) (argv2 : option string)
    (pages : list (Response * Z)) (info : ChainInfo) :
  lookupChain CHAIN_CONFIG (CHAIN_ID argv2) = Some info ->
  allDatable pages = true ->
  exitCode (program env argv2 (brokenAfter pages)) = 1
  /\ Forall (fun b => (BATCH_SIZE <= List.length b)%nat)
            (inserts (program env argv2 (brokenAfter pages)))
  /\ (exists lost,
        List.concat (accepted (program env argv2 (brokenAfter pages))) ++ lost
        = streamRecords pages)
  /\ ((List.length (streamRecords pages) < BATCH_SIZE)%nat ->
      inserts (program env argv2 (brokenAfter pages)) = []).
Proof.
  intros Hl Hd.
  destruct (setupOk env) eqn:Hs.
  - rewrite (program_after_setup env argv2 _ info Hl Hs).
    unfold ingest, bind, brokenAfter.
    destruct (streamLoop_prefix env BATCH_SIZE
                ("erc20_transfers_" ++ JS.toString (CHAIN_ID argv2))%string
                pages Broken Hd initialLocals
                (setupTrace info (CHAIN_ID argv2)))
      as (st1 & t1 & mid & Hp & Ha & _ & _ & _ & _ & Hi & _ & Hf & _).
    rewrite Hp, streamLoop_Broken.
    change (inserts (setupTrace info (CHAIN_ID argv2))) with
      (@nil (list TransferRecord)) in Hi.
    change (accepted (setupTrace info (CHAIN_ID argv2))) with
      (@nil (list TransferRecord)) in Ha.
    cbn [app List.concat initialLocals transferBatch List.length] in Ha, Hi, Hf.
    rewrite <- app_assoc.
    change ([Recv] ++ [Console MsgFatal; Exit 1])
      with [Recv; Console MsgFatal; Exit 1].
    split; [unfold exitCode; now rewrite last_app_cons|].
    rewrite !inserts_app, !accepted_app. cbn [inserts accepted].
    rewrite !app_nil_r, Hi.
    split; [eapply Forall_impl; [|exact Hf]; cbv beta; tauto|].
    split; [now exists (transferBatch st1)|].
    intros Hlt. eapply Forall_bounds_nil; [exact Hf | exact Hlt].
  - rewrite (program_setup_fails env argv2 _ info Hl Hs).
    unfold failedSetupTrace.
    destruct (commandOk env 0), (commandOk env 1), (commandOk env 2);
      (split; [reflexivity|]; split; [constructor|];
       split; [now exists (streamRecords pages)|intros _; reflexivity]).
Qed.

Lemma source_fault_drops_buffer_witness :
  exitCode (program quietEnv (Some "1"%string) (brokenAfter scenario)) = 1
  /\ inserts (program quietEnv (Some "1"%string) (brokenAfter scenario)) = [].
Proof.
  destruct (source_fault_drops_buffer quietEnv (Some "1"%string) scenario
              {| name := "Ethereum"; hypersyncUrl := "http://1.hypersync.xyz" |}
              eq_refl eq_refl) as (H1 & _ & _ & H4).
  split; [exact H1|]. apply H4. vm_compute. lia.
Defined.

Lemma finalFlush_facts env tb st t :
  exists u,
    finalFlush env tb st t = (Ok tt, t ++ u)
    /\ inserts u = match transferBatch st with
                   | [] => []
                   | _ :: _ => [transferBatch st]
                   end
    /\ countOf isRecv u = 0%nat.
Proof.
  rewrite finalFlush_trace. eexists. split; [reflexivity|].
  destruct (transferBatch st); cbn; auto.
Qed.

(** X6. The counters and the cursor do not depend on the sink: when the
    stream reaches its tip, [totalEvents] has grown by the number of logs of
    the pages, malformed ones included, [totalTransferValue] by the sum of
    the values of the logs that decode, and the cursor is the last non-zero
    position a page reported (its old value when there is none). *)
Theorem counters_ignore_the_sink (env : Env) (cap : nat) (tb : string)
    (pages : list (Response * Z)) (st : Locals) (t : Trace) :
  allDatable pages = true ->
  exists st' t',
    ingest env cap tb (streamOf pages) st t = (Ok st', t')
    /\ totalEvents st' = (totalEvents st + List.length (allLogs pages))%nat
    /\ totalTransferValue st'
       = totalTransferValue st + sumValues (allLogs pages)
    /\ fromBlock st' = cursorAfter pages (fromBlock st).
Proof.
  intros Hd. unfold ingest, bind. rewrite streamOf_prepend.
  destruct (streamLoop_prefix env cap tb pages Tip Hd st t)
    as (st1 & t1 & mid & Hl & _ & He & Hv & Hc & _).
  rewrite Hl, streamLoop_Tip, finalFlush_trace. unfold ret.
  eexists st1, _. split; [reflexivity|]. auto.
Qed.

Lemma counters_ignore_the_sink_witness :
  exists st' t',
    ingest deafEnv 2 "erc20_transfers_130" (streamOf scenario)
      initialLocals [] = (Ok st', t')
    /\ totalEvents st' = 4%nat
    /\ totalTransferValue st' = 15
    /\ fromBlock st' = 102.
Proof.
  destruct (counters_ignore_the_sink deafEnv 2 "erc20_transfers_130"
              scenario initialLocals [] eq_refl)
    as (st' & t' & H1 & H2 & H3 & H4).
  exists st', t'. repeat split; assumption.
Defined.

(** X7. The loop pulls one page at a time: over a stream of n pages that
    reaches its tip, [stream.recv()] is called exactly n + 1 times, and at
    most n + 1 insert calls are made, one per page at most and the final
    one; every call made inside the loop carries at least [cap] rows. *)
Theorem one_request_per_page (env : Env) (cap : nat) (tb : string)
    (pages : list (Response * Z)) (st : Locals) (t : Trace) :
  allDatable pages = true ->
  exists st' t' mid,
    ingest env cap tb (streamOf pages) st t = (Ok st', t')
    /\ countOf isRecv t' = (countOf isRecv t + List.length pages + 1)%nat
    /\ inserts t' = inserts t ++ mid
                    ++ match transferBatch st' with
                       | [] => []
                       | _ :: _ => [transferBatch st']
                       end
    /\ (List.length mid <= List.length pages)%nat
    /\ Forall (fun b => (cap <= List.length b)%nat) mid
    /\ (List.length (inserts t')
        <= List.length (inserts t) + List.length pages + 1)%nat.
Proof.
  intros Hd. unfold ingest, bind. rewrite streamOf_prepend.
  destruct (streamLoop_prefix env cap tb pages Tip Hd st t)
    as (st1 & t1 & mid & Hl & _ & _ & _ & _ & Hr & Hi & Hn & Hf & _).
  rewrite Hl, streamLoop_Tip.
  destruct (finalFlush_facts env tb st1 (t1 ++ [Recv; Console MsgTip]))
    as (u & -> & Hu & Hru).
  unfold ret. eexists st1, _, mid. split; [reflexivity|].
  rewrite !inserts_app, !countOf_app, Hi, Hu, Hr, Hru.
  cbn [inserts countOf filter isRecv List.length].
  rewrite app_nil_r, <- app_assoc.
  split; [lia|].
  split; [reflexivity|].
  split; [exact Hn|].
  split; [eapply Forall_impl; [|exact Hf]; cbv beta; tauto|].
  rewrite !length_app. destruct (transferBatch st1); cbn [List.length]; lia.
Qed.

Lemma one_request_per_page_witness :
  exists st' t' (mid : list (list TransferRecord)),
    ingest flakyEnv 2 "erc20_transfers_130" (streamOf scenario)
      initialLocals [] = (Ok st', t')
    /\ countOf isRecv t' = 3%nat
    /\ (List.length (inserts t') <= 3)%nat.
Proof.
  destruct (one_request_per_page flakyEnv 2 "erc20_transfers_130"
              scenario initialLocals [] eq_refl)
    as (st' & t' & mid & H1 & H2 & _ & _ & _ & H6).
  exists st', t', mid. repeat split; assumption.
Defined.

(** X8. Rejected inserts never fail the run.  When the table setup, the
    stream opening and the closing resolve and the stream reaches its tip,
    the script exits with code 0 whatever the sink answered to the insert
    calls, and its last messages report the number of logs read, the sum of
    the decoded values and that the data was saved, followed by the closing
    of the connection. *)
Theorem rejected_inserts_do_not_fail_the_run (env : Env)
    (argv2 : option string) (pages : list (Response * Z)) (info : ChainInfo) :
  lookupChain CHAIN_CONFIG (CHAIN_ID argv2) = Some info ->
  setupOk env = true ->
  closeOk env = true ->
  allDatable pages = true ->
  exitCode (program env argv2 (streamOf pages)) = 0
  /\ exists pre,
       program env argv2 (streamOf pages)
       = pre ++ [Console (MsgScanComplete (List.length (allLogs pages)));
                 Console (MsgTotalValue (JS.toString (sumValues (allLogs pages))));
                 Console (MsgSaved
                            ("erc20_transfers_"
                             ++ JS.toString (CHAIN_ID argv2))%string);
                 Close true].
Proof.
  intros Hl Hs Hc Hd.
  rewrite (program_after_setup env argv2 _ info Hl Hs), Hc.
  unfold ingest, bind. rewrite streamOf_prepend.
  destruct (streamLoop_prefix env BATCH_SIZE
              ("erc20_transfers_" ++ JS.toString (CHAIN_ID argv2))%string
              pages Tip Hd initialLocals (setupTrace info (CHAIN_ID argv2)))
    as (st1 & t1 & mid & Hp & _ & He & Hv & _).
  rewrite Hp, streamLoop_Tip, finalFlush_trace. unfold ret.
  cbn in He, Hv. rewrite He, Hv, app_nil_r.
  split.
  - unfold exitCode. now rewrite last_app_cons.
  - eexists. reflexivity.
Qed.

Lemma rejected_inserts_do_not_fail_the_run_witness :
  exitCode (program deafEnv (Some "10"%string) (streamOf scenario)) = 0.
Proof.
  destruct (rejected_inserts_do_not_fail_the_run deafEnv (Some "10"%string)
              scenario
              {| name := "Optimism"; hypersyncUrl := "http://10.hypersync.xyz" |}
              eq_refl eq_refl eq_refl eq_refl) as [H _].
  exact H.
Defined.

(* ================================================================== *)
(** ** Dates that cannot be formatted *)

Lemma sqlDateTime_None ms : sqlDateTime ms = None <-> JS.maxTime < Z.abs ms.
Proof.
  unfold sqlDateTime, JS.toISOString.
  destruct (Z.leb_spec (Z.abs ms) JS.maxTime) as [H|H].
  - destruct (JS.civil (ms / 86400000)) as [[y m] d]. cbn.
    split; [discriminate | lia].
  - cbn. split; [intros _; exact H | reflexivity].
Qed.

(** X9. A page with a log list, even an empty one, whose date is out of
    the range of JavaScript dates (more than 8.64e15 milliseconds from the
    epoch; the date is the timestamp of the first block, in seconds, times
    1000) ends the run at that page: the formatting of the date raises
    outside any [try], no record of the page is built, the rest of the stream
    is not requested and the rows in the buffer are not flushed. *)
Theorem invalid_date_aborts (env : Env) (cap : nat) (tb : string)
    (res : Response) (now : Z) (rest : Stream) (st : Locals) (t : Trace)
    (d : ResponseData) (ls : list Log) :
  data res = Some d -> logs d = Some ls ->
  JS.maxTime < Z.abs (timeOf d now) ->
  datable res now = false
  /\ ingest env cap tb (Page res now rest) st t = (Throw, t ++ [Recv]).
Proof.
  intros Hd Hl Ht. apply sqlDateTime_None in Ht.
  assert (Hdate : datable res now = false)
    by (unfold datable; now rewrite Hd, Hl, Ht).
  split; [exact Hdate|].
  rewrite ingest_Page.
  now rewrite (onPage_invalidDate env cap tb res now st _ Hdate).
Qed.

Lemma invalid_date_aborts_witness :
  ingest quietEnv BATCH_SIZE "erc20_transfers_130"
    (Page {| data := Some {| logs := Some [];
                             blocks := Some [ {| number := Some 1;
                                                 timestamp := Some 8640000000001 |} ] |};
             nextBlock := 2 |} 0 (streamOf scenario))
    initialLocals []
  = (Throw, [Recv]).
Proof.
  destruct (invalid_date_aborts quietEnv BATCH_SIZE "erc20_transfers_130"
              {| data := Some {| logs := Some [];
                                 blocks := Some [ {| number := Some 1;
                                                     timestamp := Some 8640000000001 |} ] |};
                 nextBlock := 2 |} 0 (streamOf scenario) initialLocals []
              {| logs := Some [];
                 blocks := Some [ {| number := Some 1;
                                     timestamp := Some 8640000000001 |} ] |}
              [] eq_refl eq_refl ltac:(vm_compute; reflexivity)) as [_ H].
  exact H.
Defined.

(** The dates of the pages can be formatted exactly when they are in the
    range of JavaScript dates. *)
Lemma datable_true res now :
  datable res now = true
  <-> match data res with
      | Some d => match logs d with
                  | Some _ => Z.abs (timeOf d now) <= JS.maxTime
                  | None => True
                  end
      | None => True
      end.
Proof.
  unfold datable. destruct (data res) as [d|]; [|tauto].
  destruct (logs d) as [ls|]; [|tauto].
  pose proof (sqlDateTime_None (timeOf d now)) as H.
  destruct (sqlDateTime (timeOf d now)).
  - split; [intros _|reflexivity].
    destruct (Z.le_gt_cases (Z.abs (timeOf d now)) JS.maxTime) as [E|E];
      [exact E|]. apply Z.gt_lt_iff, Z.gt_lt in E.
    apply H in E. discriminate.
  - split; [discriminate|]. intros E.
    assert (JS.maxTime < Z.abs (timeOf d now)) by now apply H. lia.
Qed.

(* ================================================================== *)
(** ** Table names and chain identifiers *)

Lemma append_inj_l (p a b : string) :
  (p ++ a)%string = (p ++ b)%string -> a = b.
Proof.
  induction p as [|c p IH]; cbn; [auto|].
  intros [= H]. auto.
Qed.

Lemma initializeDatabase_name env id t tbn :
  fst (initializeDatabase env id t) = Ok tbn ->
  tbn = ("erc20_transfers_" ++ JS.toString id)%string.
Proof.
  unfold initializeDatabase, bind, emit, command, ret.
  repeat match goal with
         | |- context [commandOk env ?k] =>
             destruct (commandOk env k); cbn [fst]; try discriminate
         end.
  now intros [= <-].
Qed.

(** X10. Distinct chain identifiers never share a table: the names
    [initializeDatabase] returns for two different identifiers are
    different, and so are the tables the rows are inserted into. *)
Theorem tables_are_per_chain (env : Env) (a b : Z) (t u : Trace)
    (na nb : string) :
  a <> b ->
  fst (initializeDatabase env a t) = Ok na ->
  fst (initializeDatabase env b u) = Ok nb ->
  na <> nb /\ sinkTable a <> sinkTable b.
Proof.
  intros Hab Ha Hb.
  apply initializeDatabase_name in Ha. apply initializeDatabase_name in Hb.
  subst na nb. split; intros H; apply Hab.
  - apply append_inj_l in H. now apply toString_inj.
  - unfold sinkTable in H. do 2 apply append_inj_l in H.
    now apply toString_inj.
Qed.

Lemma tables_are_per_chain_witness :
  "erc20_transfers_1"%string <> "erc20_transfers_10"%string
  /\ sinkTable 1 <> sinkTable 10.
Proof.
  apply (tables_are_per_chain quietEnv 1 10 [] []
           "erc20_transfers_1" "erc20_transfers_10");
    [discriminate | reflexivity | reflexivity].
Defined.

(** *** Decimal arguments *)

Lemma readDigits_uint d : forall a,
  JS.readDigits 10 (NilEmpty.string_of_uint d) (Some a) = Some (valU d a).
Proof.
  induction d; intros a; cbn [NilEmpty.string_of_uint JS.readDigits valU];
    try reflexivity;
    match goal with
    | |- context [JS.digitOf 10 ?c] =>
        let v := eval vm_compute in (JS.digitOf 10 c) in
        change (JS.digitOf 10 c) with v
    end; cbv iota; apply IHd.
Qed.

Lemma readDigits_start d :
  d <> Nil ->
  JS.readDigits 10 (NilEmpty.string_of_uint d) None = Some (valU d 0).
Proof.
  destruct d; intros H; try congruence;
    cbn [NilEmpty.string_of_uint JS.readDigits valU];
    match goal with
    | |- context [JS.digitOf 10 ?c] =>
        let v := eval vm_compute in (JS.digitOf 10 c) in
        change (JS.digitOf 10 c) with v
    end; cbv iota; apply readDigits_uint.
Qed.

Lemma valU_pos d : forall acc, valU d (Zpos acc) = Zpos (Pos.of_uint_acc d acc).
Proof.
  induction d; intros acc; cbn [valU Pos.of_uint_acc]; try reflexivity;
    rewrite <- IHd; f_equal; lia.
Qed.

Lemma valU_of_uint d : valU d 0 = Z.of_N (Pos.of_uint d).
Proof.
  induction d; cbn [valU Pos.of_uint]; try reflexivity;
    try exact IHd; cbn [Z.mul Z.add Z.of_N]; apply valU_pos.
Qed.

Lemma parseIntString_uint d :
  d <> Nil ->
  JS.parseIntString (NilEmpty.string_of_uint d) = Some (valU d 0).
Proof.
  intros H.
  assert (E : JS.parseIntString (NilEmpty.string_of_uint d)
              = match JS.readDigits 10 (NilEmpty.string_of_uint d) None with
                | Some v => Some v
                | None => None
                end).
  { destruct d as [|l|l|l|l|l|l|l|l|l|l]; try congruence; try reflexivity.
    destruct l; reflexivity. }
  rewrite E, (readDigits_start d H). reflexivity.
Qed.

Lemma parseIntString_neg d :
  d <> Nil ->
  JS.parseIntString (String "-" (NilEmpty.string_of_uint d))
  = Some (- valU d 0).
Proof.
  intros H.
  assert (E : JS.parseIntString (String "-" (NilEmpty.string_of_uint d))
              = match JS.readDigits 10 (NilEmpty.string_of_uint d) None with
                | Some v => Some (- v)
                | None => None
                end).
  { destruct d as [|l|l|l|l|l|l|l|l|l|l]; try congruence; try reflexivity.
    destruct l; reflexivity. }
  rewrite E, (readDigits_start d H). reflexivity.
Qed.

Lemma parseIntString_toString (n : Z) :
  JS.parseIntString (JS.toString n) = Some n.
Proof.
  unfold JS.toString. destruct n as [|p|p]; [reflexivity| |].
  - cbn [Z.to_int NilZero.string_of_int].
    pose proof (DecimalPos.Unsigned.to_uint_nonnil p) as Hn.
    unfold NilZero.string_of_uint.
    destruct (Pos.to_uint p) eqn:E; try congruence;
      rewrite (parseIntString_uint _ Hn), valU_of_uint, <- E,
        DecimalPos.Unsigned.of_to; reflexivity.
  - cbn [Z.to_int NilZero.string_of_int].
    pose proof (DecimalPos.Unsigned.to_uint_nonnil p) as Hn.
    unfold NilZero.string_of_uint.
    destruct (Pos.to_uint p) eqn:E; try congruence;
      rewrite (parseIntString_neg _ Hn), valU_of_uint, <- E,
        DecimalPos.Unsigned.of_to; reflexivity.
Qed.

(** X11. A chain identifier written in decimal on the command line, within
    the safe integers, is read back exactly: the script settles on the
    integer the argument denotes, except for 0, which gives the default 130;
    the table it sets up is named by the argument itself. *)
Theorem decimal_argument_round_trip (env : Env) (n : Z) (t : Trace)
    (tbn : string) :
  Z.abs n <= MAX_SAFE_INTEGER ->
  n <> 0 ->
  fst (initializeDatabase env (CHAIN_ID (Some (JS.toString n))) t) = Ok tbn ->
  CHAIN_ID (Some (JS.toString n)) = n
  /\ CHAIN_ID (Some (JS.toString 0)) = 130
  /\ tbn = ("erc20_transfers_" ++ JS.toString n)%string.
Proof.
  intros _ Hn Ht.
  assert (Hid : CHAIN_ID (Some (JS.toString n)) = n).
  { unfold CHAIN_ID, JS.parseInt. rewrite parseIntString_toString.
    unfold JS.orNumber. destruct (Z.eqb_spec n 0); congruence. }
  split; [exact Hid|]. split; [reflexivity|].
  apply initializeDatabase_name in Ht. now rewrite Hid in Ht.
Qed.

Lemma decimal_argument_round_trip_witness :
  CHAIN_ID (Some (JS.toString 42161)) = 42161.
Proof.
  destruct (decimal_argument_round_trip quietEnv 42161 []
              "erc20_transfers_42161" ltac:(unfold MAX_SAFE_INTEGER; lia)
              ltac:(discriminate) eq_refl) as [H _].
  exact H.
Defined.

(* ================================================================== *)
(** ** The scanner without a sink *)

Lemma legacy_scan_value next ls sc :
  Legacy.scanValue (fold_left (Legacy.processLog next) (map decoded ls) sc)
  = Legacy.scanValue sc + sumValues ls.
Proof.
  revert sc. induction ls as [|l ls IH]; intros sc; cbn [map fold_left].
  - cbn. lia.
  - rewrite IH, sumValues_cons. unfold Legacy.processLog, valueOf.
    destruct (decoded l); cbn [Legacy.scanValue]; lia.
Qed.

Lemma legacy_onPage_locals res st :
  fst (Legacy.onPage res st)
  = {| Legacy.totalEvents :=
         (Legacy.totalEvents st + List.length (logsOf res))%nat;
       Legacy.totalTransferValue :=
         Legacy.totalTransferValue st + sumValues (logsOf res);
       Legacy.fromBlock :=
         if Z.eqb (nextBlock res) 0 then Legacy.fromBlock st
         else nextBlock res |}.
Proof.
  unfold Legacy.onPage, logsOf.
  destruct (data res) as [d|]; [destruct (logs d) as [ls|]|]; cbn [fst].
  - now rewrite legacy_scan_value.
  - cbn. now rewrite Nat.add_0_r, Z.add_0_r.
  - cbn. now rewrite Nat.add_0_r, Z.add_0_r.
Qed.

Lemma legacy_onPage_no_recv res st : legacyRecvs (snd (Legacy.onPage res st)) = 0%nat.
Proof.
  unfold Legacy.onPage, legacyRecvs.
  destruct (data res) as [d|]; [destruct (logs d) as [ls|]|]; cbn [snd];
    try reflexivity.
  rewrite filter_app, length_app. cbn.
  set (sc0 := {| Legacy.scanValue := Legacy.totalTransferValue st;
                 Legacy.scanPrinted := false; Legacy.scanOutput := [] |}).
  assert (H : forall lgs sc,
             filter (fun e => match e with Legacy.Recv => true | _ => false end)
               (Legacy.scanOutput sc) = [] ->
             filter (fun e => match e with Legacy.Recv => true | _ => false end)
               (Legacy.scanOutput
                  (fold_left (Legacy.processLog (nextBlock res)) lgs sc)) = []).
  { induction lgs as [|lg lgs IH]; intros sc Hsc; [exact Hsc|].
    cbn [fold_left]. apply IH. unfold Legacy.processLog.
    destruct lg as [ev|]; [|exact Hsc]. cbn [Legacy.scanOutput].
    destruct (Legacy.scanPrinted sc); [exact Hsc|].
    rewrite filter_app, Hsc. reflexivity. }
  rewrite (H (map decoded ls) sc0 eq_refl). reflexivity.
Qed.

(** The legacy loop over a list of pages, whatever follows them. *)
Lemma legacy_prefix pages s :
  forall st,
  exists st1 out,
    Legacy.streamLoop (prepend pages s) st
    = (fst (Legacy.streamLoop s st1), out ++ snd (Legacy.streamLoop s st1))
    /\ Legacy.totalEvents st1
       = (Legacy.totalEvents st + List.length (allLogs pages))%nat
    /\ Legacy.totalTransferValue st1
       = Legacy.totalTransferValue st + sumValues (allLogs pages)
    /\ Legacy.fromBlock st1 = cursorAfter pages (Legacy.fromBlock st)
    /\ legacyRecvs out = List.length pages.
Proof.
  induction pages as [|[res now] pages IH]; intros st.
  - exists st, []. cbn. rewrite Nat.add_0_r, Z.add_0_r.
    destruct (Legacy.streamLoop s st). repeat split; reflexivity.
  - cbn [prepend Legacy.streamLoop].
    pose proof (legacy_onPage_locals res st) as Hloc.
    pose proof (legacy_onPage_no_recv res st) as Hrec.
    destruct (Legacy.onPage res st) as [st' out]. cbn [fst snd] in Hloc, Hrec.
    destruct (IH st') as (st1 & out1 & Hl & He & Hv & Hc & Hr).
    rewrite Hl. exists st1, (Legacy.Recv :: out ++ out1).
    split; [now rewrite <- app_comm_cons, <- app_assoc|].
    subst st'. cbn [Legacy.totalEvents Legacy.totalTransferValue Legacy.fromBlock]
      in He, Hv, Hc.
    split.
    { rewrite He. unfold allLogs. cbn [flat_map fst]. rewrite length_app. lia. }
    split.
    { rewrite Hv. unfold allLogs. cbn [flat_map fst].
      rewrite sumValues_app. lia. }
    split; [exact Hc|].
    unfold legacyRecvs in *. cbn [filter List.length].
    rewrite filter_app, length_app, Hrec, Hr. cbn [List.length]. lia.
Qed.

(** X12. The scanner without a sink completes on every stream that
    reaches its tip, whatever the pages hold: it asks for each page once and
    reports the number of logs of the pages, malformed ones included, and the
    sum of the values of the logs that decode; its cursor ends at the last
    non-zero position reported. *)
Theorem legacy_scan_totals (pages : list (Response * Z)) :
  exists st out pre,
    Legacy.streamLoop (streamOf pages) Legacy.initialLocals = (Some st, out)
    /\ Legacy.totalEvents st = List.length (allLogs pages)
    /\ Legacy.totalTransferValue st = sumValues (allLogs pages)
    /\ Legacy.fromBlock st = cursorAfter pages 0
    /\ legacyRecvs out = S (List.length pages)
    /\ Legacy.program true (streamOf pages)
       = pre ++ [Legacy.Console
                   (Legacy.MsgScanComplete (List.length (allLogs pages)));
                 Legacy.Console
                   (Legacy.MsgTotalValue
                      (JS.toString (sumValues (allLogs pages))))].
Proof.
  rewrite streamOf_prepend.
  destruct (legacy_prefix pages Tip Legacy.initialLocals)
    as (st1 & out & Hl & He & Hv & Hc & Hr).
  cbn [Legacy.streamLoop fst snd] in Hl.
  cbn in He, Hv, Hc.
  eexists st1, _, _. split; [exact Hl|].
  split; [exact He|]. split; [exact Hv|]. split; [exact Hc|].
  split.
  { unfold legacyRecvs in *. rewrite filter_app, length_app, Hr. cbn. lia. }
  unfold Legacy.program. rewrite Hl, He, Hv.
  rewrite app_assoc. reflexivity.
Qed.

(** X13. On a stream that reaches its tip and whose page dates can be
    formatted, the collector and the scanner without a sink end with the
    same counters and the same cursor, whatever the sink answers. *)
Theorem collector_agrees_with_scanner (env : Env) (cap : nat) (tb : string)
    (pages : list (Response * Z)) :
  allDatable pages = true ->
  exists st' t' st out,
    ingest env cap tb (streamOf pages) initialLocals [] = (Ok st', t')
    /\ Legacy.streamLoop (streamOf pages) Legacy.initialLocals = (Some st, out)
    /\ Legacy.totalEvents st = totalEvents st'
    /\ Legacy.totalTransferValue st = totalTransferValue st'
    /\ Legacy.fromBlock st = fromBlock st'
    /\ legacyRecvs out = countOf isRecv t'.
Proof.
  intros Hd. unfold ingest, bind. rewrite streamOf_prepend.
  destruct (streamLoop_prefix env cap tb pages Tip Hd initialLocals [])
    as (st1 & t1 & mid & Hl & _ & He & Hv & Hc & Hr & _).
  destruct (legacy_prefix pages Tip Legacy.initialLocals)
    as (ls & out & Hl' & He' & Hv' & Hc' & Hr').
  rewrite Hl, streamLoop_Tip.
  destruct (finalFlush_facts env tb st1 (t1 ++ [Recv; Console MsgTip]))
    as (u & -> & _ & Hru).
  unfold ret. cbn [Legacy.streamLoop fst snd] in Hl'.
  eexists st1, _, ls, _. split; [reflexivity|]. split; [exact Hl'|].
  cbn in He, Hv, Hc, He', Hv', Hc', Hr.
  split; [now rewrite He, He'|]. split; [now rewrite Hv, Hv'|].
  split; [now rewrite Hc, Hc'|].
  rewrite !countOf_app, Hr, Hru. unfold legacyRecvs in *.
  rewrite filter_app, length_app, Hr'. cbn. lia.
Qed.

Lemma collector_agrees_with_scanner_witness :
  exists st' t' st out,
    ingest flakyEnv 2 "erc20_transfers_130" (streamOf scenario)
      initialLocals [] = (Ok st', t')
    /\ Legacy.streamLoop (streamOf scenario) Legacy.initialLocals
       = (Some st, out)
    /\ Legacy.totalEvents st = totalEvents st'
    /\ Legacy.totalTransferValue st = totalTransferValue st'.
Proof.
  destruct (collector_agrees_with_scanner flakyEnv 2 "erc20_transfers_130"
              scenario eq_refl)
    as (st' & t' & st & out & H1 & H2 & H3 & H4 & _).
  exists st', t', st, out. repeat split; assumption.
Defined.

(* ================================================================== *)
(** ** The token metadata loader *)

(** *** File names *)

Lemma stripPrefix_app p s : Tokens.stripPrefix p (p ++ s)%string = Some s.
Proof.
  induction p as [|a p IH]; cbn; [reflexivity|].
  now rewrite Ascii.eqb_refl.
Qed.

Lemma stripPrefix_Some p s r :
  Tokens.stripPrefix p s = Some r -> s = (p ++ r)%string.
Proof.
  revert s. induction p as [|a p IH]; intros s; cbn.
  - now intros [= ->].
  - destruct s as [|b s]; [discriminate|].
    destruct (Ascii.eqb_spec a b) as [->|]; [|discriminate].
    intros H. now rewrite (IH s H).
Qed.

Lemma spanDigits_app s :
  (fst (Tokens.spanDigits s) ++ snd (Tokens.spanDigits s))%string = s.
Proof.
  induction s as [|c s IH]; cbn; [reflexivity|].
  destruct (Tokens.isDigit c); [|reflexivity].
  destruct (Tokens.spanDigits s) as [ds rest]. cbn in *. now rewrite IH.
Qed.

Lemma spanDigits_uint d :
  Tokens.spanDigits (NilEmpty.string_of_uint d ++ ".json")%string
  = (NilEmpty.string_of_uint d, ".json"%string).
Proof.
  induction d; cbn [NilEmpty.string_of_uint String.append]; try reflexivity;
    cbn [Tokens.spanDigits];
    match goal with
    | |- context [Tokens.isDigit ?c] =>
        change (Tokens.isDigit c) with true
    end; cbv iota; now rewrite IHd.
Qed.

Lemma toString_nonneg_uint n :
  0 <= n ->
  exists d, d <> Nil /\ JS.toString n = NilEmpty.string_of_uint d.
Proof.
  intros Hn. unfold JS.toString. destruct n as [|p|p]; [| |lia].
  - exists (D0 Nil). split; [discriminate | reflexivity].
  - exists (Pos.to_uint p).
    pose proof (DecimalPos.Unsigned.to_uint_nonnil p) as Hp.
    split; [exact Hp|]. cbn. unfold NilZero.string_of_uint.
    destruct (Pos.to_uint p); [congruence|reflexivity..].
Qed.

Lemma spanDigits_digits s : forall ds rest,
  Tokens.spanDigits s = (ds, rest) -> Tokens.spanDigits ds = (ds, ""%string).
Proof.
  induction s as [|c s IH]; intros ds rest; cbn.
  - now intros [= <- _].
  - destruct (Tokens.isDigit c) eqn:Hc.
    + destruct (Tokens.spanDigits s) as [ds1 rest1].
      intros [= <- _]. cbn. rewrite Hc. now rewrite (IH ds1 rest1 eq_refl).
    + now intros [= <- _].
Qed.

Lemma search_Some s ds :
  Tokens.search s = Some ds ->
  exists pre, s = (pre ++ "tokenMetadata_" ++ ds ++ ".json")%string
              /\ ds <> ""%string
              /\ Tokens.spanDigits ds = (ds, ""%string).
Proof.
  induction s as [|c s IH].
  - cbn. discriminate.
  - cbn [Tokens.search].
    destruct (Tokens.matchHere (String c s)) as [ds'|] eqn:Hm.
    + intros [= ->]. exists ""%string. unfold Tokens.matchHere in Hm.
      destruct (Tokens.stripPrefix "tokenMetadata_" (String c s)) as [r|] eqn:Hp;
        [|discriminate].
      apply stripPrefix_Some in Hp.
      pose proof (spanDigits_app r) as Hr.
      destruct (Tokens.spanDigits r) as [ds0 rest] eqn:Hs. cbn [fst snd] in Hr.
      destruct (String.eqb_spec ds0 ""); cbn [negb andb] in Hm; [discriminate|].
      destruct (String.eqb_spec rest ".json"); [|discriminate].
      injection Hm as <-. subst rest.
      split; [now rewrite Hp, <- Hr|]. split; [assumption|].
      exact (spanDigits_digits r ds0 ".json"%string Hs).
    + intros H. destruct (IH H) as (pre & -> & Hne & Hd).
      now exists (String c pre).
Qed.

Lemma search_matchHere s ds :
  Tokens.matchHere s = Some ds -> Tokens.search s = Some ds.
Proof.
  intros H. destruct s as [|c s]; cbn [Tokens.search]; now rewrite H.
Qed.

(** X14. [extractChainId] reads the chain identifier back from the name
    of a metadata file: the name made of [tokenMetadata_], the decimal digits
    of a non-negative safe integer and [.json] gives that integer; and
    whenever it gives an integer, the name ends with [tokenMetadata_], a
    non-empty run of digits that [parseInt] reads as that integer, and
    [.json]. *)
Theorem extractChainId_round_trip (n : Z) (s : string) (m : Z) :
  0 <= n <= MAX_SAFE_INTEGER ->
  Tokens.extractChainId ("tokenMetadata_" ++ JS.toString n ++ ".json")%string
  = Some n
  /\ (Tokens.extractChainId s = Some m ->
      exists pre ds,
        s = (pre ++ "tokenMetadata_" ++ ds ++ ".json")%string
        /\ ds <> ""%string
        /\ Tokens.spanDigits ds = (ds, ""%string)
        /\ JS.parseIntString ds = Some m).
Proof.
  intros [Hn _]. split.
  - unfold Tokens.extractChainId.
    assert (Hm : Tokens.matchHere
                   ("tokenMetadata_" ++ JS.toString n ++ ".json")%string
                 = Some (JS.toString n)).
    { unfold Tokens.matchHere. rewrite stripPrefix_app.
      destruct (toString_nonneg_uint n Hn) as (d & Hd & ->).
      rewrite spanDigits_uint.
      destruct d; try congruence; reflexivity. }
    rewrite (search_matchHere _ _ Hm). apply parseIntString_toString.
  - unfold Tokens.extractChainId.
    destruct (Tokens.search s) as [ds|] eqn:Hs; [|discriminate].
    intros Hp. destruct (search_Some s ds Hs) as (pre & -> & Hne & Hd).
    now exists pre, ds.
Qed.

Lemma extractChainId_round_trip_witness :
  Tokens.extractChainId ("tokenMetadata_" ++ JS.toString 8453 ++ ".json")%string
  = Some 8453.
Proof.
  destruct (extractChainId_round_trip 8453 "tokenMetadata_1.json" 1
              ltac:(unfold MAX_SAFE_INTEGER; lia)) as [H _].
  exact H.
Defined.

Example extractChainId_examples :
  map Tokens.extractChainId
    ["tokenMetadata_8453.json"; "tokenMetadata_.json";
     "tokenMetadata_12.json.bak"; "tokenMetadata_0012.json";
     "tokenMetadata_1a.json"; "tokenMetadata_0.json"; "README.md"]%string
  = [Some 8453; None; None; Some 12; None; Some 0; None].
Proof. reflexivity. Qed.

(** *** The loop over the entries of a file *)

(** A run of digits is read by [parseInt] in base 10, as a non-negative
    integer. *)
Lemma isDigit_digitOf c :
  Tokens.isDigit c = true -> exists d, JS.digitOf 10 c = Some d /\ 0 <= d.
Proof.
  destruct c as [[] [] [] [] [] [] [] []];
    try (intros H; vm_compute in H; discriminate H);
    intros _; eexists; (split; [reflexivity|]);
    apply Z.leb_le; reflexivity.
Qed.

Lemma readDigits_nonneg : forall s acc v,
  Tokens.spanDigits s = (s, ""%string) ->
  match acc with Some a => 0 <= a | None => True end ->
  JS.readDigits 10 s acc = Some v -> 0 <= v.
Proof.
  induction s as [|c r IH]; intros acc v Hs Ha; cbn [JS.readDigits].
  - intros ->. exact Ha.
  - cbn [Tokens.spanDigits] in Hs.
    destruct (Tokens.isDigit c) eqn:Hc; [|discriminate].
    destruct (Tokens.spanDigits r) as [ds rest] eqn:Hr.
    injection Hs as -> ->.
    destruct (isDigit_digitOf c Hc) as (d & -> & Hd).
    apply IH; [reflexivity|]. destruct acc; lia.
Qed.

Lemma parseIntString_digits ds :
  Tokens.spanDigits ds = (ds, ""%string) ->
  JS.parseIntString ds
  = match JS.readDigits 10 ds None with
    | Some v => Some v
    | None => None
    end.
Proof.
  destruct ds as [|c r]; [reflexivity|]. cbn [Tokens.spanDigits].
  destruct (Tokens.isDigit c) eqn:Hc; [|discriminate].
  destruct (Tokens.spanDigits r) as [ds rest] eqn:Hr. intros [= -> ->].
  revert Hc.
  destruct c as [[] [] [] [] [] [] [] []];
    try (intros H; vm_compute in H; discriminate H);
    intros _; try reflexivity.
  destruct r as [|c2 r2]; [reflexivity|].
  cbn [Tokens.spanDigits] in Hr.
  destruct (Tokens.isDigit c2) eqn:Hc2; [|discriminate].
  clear Hr. revert Hc2.
  destruct c2 as [[] [] [] [] [] [] [] []];
    try (intros H; vm_compute in H; discriminate H);
    intros _; reflexivity.
Qed.

Lemma extractChainId_nonneg f c :
  Tokens.extractChainId f = Some c -> 0 <= c.
Proof.
  unfold Tokens.extractChainId.
  destruct (Tokens.search f) as [ds|] eqn:Hs; [|discriminate].
  destruct (search_Some f ds Hs) as (pre & _ & _ & Hd).
  rewrite (parseIntString_digits ds Hd).
  destruct (JS.readDigits 10 ds None) as [v|] eqn:Hr; [|discriminate].
  intros [= <-]. exact (readDigits_nonneg ds None v Hd I Hr).
Qed.

Section LoaderFacts.

Variable Num : Type.
Variable numIsZero : Num -> bool.
Variable toLowerCase : string -> string.
Variable env : Env.

Abbreviation TRow := (Tokens.TokenRow Num).
Abbreviation TEvent := (Tokens.Event Num).
Abbreviation tokenLoop := (Tokens.tokenLoop Num numIsZero toLowerCase env).
Abbreviation validRows := (Tokens.validRows Num numIsZero toLowerCase).
Abbreviation rowOf := (Tokens.rowOf Num numIsZero toLowerCase).
Abbreviation tinserts := (@Tokens.inserts Num).
Abbreviation taccepted := (@Tokens.accepted Num).

Lemma tinserts_app (t u : list TEvent) :
  tinserts (t ++ u) = tinserts t ++ tinserts u.
Proof.
  induction t as [|e t IH]; cbn; [reflexivity|].
  destruct e; cbn; now rewrite IH.
Qed.

Lemma taccepted_app (t u : list TEvent) :
  taccepted (t ++ u) = taccepted t ++ taccepted u.
Proof.
  induction t as [|e t IH]; cbn; [reflexivity|].
  destruct e as [| | |tb vs [|]]; cbn; now rewrite IH.
Qed.

Lemma validRows_cons a td rest :
  validRows ((a, td) :: rest)
  = match rowOf a td with
    | Some row => row :: validRows rest
    | None => validRows rest
    end.
Proof.
  unfold Tokens.validRows. cbn [flat_map fst snd].
  destruct (rowOf a td); reflexivity.
Qed.

Lemma rowOf_JNull a : rowOf a (Tokens.JNull Num) = None.
Proof. reflexivity. Qed.

(** One turn of the loop, on an entry that is not [null]. *)
Lemma tokenLoop_cons cap tb a td rest batch count t :
  td <> Tokens.JNull Num ->
  tokenLoop cap tb ((a, td) :: rest) batch count t
  = match rowOf a td with
    | None =>
        tokenLoop cap tb rest batch count
          (t ++ [Tokens.Console Num (Tokens.MsgSkipping Num a td)])
    | Some row =>
        if Nat.leb cap (List.length (batch ++ [row])) then
          let ok := insertOk env (Tokens.countOf Num (@Tokens.isInsert Num) t) in
          let t1 := t ++ [Tokens.Insert Num ("token_intelligence." ++ tb)%string
                            (batch ++ [row]) ok] in
          if ok then
            tokenLoop cap tb rest [] (S count)
              (t1 ++ [Tokens.Console Num
                        (Tokens.MsgInsertedBatch Num
                           (List.length (batch ++ [row])) (S count))])
          else (Throw, t1)
        else tokenLoop cap tb rest (batch ++ [row]) (S count) t
    end.
Proof.
  intros Hnull. cbn [Tokens.tokenLoop].
  destruct td; try congruence;
    (destruct (rowOf a _) as [row|]; [|reflexivity];
     destruct (Nat.leb cap (List.length (batch ++ [row]))); [|reflexivity];
     unfold Tokens.bind at 1, Tokens.insertTokenBatch;
     rewrite length_app, Nat.add_comm; cbn [List.length Nat.add Nat.eqb];
     destruct (insertOk env _); reflexivity).
Qed.

Lemma tokenLoop_null cap tb a rest batch count t :
  tokenLoop cap tb ((a, Tokens.JNull Num) :: rest) batch count t = (Throw, t).
Proof. reflexivity. Qed.

Lemma json_null_dec (td : Tokens.Json Num) :
  {td = Tokens.JNull Num} + {td <> Tokens.JNull Num}.
Proof. destruct td; [now left | right; discriminate ..]. Qed.

(** The loop against a sink that accepts every insert, on entries none of
    which is [null]. *)
Lemma tokenLoop_resolved cap tb :
  (forall k, insertOk env k = true) -> (0 < cap)%nat ->
  forall entries batch count t,
  Tokens.noNull Num entries = true ->
  (List.length batch < cap)%nat ->
  exists batch' t' fl,
    tokenLoop cap tb entries batch count t
    = (Ok (batch', (count + List.length (validRows entries))%nat), t')
    /\ tinserts t' = tinserts t ++ fl
    /\ taccepted t' = taccepted t ++ fl
    /\ Forall (fun b => List.length b = cap) fl
    /\ List.concat fl ++ batch' = batch ++ validRows entries
    /\ (List.length batch' < cap)%nat.
Proof.
  intros Hok Hcap.
  induction entries as [|[a td] rest IH]; intros batch count t Hnn Hlen.
  - exists batch, t, []. cbn. rewrite !app_nil_r, Nat.add_0_r.
    repeat split; auto.
  - cbn [Tokens.noNull forallb snd] in Hnn.
    apply andb_true_iff in Hnn. destruct Hnn as [Hn1 Hn2].
    destruct (json_null_dec td) as [->|Hnull]; [discriminate|].
    rewrite (tokenLoop_cons cap tb a td rest batch count t Hnull).
    rewrite validRows_cons.
    destruct (rowOf a td) as [row|].
    + replace (count + List.length (row :: validRows rest))%nat
        with (S count + List.length (validRows rest))%nat
        by (cbn [List.length]; lia).
      destruct (Nat.leb_spec cap (List.length (batch ++ [row]))) as [Hfull|Hbelow].
      * rewrite Hok. cbv zeta.
        assert (Hexact : List.length (batch ++ [row]) = cap)
          by (rewrite length_app in *; cbn [List.length] in *; lia).
        destruct (IH [] (S count)
                    ((t ++ [Tokens.Insert Num
                              ("token_intelligence." ++ tb)%string
                              (batch ++ [row]) true])
                     ++ [Tokens.Console Num
                           (Tokens.MsgInsertedBatch Num
                              (List.length (batch ++ [row])) (S count))])
                    Hn2 Hcap)
          as (b' & t' & fl & Hl & Hi & Ha & Hf & Hc & Hb).
        exists b', t', ((batch ++ [row]) :: fl).
        rewrite Hl. split; [reflexivity|].
        rewrite !tinserts_app in Hi. rewrite !taccepted_app in Ha.
        cbn in Hi, Ha. rewrite !app_nil_r in Hi, Ha.
        split; [now rewrite Hi, <- app_assoc|].
        split; [now rewrite Ha, <- app_assoc|].
        split; [now constructor|].
        split; [|exact Hb].
        cbn [List.concat]. rewrite <- !app_assoc, Hc. reflexivity.
      * destruct (IH (batch ++ [row]) (S count) t Hn2 Hbelow)
          as (b' & t' & fl & Hl & Hi & Ha & Hf & Hc & Hb).
        exists b', t', fl.
        rewrite Hl. split; [reflexivity|].
        repeat split; auto. rewrite Hc, <- app_assoc. reflexivity.
    + destruct (IH batch count
                  (t ++ [Tokens.Console Num (Tokens.MsgSkipping Num a td)])
                  Hn2 Hlen)
        as (b' & t' & fl & Hl & Hi & Ha & Hf & Hc & Hb).
      exists b', t', fl. rewrite Hl. split; [reflexivity|].
      rewrite tinserts_app in Hi. rewrite taccepted_app in Ha.
      cbn in Hi, Ha. rewrite app_nil_r in Hi, Ha.
      repeat split; auto.
Qed.

(** The loop against any sink: the accepted rows are a prefix of the valid
    rows. *)
Lemma tokenLoop_any cap tb :
  forall entries batch count t,
  exists r t' rest,
    tokenLoop cap tb entries batch count t = (r, t')
    /\ List.concat (taccepted t') ++ rest
       = List.concat (taccepted t) ++ batch ++ validRows entries
    /\ match r with
       | Ok (b', _) => rest = b'
       | Throw => True
       end.
Proof.
  induction entries as [|[a td] rest IH]; intros batch count t.
  - exists (Ok (batch, count)), t, batch. cbn. rewrite app_nil_r. auto.
  - destruct (json_null_dec td) as [->|Hnull].
    + rewrite tokenLoop_null. exists Throw, t, (batch ++ validRows rest).
      rewrite validRows_cons, rowOf_JNull. auto.
    + rewrite (tokenLoop_cons cap tb a td rest batch count t Hnull).
      rewrite validRows_cons.
      destruct (rowOf a td) as [row|].
      * destruct (Nat.leb cap (List.length (batch ++ [row]))).
        -- cbv zeta. destruct (insertOk env _).
           ++ match goal with
              | |- context [tokenLoop cap tb rest [] (S count) ?w] =>
                  destruct (IH [] (S count) w) as (r & t' & rs & Hl & Hc & Hr)
              end.
              exists r, t', rs. split; [exact Hl|]. split; [|exact Hr].
              rewrite Hc, !taccepted_app. cbn.
              rewrite !app_nil_r, concat_app. cbn.
              rewrite !app_nil_r, <- !app_assoc. reflexivity.
           ++ eexists Throw, _, ((batch ++ [row]) ++ validRows rest).
              split; [reflexivity|]. split; [|exact I].
              rewrite taccepted_app. cbn.
              rewrite !app_nil_r, <- !app_assoc. reflexivity.
        -- destruct (IH (batch ++ [row]) (S count) t)
             as (r & t' & rs & Hl & Hc & Hr).
           exists r, t', rs. split; [exact Hl|]. split; [|exact Hr].
           rewrite Hc, <- !app_assoc. reflexivity.
      * match goal with
        | |- context [tokenLoop cap tb rest batch count ?w] =>
            destruct (IH batch count w) as (r & t' & rs & Hl & Hc & Hr)
        end.
        exists r, t', rs. split; [exact Hl|]. split; [|exact Hr].
        rewrite Hc, taccepted_app. cbn. rewrite !app_nil_r. reflexivity.
Qed.

Abbreviation initTable := (Tokens.initializeChainTokenTable Num env).
Abbreviation fileBody := (Tokens.fileBody Num numIsZero toLowerCase env).
Abbreviation processFileWith :=
  (Tokens.processFileWith Num numIsZero toLowerCase env).

(** The table setup adds no insert to the trace. *)
Lemma initTable_any chain t :
  exists r u,
    initTable chain t = (r, t ++ u)
    /\ tinserts u = [] /\ taccepted u = []
    /\ match r with
       | Ok table => table = ("token_metadata_" ++ JS.toString chain)%string
       | Throw => True
       end.
Proof.
  unfold Tokens.initializeChainTokenTable, Tokens.bind, Tokens.emit,
    Tokens.command, Tokens.ret.
  repeat match goal with
         | |- context [commandOk env ?k] => destruct (commandOk env k)
         end;
    rewrite <- ?app_assoc; eexists _, _; (split; [reflexivity|]);
    cbn; auto.
Qed.

Lemma initTable_resolved chain t :
  (forall k, commandOk env k = true) ->
  exists u,
    initTable chain t
    = (Ok ("token_metadata_" ++ JS.toString chain)%string, t ++ u)
    /\ tinserts u = [] /\ taccepted u = [].
Proof.
  intros Hc.
  unfold Tokens.initializeChainTokenTable, Tokens.bind, Tokens.emit,
    Tokens.command, Tokens.ret.
  rewrite !Hc. rewrite <- ?app_assoc. eexists. split; [reflexivity|].
  cbn. auto.
Qed.

(** The final flush of a file (lines 117-120). *)
Lemma finalTokens_step tb (b : list TRow) t :
  (if Nat.ltb 0 (List.length b) then
     Tokens.bind Num (Tokens.insertTokenBatch Num env b tb) (fun _ =>
     Tokens.emit Num (Tokens.Console Num
                        (Tokens.MsgInsertedFinal Num (List.length b))))
   else Tokens.ret Num tt) t
  = match b with
    | [] => (Ok tt, t)
    | _ :: _ =>
        if insertOk env (Tokens.countOf Num (@Tokens.isInsert Num) t) then
          (Ok tt,
           t ++ [Tokens.Insert Num ("token_intelligence." ++ tb)%string b true;
                 Tokens.Console Num
                   (Tokens.MsgInsertedFinal Num (List.length b))])
        else
          (Throw,
           t ++ [Tokens.Insert Num ("token_intelligence." ++ tb)%string b false])
    end.
Proof.
  destruct b as [|r b]; [reflexivity|].
  cbn [List.length Nat.ltb Nat.leb].
  unfold Tokens.bind, Tokens.insertTokenBatch, Tokens.emit.
  cbn [List.length Nat.eqb].
  destruct (insertOk env _); [|reflexivity].
  now rewrite <- app_assoc.
Qed.

(** X15. With a sink that accepts every statement and every insert, and a
    file none of whose entries is [null], [processMetadataFile] hands the
    valid rows to the sink in order, in batches of exactly 1000 followed,
    when rows remain, by one batch of fewer than 1000: ceil(K/1000) insert
    calls for K valid rows; it reports K tokens and the table
    [token_metadata_<chainId>]. *)
Theorem token_batches_are_exact (filePath : string) (chain : Z)
    (entries : list (string * Tokens.Json Num)) (t : list TEvent) :
  (forall k, commandOk env k = true) ->
  (forall k, insertOk env k = true) ->
  Tokens.noNull Num entries = true ->
  exists t' full last,
    Tokens.processMetadataFile Num numIsZero toLowerCase env filePath chain
      (Some entries) t
    = (Ok {| Tokens.chainId := chain;
             Tokens.tokenCount := List.length (validRows entries);
             Tokens.tableName :=
               Some ("token_metadata_" ++ JS.toString chain)%string |}, t')
    /\ tinserts t' = tinserts t ++ full ++ last
    /\ taccepted t' = taccepted t ++ full ++ last
    /\ Forall (fun b => List.length b = 1000%nat) full
    /\ (last = [] \/ exists b, last = [b]
                               /\ (0 < List.length b < 1000)%nat)
    /\ List.concat (full ++ last) = validRows entries
    /\ List.length (full ++ last)
       = ((List.length (validRows entries) + 999) / 1000)%nat.
Proof.
  intros Hcmd Hok Hnn.
  unfold Tokens.processMetadataFile, Tokens.processFileWith.
  unfold Tokens.bind at 1, Tokens.emit at 1, Tokens.tryCatch, Tokens.fileBody.
  unfold Tokens.bind at 1.
  destruct (initTable_resolved chain
              (t ++ [Tokens.Console Num (Tokens.MsgProcessing Num filePath chain)])
              Hcmd) as (u & -> & Hiu & Hau).
  unfold Tokens.bind at 1, Tokens.loadEntries.
  unfold Tokens.bind at 1.
  match goal with
  | |- context [tokenLoop 1000 ?tb entries [] 0 ?w] =>
      destruct (tokenLoop_resolved 1000 tb Hok ltac:(lia) entries [] 0%nat w Hnn
                  ltac:(cbn; lia))
        as (b' & t1 & fl & Hl & Hi & Ha & Hf & Hc & Hb)
  end.
  rewrite Hl. unfold Tokens.bind at 1. rewrite finalTokens_step.
  rewrite !tinserts_app, Hiu in Hi. rewrite !taccepted_app, Hau in Ha.
  cbn in Hi, Ha, Hc. rewrite !app_nil_r in Hi, Ha.
  assert (Hlen : List.length (validRows entries)
                 = (List.length fl * 1000 + List.length b')%nat).
  { rewrite <- Hc, length_app. f_equal.
    clear - Hf. induction Hf as [|b l Hb _ IH]; [reflexivity|].
    cbn [List.concat List.length]. rewrite length_app, IH, Hb. lia. }
  destruct b' as [|r b'].
  - unfold Tokens.bind, Tokens.emit, Tokens.ret.
    eexists _, fl, []. split; [reflexivity|].
    rewrite tinserts_app, taccepted_app, Hi, Ha, !app_nil_r.
    rewrite app_nil_r in Hc.
    split; [reflexivity|]. split; [reflexivity|].
    split; [exact Hf|]. split; [now left|]. split; [exact Hc|].
    apply Nat.div_unique with (r := 999%nat); [lia|].
    rewrite Hlen. cbn [List.length]. lia.
  - rewrite Hok. unfold Tokens.bind, Tokens.emit, Tokens.ret.
    eexists _, fl, [r :: b']. split; [reflexivity|].
    rewrite !tinserts_app, !taccepted_app, Hi, Ha.
    split; [cbn; now rewrite !app_nil_r, <- !app_assoc|].
    split; [cbn; now rewrite !app_nil_r, <- !app_assoc|].
    split; [exact Hf|].
    split.
    { right. exists (r :: b'). split; [reflexivity|].
      cbn [List.length] in *. lia. }
    split.
    { rewrite concat_app. cbn [List.concat]. now rewrite app_nil_r. }
    rewrite length_app.
    apply Nat.div_unique with (r := List.length b');
      [cbn [List.length] in Hb; lia|].
    rewrite Hlen. cbn [List.length]. lia.
Qed.

(** X16. [processMetadataFile] never raises: whatever the file holds and
    whatever the sink answers, it returns a result for the chain identifier
    it was given.  The rows the sink accepted are a prefix of the valid rows
    of the file, in order; when the file cannot be read they are none.  A
    result without a table name reports 0 tokens, whatever was accepted
    before the failure. *)
Theorem file_errors_are_contained (cap : nat) (filePath : string)
    (chain : Z) (content : option (list (string * Tokens.Json Num)))
    (t : list TEvent) :
  exists r t',
    processFileWith cap filePath chain content t = (Ok r, t')
    /\ Tokens.chainId r = chain
    /\ (Tokens.tableName r = None -> Tokens.tokenCount r = 0%nat)
    /\ match content with
       | Some entries =>
           exists rest,
             List.concat (taccepted t') ++ rest
             = List.concat (taccepted t) ++ validRows entries
       | None =>
           taccepted t' = taccepted t /\ Tokens.tableName r = None
       end.
Proof.
  unfold Tokens.processFileWith.
  unfold Tokens.bind at 1, Tokens.emit at 1, Tokens.tryCatch.
  set (t0 := t ++ [Tokens.Console Num (Tokens.MsgProcessing Num filePath chain)]).
  assert (Ht0 : taccepted t0 = taccepted t)
    by (unfold t0; rewrite taccepted_app; cbn; now rewrite app_nil_r).
  assert (Hbody :
            exists res t1,
              fileBody cap filePath chain content t0 = (res, t1)
              /\ match res with
                 | Ok r => Tokens.chainId r = chain
                           /\ Tokens.tableName r <> None
                 | Throw => True
                 end
              /\ match content with
                 | Some entries =>
                     exists rest,
                       List.concat (taccepted t1) ++ rest
                       = List.concat (taccepted t0) ++ validRows entries
                 | None => taccepted t1 = taccepted t0 /\ res = Throw
                 end).
  { unfold Tokens.fileBody. unfold Tokens.bind at 1.
    destruct (initTable_any chain t0) as (ri & u & -> & Hiu & Hau & Hri).
    assert (Hu : taccepted (t0 ++ u) = taccepted t0)
      by (now rewrite taccepted_app, Hau, app_nil_r).
    destruct ri as [table|].
    - unfold Tokens.bind at 1, Tokens.loadEntries.
      destruct content as [entries|].
      + unfold Tokens.bind at 1.
        match goal with
        | |- context [tokenLoop cap table entries [] 0 ?w] =>
            destruct (tokenLoop_any cap table entries [] 0%nat w)
              as (rl & t1 & rest & Hl & Hc & Hr);
            assert (Hw : taccepted w = taccepted t0)
              by (rewrite taccepted_app, Hu; cbn; now rewrite app_nil_r)
        end.
        rewrite Hl. rewrite Hw in Hc. cbn [app] in Hc.
        destruct rl as [[b' c']|].
        * subst rest. unfold Tokens.bind at 1. rewrite finalTokens_step.
          destruct b' as [|r b'].
          -- unfold Tokens.bind, Tokens.emit, Tokens.ret.
             eexists _, _. split; [reflexivity|].
             split; [split; [reflexivity | discriminate]|].
             exists []. rewrite taccepted_app. cbn.
             now rewrite !app_nil_r in *.
          -- destruct (insertOk env _).
             ++ unfold Tokens.bind, Tokens.emit, Tokens.ret.
                eexists _, _. split; [reflexivity|].
                split; [split; [reflexivity | discriminate]|].
                exists []. rewrite !taccepted_app. cbn.
                rewrite !app_nil_r, concat_app. cbn.
                now rewrite !app_nil_r.
             ++ eexists _, _. split; [reflexivity|]. split; [exact I|].
                exists (r :: b'). rewrite taccepted_app. cbn.
                now rewrite !app_nil_r.
        * eexists _, _. split; [reflexivity|]. split; [exact I|].
          now exists rest.
      + eexists _, _. split; [reflexivity|]. split; [exact I|].
        split; [|reflexivity].
        rewrite taccepted_app, Hu. cbn. now rewrite app_nil_r.
    - eexists _, _. split; [reflexivity|]. split; [exact I|].
      destruct content as [entries|].
      + exists (validRows entries). now rewrite Hu.
      + split; [exact Hu | reflexivity]. }
  destruct Hbody as (res & t1 & -> & Hres & Hcont).
  rewrite Ht0 in Hcont.
  destruct res as [r|].
  - exists r, t1. split; [reflexivity|]. destruct Hres as [Hc Hn].
    split; [exact Hc|]. split; [intros H; congruence|].
    destruct content as [entries|]; [exact Hcont|].
    destruct Hcont as [_ H]. discriminate.
  - unfold Tokens.bind, Tokens.emit, Tokens.ret.
    eexists _, _. split; [reflexivity|]. cbn.
    split; [reflexivity|]. split; [reflexivity|].
    destruct content as [entries|].
    + destruct Hcont as (rest & Hc). exists rest.
      rewrite taccepted_app. cbn. now rewrite app_nil_r.
    + destruct Hcont as [Hc _]. split; [|reflexivity].
      rewrite taccepted_app, Hc. cbn. now rewrite app_nil_r.
Qed.

(* ------------------------------------------------------------------ *)
(** *** The loop over the files *)

Variable contents : string -> option (list (string * Tokens.Json Num)).

Abbreviation tprocessed := (@Tokens.processed Num).
Abbreviation fileLoop :=
  (Tokens.fileLoop Num numIsZero toLowerCase env contents).
Abbreviation TResult := Tokens.FileResult.
Abbreviation TTotals := Tokens.Totals.

Lemma tprocessed_app (t u : list TEvent) :
  tprocessed (t ++ u) = tprocessed t ++ tprocessed u.
Proof.
  induction t as [|e t IH]; cbn; [reflexivity|].
  destruct e as [m| | |]; try exact IH.
  destruct m; try exact IH. cbn. now rewrite IH.
Qed.

(** The table setup and the loop over the entries start no file. *)
Lemma initTable_quiet chain t :
  exists r u,
    initTable chain t = (r, t ++ u) /\ tprocessed u = []
    /\ match r with
       | Ok table => table = ("token_metadata_" ++ JS.toString chain)%string
       | Throw => True
       end.
Proof.
  unfold Tokens.initializeChainTokenTable, Tokens.bind, Tokens.emit,
    Tokens.command, Tokens.ret.
  repeat match goal with
         | |- context [commandOk env ?k] => destruct (commandOk env k)
         end;
    rewrite <- ?app_assoc; eexists _, _; (split; [reflexivity|]);
    cbn; auto.
Qed.

Lemma tokenLoop_quiet cap tb :
  forall entries batch count t,
  exists r u,
    tokenLoop cap tb entries batch count t = (r, t ++ u)
    /\ tprocessed u = [].
Proof.
  induction entries as [|[a td] rest IH]; intros batch count t.
  - exists (Ok (batch, count)), []. cbn. now rewrite app_nil_r.
  - destruct (json_null_dec td) as [->|Hnull].
    + rewrite tokenLoop_null. exists Throw, []. now rewrite app_nil_r.
    + rewrite (tokenLoop_cons cap tb a td rest batch count t Hnull).
      destruct (rowOf a td) as [row|].
      * destruct (Nat.leb cap (List.length (batch ++ [row]))).
        -- cbv zeta. destruct (insertOk env _).
           ++ match goal with
              | |- context [tokenLoop cap tb rest [] (S count) ?w] =>
                  destruct (IH [] (S count) w) as (r & u & Hl & Hu)
              end.
              rewrite Hl, <- !app_assoc. eexists _, _.
              split; [reflexivity|]. rewrite !tprocessed_app, Hu. reflexivity.
           ++ eexists Throw, _. split; [reflexivity|]. reflexivity.
        -- apply IH.
      * match goal with
        | |- context [tokenLoop cap tb rest batch count ?w] =>
            destruct (IH batch count w) as (r & u & Hl & Hu)
        end.
        rewrite Hl, <- !app_assoc. eexists _, _.
        split; [reflexivity|]. rewrite !tprocessed_app, Hu. reflexivity.
Qed.

(** A file is announced once, and always gives a result. *)
Lemma processFileWith_shape cap filePath chain content t :
  exists r u,
    processFileWith cap filePath chain content t
    = (Ok r, t ++ Tokens.Console Num (Tokens.MsgProcessing Num filePath chain)
                 :: u)
    /\ tprocessed u = []
    /\ Tokens.chainId r = chain
    /\ (Tokens.tableName r = None -> Tokens.tokenCount r = 0%nat)
    /\ (forall tb, Tokens.tableName r = Some tb ->
                   tb = ("token_metadata_" ++ JS.toString chain)%string).
Proof.
  unfold Tokens.processFileWith.
  unfold Tokens.bind at 1, Tokens.emit at 1, Tokens.tryCatch.
  set (t0 := t ++ [Tokens.Console Num (Tokens.MsgProcessing Num filePath chain)]).
  assert (Hbody :
            exists res u,
              fileBody cap filePath chain content t0 = (res, t0 ++ u)
              /\ tprocessed u = []
              /\ match res with
                 | Ok r => Tokens.chainId r = chain
                           /\ Tokens.tableName r
                              = Some ("token_metadata_"
                                      ++ JS.toString chain)%string
                 | Throw => True
                 end).
  { unfold Tokens.fileBody. unfold Tokens.bind at 1.
    destruct (initTable_quiet chain t0) as (ri & u & -> & Hu & Hri).
    destruct ri as [table|]; [|now eexists _, _].
    subst table.
    unfold Tokens.bind at 1, Tokens.loadEntries.
    destruct content as [entries|].
    - unfold Tokens.bind at 1.
      match goal with
      | |- context [tokenLoop cap ?tb entries [] 0 ?w] =>
          destruct (tokenLoop_quiet cap tb entries [] 0%nat w)
            as (rl & u1 & Hl & Hu1)
      end.
      rewrite Hl, <- !app_assoc.
      destruct rl as [[b' c']|].
      + unfold Tokens.bind at 1. rewrite finalTokens_step.
        destruct b' as [|r b'].
        * unfold Tokens.bind, Tokens.emit, Tokens.ret.
          rewrite <- !app_assoc. eexists _, _. split; [reflexivity|].
          split; [|split; reflexivity].
          rewrite !tprocessed_app, Hu, Hu1. reflexivity.
        * destruct (insertOk env _).
          -- unfold Tokens.bind, Tokens.emit, Tokens.ret.
             rewrite <- !app_assoc. eexists _, _. split; [reflexivity|].
             split; [|split; reflexivity].
             rewrite !tprocessed_app, Hu, Hu1. reflexivity.
          -- rewrite <- !app_assoc. eexists _, _. split; [reflexivity|].
             split; [|exact I].
             rewrite !tprocessed_app, Hu, Hu1. reflexivity.
      + eexists _, _. split; [reflexivity|]. split; [|exact I].
        rewrite !tprocessed_app, Hu, Hu1. reflexivity.
    - rewrite <- app_assoc. eexists _, _. split; [reflexivity|].
      split; [|exact I]. rewrite tprocessed_app, Hu. reflexivity. }
  destruct Hbody as (res & u & -> & Hu & Hres).
  unfold t0. rewrite <- app_assoc. cbn [app].
  destruct res as [r|].
  - exists r, u. split; [reflexivity|]. destruct Hres as [Hc Hn].
    split; [exact Hu|]. split; [exact Hc|].
    split; [intros H; congruence|]. intros tb H. congruence.
  - unfold Tokens.bind, Tokens.emit, Tokens.ret.
    rewrite <- app_assoc. cbn [app]. eexists _, _. split; [reflexivity|].
    split; [rewrite tprocessed_app, Hu; reflexivity|].
    cbn. split; [reflexivity|]. split; [reflexivity|]. discriminate.
Qed.

Lemma fileLoop_any (Q : string -> Prop) :
  forall files (st : TTotals) t,
  Forall Q files ->
  exists st' t' calls tabs,
    fileLoop files st t = (Ok st', t')
    /\ tprocessed t' = tprocessed t ++ calls
    /\ Tokens.processedFiles st'
       = (Tokens.processedFiles st + List.length calls)%nat
    /\ Tokens.createdTables st' = Tokens.createdTables st ++ tabs
    /\ Tokens.totalTokens st'
       = (Tokens.totalTokens st + Tokens.tokensOf tabs)%nat
    /\ (List.length tabs <= List.length calls)%nat
    /\ Forall (fileCall Q) calls
    /\ Forall tableEntry tabs.
Proof.
  induction files as [|f rest IH]; intros st t HQ.
  - exists st, t, [], []. cbn. rewrite !app_nil_r, !Nat.add_0_r.
    repeat match goal with |- _ /\ _ => split end; auto.
  - inversion HQ as [|? ? Hf Hrest]; subst.
    cbn [Tokens.fileLoop].
    destruct (Tokens.extractChainId f) as [c|] eqn:Hc.
    + destruct (Z.eqb_spec c 0) as [->|Hnz].
      * unfold Tokens.bind at 1, Tokens.emit at 1.
        destruct (IH st (t ++ [Tokens.Console Num (Tokens.MsgNoChainId Num f)])
                    Hrest)
          as (st' & t' & calls & tabs & Hl & Hp & Hrestc).
        exists st', t', calls, tabs. split; [exact Hl|].
        rewrite tprocessed_app in Hp. cbn in Hp. rewrite app_nil_r in Hp.
        split; [exact Hp | exact Hrestc].
      * unfold Tokens.bind at 1, Tokens.loadFile, Tokens.processMetadataFile.
        unfold Tokens.bind at 1.
        destruct (processFileWith_shape 1000 (".cache/" ++ f)%string c
                    (contents (".cache/" ++ f)%string) t)
          as (r & u & -> & Hu & Hrc & Hnone & Hsome).
        unfold Tokens.bind at 1, Tokens.emit at 1, Tokens.ret.
        match goal with
        | |- context [fileLoop rest ?s ?w] =>
            destruct (IH s w Hrest)
              as (st' & t' & calls & tabs & Hl & Hp & Hn & Ht & Htot & Hle
                  & Hcalls & Htabs)
        end.
        rewrite Hl.
        assert (Hpos : 0 < c).
        { pose proof (extractChainId_nonneg f c Hc). lia. }
        cbn [Tokens.processedFiles Tokens.createdTables Tokens.totalTokens]
          in Hn, Ht, Htot.
        rewrite !tprocessed_app in Hp.
        cbn [Tokens.processed] in Hp. rewrite Hu in Hp.
        exists st', t', (((".cache/" ++ f)%string, c) :: calls),
          (if Tokens.hasTable r then r :: tabs else tabs).
        split; [reflexivity|].
        split; [rewrite Hp, <- !app_assoc; reflexivity|].
        split; [rewrite Hn; cbn [List.length]; lia|].
        assert (Hcall : fileCall Q ((".cache/" ++ f)%string, c))
          by (exists f; cbn [fst snd]; auto).
        unfold Tokens.hasTable in *.
        destruct (Tokens.tableName r) as [tb|] eqn:Htb.
        -- assert (Hne : negb (String.eqb tb "") = true)
             by (rewrite (Hsome tb eq_refl); reflexivity).
           rewrite Hne. rewrite Hne in Ht.
           split; [rewrite Ht, <- app_assoc; reflexivity|].
           split.
           { rewrite Htot. unfold Tokens.tokensOf. unfold list_sum. cbn [map fold_right]. lia. }
           split; [cbn [List.length]; lia|].
           split; [now constructor|].
           constructor; [|exact Htabs].
           split; [rewrite Hrc; exact Hpos|].
           rewrite Hrc, Htb. f_equal. now apply Hsome.
        -- split; [exact Ht|].
           split; [rewrite Htot, (Hnone eq_refl); lia|].
           split; [cbn [List.length]; lia|].
           split; [now constructor | exact Htabs].
    + unfold Tokens.bind at 1, Tokens.emit at 1.
      destruct (IH st (t ++ [Tokens.Console Num (Tokens.MsgNoChainId Num f)])
                  Hrest)
        as (st' & t' & calls & tabs & Hl & Hp & Hrestc).
      exists st', t', calls, tabs. split; [exact Hl|].
      rewrite tprocessed_app in Hp. cbn in Hp. rewrite app_nil_r in Hp.
      split; [exact Hp | exact Hrestc].
Qed.

(** X17. The loop of [main] over the metadata files never raises.  It
    calls [processMetadataFile] only for files of the directory whose name
    starts with [tokenMetadata_], ends with [.json] and carries a chain
    identifier that is positive (a file numbered 0 is skipped), with the path
    of the file in [.cache]; [processedFiles] counts these calls.  Every
    entry of [createdTables] names the table of its positive chain, and
    [totalTokens] is the sum of the tokens these entries report: a file that
    failed adds nothing to it. *)
Theorem file_loop_totals (files : list string) (t : list TEvent) :
  exists st t' calls,
    fileLoop (Tokens.metadataFiles files) Tokens.initialTotals t = (Ok st, t')
    /\ tprocessed t' = tprocessed t ++ calls
    /\ Tokens.processedFiles st = List.length calls
    /\ Forall (fileCall (fun f => In f files
                                  /\ Tokens.startsWith "tokenMetadata_" f = true
                                  /\ Tokens.endsWith ".json" f = true)) calls
    /\ Tokens.totalTokens st = Tokens.tokensOf (Tokens.createdTables st)
    /\ (List.length (Tokens.createdTables st) <= Tokens.processedFiles st)%nat
    /\ Forall tableEntry (Tokens.createdTables st).
Proof.
  destruct (fileLoop_any
              (fun f => In f files
                        /\ Tokens.startsWith "tokenMetadata_" f = true
                        /\ Tokens.endsWith ".json" f = true)
              (Tokens.metadataFiles files) Tokens.initialTotals t)
    as (st & t' & calls & tabs & Hl & Hp & Hn & Ht & Htot & Hle & Hc & Htb).
  { apply Forall_forall. intros f Hf. unfold Tokens.metadataFiles in Hf.
    apply filter_In in Hf. destruct Hf as [Hin Hb].
    apply andb_prop in Hb. tauto. }
  cbn in Hn, Ht, Htot.
  exists st, t', calls. rewrite Ht, Hn, Htot.
  repeat match goal with |- _ /\ _ => split end; auto.
Qed.

End LoaderFacts.

Lemma token_batches_are_exact_witness :
  exists t' b1 b2,
    Tokens.processMetadataFile Z (Z.eqb 0) toLowerAscii quietEnv
      ".cache/tokenMetadata_130.json" 130 (Some sampleEntries) []
    = (Ok {| Tokens.chainId := 130; Tokens.tokenCount := 1001;
             Tokens.tableName := Some "token_metadata_130" |}, t')
    /\ Tokens.inserts Z t' = [b1; b2]
    /\ Tokens.accepted Z t' = [b1; b2]
    /\ List.length b1 = 1000%nat
    /\ List.length b2 = 1%nat
    /\ (b1 ++ b2 = Tokens.validRows Z (Z.eqb 0) toLowerAscii sampleEntries)%list
    /\ map (Tokens.contract_address Z)
         (firstn 2 (Tokens.validRows Z (Z.eqb 0) toLowerAscii sampleEntries))
       = ["0xabc0"; "0xabc1"]%string.
Proof.
  assert (Hrows : List.length
                    (Tokens.validRows Z (Z.eqb 0) toLowerAscii sampleEntries)
                  = 1001%nat) by (vm_compute; reflexivity).
  destruct (token_batches_are_exact Z (Z.eqb 0) toLowerAscii quietEnv
              ".cache/tokenMetadata_130.json" 130 sampleEntries []
              (fun _ => eq_refl) (fun _ => eq_refl) eq_refl)
    as (t' & full & last & Hrun & Hi & Ha & Hf & Hlast & Hc & Hn).
  rewrite Hrows in Hrun, Hn.
  change ((1001 + 999) / 1000)%nat with 2%nat in Hn.
  assert (Hlen : List.length (List.concat (full ++ last)) = 1001%nat)
    by (now rewrite Hc).
  cbn [app Tokens.inserts Tokens.accepted] in Hi, Ha.
  destruct Hlast as [->|(b2 & -> & Hb2)].
  - exfalso. rewrite app_nil_r in Hn, Hlen.
    destruct full as [|x [|y [|z full]]]; try discriminate Hn.
    inversion Hf as [|? ? Hx Hf']; subst. inversion Hf' as [|? ? Hy _]; subst.
    change (List.concat [x; y]) with (x ++ y ++ [])%list in Hlen.
    rewrite !length_app, Hx, Hy in Hlen.
    cbn [List.length] in Hlen. lia.
  - destruct full as [|b1 [|y full]];
      [|clear Hn|rewrite length_app in Hn; cbn [List.length] in Hn; lia].
    + exfalso.
      change (List.concat ([] ++ [b2])) with (b2 ++ [])%list in Hlen.
      rewrite app_nil_r in Hlen. lia.
    + inversion Hf as [|? ? Hb1 _]; subst.
      change (List.concat ([b1] ++ [b2])) with (b1 ++ b2 ++ [])%list
        in Hlen, Hc.
      rewrite app_nil_r in Hlen, Hc.
      rewrite length_app, Hb1 in Hlen.
      exists t', b1, b2. split; [exact Hrun|].
      split; [exact Hi|]. split; [exact Ha|]. split; [exact Hb1|].
      split; [lia|]. split; [exact Hc|]. vm_compute. reflexivity.
Defined.

Example sampleEntries_run :
  match Tokens.processMetadataFile Z (Z.eqb 0) toLowerAscii quietEnv
          ".cache/tokenMetadata_130.json" 130 (Some sampleEntries) [] with
  | (Ok r, t') =>
      r = {| Tokens.chainId := 130; Tokens.tokenCount := 1001;
             Tokens.tableName := Some "token_metadata_130" |}
      /\ map (@List.length _) (Tokens.inserts Z t') = [1000%nat; 1%nat]
      /\ Tokens.accepted Z t' = Tokens.inserts Z t'
      /\ map (fun b => map (Tokens.contract_address Z) (firstn 2 b))
           (Tokens.inserts Z t')
         = [["0xabc0"; "0xabc1"]; ["0xabc1000"]]%string
  | (Throw, _) => False
  end.
Proof. vm_compute. repeat split. Qed.
